(** * scrubadub: the [Scrubber] orchestration engine ([scrubadub/scrubbers.py])

    A shallow embedding of the [Scrubber] class: the detector registry, the
    collection of [Filth] from the registered detectors, the sort and the
    merge of overlapping filth, and the reconstruction of the clean text.

    Conventions of the embedding:
    - a Python [str] is a [string], one [ascii] per character; [str]
      comparison is lexicographic on the characters ([String.compare]);
    - a Python [int] is a [Z];
    - [None] or a value is an [option];
    - the insertion-ordered [dict] of detectors is an association list;
    - a generator is the list of the values it yields; the iteration over
      what a detector yields may also end with an exception of the
      detector, which [scrubbers.py] does not catch;
    - a post-processor is a function on lists of filth;
    - the keyword arguments [**kwargs] are a record of what they hold for
      the parameters of [_replace_text], which they can bind;
    - a method that may [raise] runs in a small state and exception monad.

    [iter_filth_documents], which [clean] and [clean_documents] do not
    call, comes last, with the attribute of a detector that it reads. *)

From Stdlib Require Import List ZArith Lia Bool String Ascii.
From Stdlib Require Import Sorted Permutation.
From Stdlib Require Import OrderedTypeEx DecimalString.
From Stdlib Require DecimalNat.
Import ListNotations.

Local Open Scope string_scope.
Local Open Scope Z_scope.

(** ** Python primitives *)

Module Py.

(** [str(x)] for [x : Optional[str]]: [str(None)] is the text "None". *)
Definition str_opt (x : option string) : string :=
  match x with
  | None => "None"
  | Some s => s
  end.

(** [str(i)] for a non-negative [int]: its decimal numeral. *)
Definition str_nat (i : nat) : string :=
  NilEmpty.string_of_uint (Nat.to_uint i).

(** [x == y] on [Optional[str]]. *)
Definition opt_eqb (x y : option string) : bool :=
  match x, y with
  | None, None => true
  | Some s, Some t => String.eqb s t
  | _, _ => false
  end.

(** Bounds of a slice: a negative index counts from the end, and both
    ends are clamped to [0 .. len]. *)
Definition clamp (len i : Z) : Z :=
  if i <? 0 then Z.max (i + len) 0 else Z.min i len.

(** [s[lo:hi]] *)
Definition slice (s : string) (lo hi : Z) : string :=
  let len := Z.of_nat (String.length s) in
  let lo' := clamp len lo in
  let hi' := clamp len hi in
  substring (Z.to_nat lo') (Z.to_nat (hi' - lo')) s.

(** [s[lo:]] *)
Definition slice_from (s : string) (lo : Z) : string :=
  let len := Z.of_nat (String.length s) in
  let lo' := clamp len lo in
  substring (Z.to_nat lo') (Z.to_nat (len - lo')) s.

(** [u''.join(chunks)] *)
Definition join (chunks : list string) : string :=
  String.concat "" chunks.

(** [list.sort(key=...)] and [sorted]: an ascending, stable sort.  A
    stable sort has one possible result, which insertion from the right
    computes: an element is put before the first element of the sorted
    tail whose key is not smaller, so before the elements of equal key
    that followed it in the input. *)
Section Sort.
Context {A K : Type} (key : A -> K) (leb : K -> K -> bool).

Fixpoint insert (x : A) (l : list A) : list A :=
  match l with
  | [] => [x]
  | y :: r => if leb (key x) (key y) then x :: l else y :: insert x r
  end.

Fixpoint sort (l : list A) : list A :=
  match l with
  | [] => []
  | x :: r => insert x (sort r)
  end.
End Sort.

(** [sorted(names)] on a list of [str]. *)
Definition sorted_str (names : list string) : list string :=
  sort (fun s => s) String.leb names.

(** The elements of [{x for x in l}]: each value once.  The iteration
    order of a set is not specified; every use below sorts the elements
    or tests membership. *)
Definition opt_eq_dec (x y : option string) : {x = y} + {x <> y}.
Proof. decide equality. apply string_dec. Defined.

Definition set_of (l : list (option string)) : list (option string) :=
  nodup opt_eq_dec l.

(** [enumerate(l)] *)
Definition enumerate {A : Type} (l : list A) : list (nat * A) :=
  combine (seq 0 (List.length l)) l.

(** [l.insert(index, x)]: a negative index counts from the end, and an
    index out of range inserts at the nearer end. *)
Definition list_insert {A : Type} (index : Z) (x : A) (l : list A) : list A :=
  let i := Z.to_nat (clamp (Z.of_nat (List.length l)) index) in
  firstn i l ++ x :: skipn i l.

(** What a call receives where a [T], a class or a name is expected. *)
Inductive class (T : Type) : Type :=
| SubclassOf (instance : T)
    (* a subclass of [T]; [instance] is what calling it returns *)
| OtherClass (name_attr : option string).
    (* any other class; the [name] of what calling it returns, if any *)

Inductive value (T : Type) : Type :=
| Type_ (c : class T)       (* [isinstance(x, type)] *)
| Instance (x : T)          (* [isinstance(x, T)] *)
| Str (s : string)          (* [isinstance(x, str)] *)
| Other.                    (* none of these: an [int], [None], ... *)

(** The result of calling something: an instance of [T] or not. *)
Inductive made (T : Type) : Type :=
| IsA (x : T)
| NotA (name_attr : option string).

Arguments SubclassOf {T} instance.
Arguments OtherClass {T} name_attr.
Arguments Type_ {T} c.
Arguments Instance {T} x.
Arguments Str {T} s.
Arguments Other {T}.
Arguments IsA {T} x.
Arguments NotA {T} name_attr.

(** [c()] *)
Definition call {T : Type} (c : class T) : made T :=
  match c with
  | SubclassOf x => IsA x
  | OtherClass n => NotA n
  end.

(** [issubclass(c, T)] *)
Definition issubclass {T : Type} (c : class T) : bool :=
  match c with
  | SubclassOf _ => true
  | OtherClass _ => false
  end.

End Py.

(** ** Filth

    The class [Filth] belongs to the module [filth]; [scrubbers.py] reads
    its attributes [beg], [end], [document_name] and [replacement_string]
    and calls [Filth()], [merge] and [replace_with]. *)

(** Modelled from the spec: the class [Filth] of the module [filth].  A
    span has the attributes that the scrubber reads and, as metadata, its
    kind and the name of the detector that found it; both are lists, since
    a merged span keeps those of all the spans merged into it. *)
Record Filth : Type := mkFilth {
  beg : Z;
  end_ : Z;
  document_name : option string;
  replacement_string : option string;
  kinds : list string;
  detector_names : list string
}.

(** Modelled from the spec: the constructor [Filth()] of the module
    [filth].  Reconstruction starts its cursor at the beginning of
    the text, so the default span is the empty span at offset 0, of no
    document, with no fixed replacement and no metadata. *)
Definition Filth_default : Filth :=
  mkFilth 0 0 None None [] [].

(** Modelled from the spec: the method [Filth.merge] of the module
    [filth].  "Combines two spans known to overlap/touch into one
    spanning min(begin), max(end), retaining/merging metadata (e.g. both
    kinds, both source detector names)"; the merged span belongs to the
    document of the two and carries no fixed replacement of its own. *)
Definition merge (self other : Filth) : Filth :=
  mkFilth (Z.min (beg self) (beg other))
          (Z.max (end_ self) (end_ other))
          (document_name self)
          None
          (kinds self ++ kinds other)
          (detector_names self ++ detector_names other).


(** ** Sorting: [Scrubber._sort_filths] *)

(** The sort key [(str(f.document_name), f.beg, -f.end)]. *)
Definition sort_key (f : Filth) : string * Z * Z :=
  (Py.str_opt (document_name f), beg f, - end_ f).

(** Python compares tuples lexicographically. *)
Definition key_compare (k1 k2 : string * Z * Z) : comparison :=
  let '(d1, b1, e1) := k1 in
  let '(d2, b2, e2) := k2 in
  match String.compare d1 d2 with
  | Eq => match Z.compare b1 b2 with
          | Eq => Z.compare e1 e2
          | c => c
          end
  | c => c
  end.

Definition key_leb (k1 k2 : string * Z * Z) : bool :=
  match key_compare k1 k2 with
  | Gt => false
  | _ => true
  end.

Definition _sort_filths (filth_list : list Filth) : list Filth :=
  Py.sort sort_key key_leb filth_list.

(** ** Merging: [Scrubber._merge_filths] *)

(** [f.document_name == document_name] *)
Definition in_document (document_name0 : option string) (f : Filth) : bool :=
  Py.opt_eqb (document_name f) document_name0.

(** [[x for x in document_name_set if x is not None]] *)
Definition named (document_name_set : list (option string)) : list string :=
  flat_map (fun x => match x with Some s => [s] | None => [] end)
           document_name_set.

(** The documents in the order they are merged: [None] first when it
    occurs, then the names in ascending order. *)
Definition document_names (filth_list : list Filth) : list (option string) :=
  let document_name_set := Py.set_of (map document_name filth_list) in
  if in_dec Py.opt_eq_dec None document_name_set
  then [None] ++ map Some (Py.sorted_str (named document_name_set))
  else map Some (Py.sorted_str (named document_name_set)).

(** The inner loop over [document_filth_list[1:]], with the running
    [filth]; the values yielded, in order. *)
Fixpoint merge_loop (filth : Filth) (rest : list Filth) : list Filth :=
  match rest with
  | [] => [filth]
  | next_filth :: rest' =>
      if end_ filth <? beg next_filth
      then filth :: merge_loop next_filth rest'
      else merge_loop (merge filth next_filth) rest'
  end.

(** One document: sort its filths, then run the loop from the first one.
    The list is never empty here, a document name comes from a filth. *)
Definition merge_document (filth_list : list Filth)
    (document_name0 : option string) : list Filth :=
  match _sort_filths (filter (in_document document_name0) filth_list) with
  | [] => []
  | filth :: rest => merge_loop filth rest
  end.

Definition _merge_filths (filth_list : list Filth) : list Filth :=
  match filth_list with
  | [] => []
  | _ => flat_map (merge_document filth_list) (document_names filth_list)
  end.

(** ** Exceptions, and the monad of the methods that may raise *)

Inductive type_error : Type :=
| NotASubclass        (* '"..." is not a subclass of Detector' *)
| NotAnInstance       (* 'The detector "..." is not an instance of ...' *)
| NotAFilth           (* 'iter_filth must always yield Filth' *)
| BadDocuments        (* 'documents type should be one of: list ...' *)
| MultipleValues.     (* '... got multiple values for keyword argument ...' *)

Inductive key_error : Type :=
| NameInUse (name : string)   (* 'can not add ... this name is already in use' *)
| MissingKey (name : string). (* raised by [dict.pop] *)

Inductive exn : Type :=
| TypeError (why : type_error)
| ValueError (unknown : string)   (* 'Unknown Detector: ...' *)
| KeyError (why : key_error)
| AttributeError.                 (* an object without a [name] *)

Inductive result (A : Type) : Type :=
| Ok (a : A)
| Raise (e : exn).

Arguments Ok {A} a.
Arguments Raise {A} e.

(** The error taxonomy of the specification, and where each exception of
    the source falls in it. *)
Inductive spec_error : Type :=
| TypeConstraintViolation
| DuplicateName
| UnknownIdentifier
| InvalidProducerOutput
| InvalidDocumentCollection.

Definition taxonomy (e : exn) : option spec_error :=
  match e with
  | TypeError NotASubclass => Some TypeConstraintViolation
  | TypeError NotAnInstance => Some TypeConstraintViolation
  | TypeError NotAFilth => Some InvalidProducerOutput
  | TypeError BadDocuments => Some InvalidDocumentCollection
  | TypeError MultipleValues => None
  | ValueError _ => Some UnknownIdentifier
  | KeyError (NameInUse _) => Some DuplicateName
  | KeyError (MissingKey _) => None
  | AttributeError => None
  end.

Module Exn.

Definition bind {A B : Type} (r : result A) (k : A -> result B) : result B :=
  match r with
  | Ok a => k a
  | Raise e => Raise e
  end.

(** A comprehension whose body may raise: the first exception ends it. *)
Fixpoint for_each {A B : Type} (body : A -> result B) (l : list A)
  : result (list B) :=
  match l with
  | [] => Ok []
  | x :: r =>
      bind (body x) (fun y =>
      bind (for_each body r) (fun ys => Ok (y :: ys)))
  end.

End Exn.

(** ** Detectors and post-processors, as the scrubber uses them *)

(** What the iteration over [detector.iter_filth(...)] meets, step by
    step: a [Filth] that is yielded, a value that is yielded and is no
    [Filth], or an exception that the detector raises, which ends the
    iteration. *)
Inductive yielded : Type :=
| YFilth (f : Filth)
| YOther
| YRaise (e : exn).

Module Detector.
Record t : Type := mk {
  name : string;
  iter_filth : string -> option string -> list yielded
}.
End Detector.

Module PostProcessor.
Record t : Type := mk {
  name : string;
  process_filth : list Filth -> list Filth
}.
End PostProcessor.

(** ** The scrubber *)

Record Scrubber : Type := mkScrubber {
  _detectors : list (string * Detector.t);
  _post_processors : list PostProcessor.t
}.

(** A method of a scrubber: from the state before the call, the value
    returned or the exception raised, and the state after. *)
Definition method (A : Type) : Type := Scrubber -> result A * Scrubber.

Module Method.

Definition ret {A : Type} (a : A) : method A := fun self => (Ok a, self).

Definition raise {A : Type} (e : exn) : method A := fun self => (Raise e, self).

Definition bind {A B : Type} (m : method A) (k : A -> method B) : method B :=
  fun self =>
    match m self with
    | (Ok a, self') => k a self'
    | (Raise e, self') => (Raise e, self')
    end.

Definition get : method Scrubber := fun self => (Ok self, self).

Definition put (self' : Scrubber) : method unit := fun _ => (Ok tt, self').

(** [for x in l: body(x)] *)
Fixpoint for_ {A : Type} (l : list A) (body : A -> method unit) : method unit :=
  match l with
  | [] => ret tt
  | x :: r => bind (body x) (fun _ => for_ r body)
  end.

End Method.

Notation "x <- m ;; k" := (Method.bind m (fun x => k))
  (at level 61, m at next level, right associativity).
Notation "m ;;; k" := (Method.bind m (fun _ => k))
  (at level 61, right associativity).

(** An entry of [detectors.detector_configuration] and of
    [post_processors.post_processor_configuration]. *)
Record detector_config : Type := mkDetectorConfig {
  cfg_detector : Py.class Detector.t;      (* [config['detector']] *)
  cfg_detector_autoload : bool             (* [config['autoload']] *)
}.

Record post_processor_config : Type := mkPostProcessorConfig {
  cfg_post_processor : Py.class PostProcessor.t;  (* [config['post_processor']] *)
  cfg_post_processor_autoload : bool;             (* [config['autoload']] *)
  cfg_index : Z                                   (* [config['index']] *)
}.

(** [name in d], [d[name]] and [d.pop(name)] on a dictionary, kept as the
    list of its items in insertion order. *)
Section Dict.
Context {V : Type}.

Fixpoint dict_get (d : list (string * V)) (name : string) : option V :=
  match d with
  | [] => None
  | (k, v) :: r => if String.eqb k name then Some v else dict_get r name
  end.

Definition dict_mem (d : list (string * V)) (name : string) : bool :=
  match dict_get d name with
  | Some _ => true
  | None => false
  end.

(** [d[name] = v]: the value of a key already there is replaced in place,
    a new key goes last. *)
Fixpoint dict_set (d : list (string * V)) (name : string) (v : V)
  : list (string * V) :=
  match d with
  | [] => [(name, v)]
  | (k, w) :: r =>
      if String.eqb k name then (k, v) :: r else (k, w) :: dict_set r name v
  end.

Fixpoint dict_remove (d : list (string * V)) (name : string)
  : list (string * V) :=
  match d with
  | [] => []
  | (k, w) :: r =>
      if String.eqb k name then r else (k, w) :: dict_remove r name
  end.

End Dict.

(** ** Keyword arguments

    [clean] and [clean_documents] take [**kwargs] and pass them on to
    [_replace_text], which passes on to [Filth.replace_with] those that
    name none of its own parameters.  The record holds what [kwargs] has
    for the names of the parameters of [_replace_text]: whether [text]
    and [filth_list] are keywords of it, and the value of the keyword
    [document_name], [None] or a string, when it is one. *)
Record kwargs : Type := mkKwargs {
  kw_text : bool;
  kw_filth_list : bool;
  kw_document_name : option (option string)
}.

(** A call with no keyword that names a parameter of [_replace_text]. *)
Definition no_kwargs : kwargs := mkKwargs false false None.

Section Engine.

(** The engine is parameterized by the two catalogs of the modules
    [detectors] and [post_processors], and by the computed replacement
    [Filth.replace_with] of the module [filth], applied to the keyword
    arguments that reach it: those of the call at hand that name no
    parameter of [_replace_text]. *)
Variable detector_configuration : list (string * detector_config).
Variable post_processor_configuration : list (string * post_processor_config).
Variable replace_with : Filth -> string.

(** *** The detector registry *)

Definition _check_and_add_detector (detector : Py.made Detector.t)
  : method unit :=
  match detector with
  | Py.NotA _ => Method.raise (TypeError NotAnInstance)
  | Py.IsA detector =>
      let name := Detector.name detector in
      self <- Method.get ;;
      if dict_mem (_detectors self) name
      then Method.raise (KeyError (NameInUse name))
      else Method.put (mkScrubber (dict_set (_detectors self) name detector)
                                  (_post_processors self))
  end.

Definition add_detector (detector : Py.value Detector.t) : method unit :=
  match detector with
  | Py.Type_ c =>
      if negb (Py.issubclass c)
      then Method.raise (TypeError NotASubclass)
      else _check_and_add_detector (Py.call c)
  | Py.Instance d => _check_and_add_detector (Py.IsA d)
  | Py.Str s =>
      match dict_get detector_configuration s with
      | Some config => _check_and_add_detector (Py.call (cfg_detector config))
      | None => Method.raise (ValueError s)
      end
  | Py.Other => Method.ret tt
  end.

(** [self._detectors.pop(name)] *)
Definition _detectors_pop (name : string) : method unit :=
  self <- Method.get ;;
  if dict_mem (_detectors self) name
  then Method.put (mkScrubber (dict_remove (_detectors self) name)
                              (_post_processors self))
  else Method.raise (KeyError (MissingKey name)).

(** [x.name] of what a call made. *)
Definition name_of {T : Type} (name : T -> string) (x : Py.made T)
  : result string :=
  match x with
  | Py.IsA x => Ok (name x)
  | Py.NotA (Some n) => Ok n
  | Py.NotA None => Raise AttributeError
  end.

Definition remove_detector (detector : Py.value Detector.t) : method unit :=
  match detector with
  | Py.Type_ c =>
      match name_of Detector.name (Py.call c) with
      | Ok name => _detectors_pop name
      | Raise e => Method.raise e
      end
  | Py.Instance d => _detectors_pop (Detector.name d)
  | Py.Str s => _detectors_pop s
  | Py.Other => Method.ret tt
  end.

(** *** The post-processor registry *)

Definition _check_and_add_post_processor
    (post_processor : Py.made PostProcessor.t) (index : option Z)
  : method unit :=
  match post_processor with
  | Py.NotA _ => Method.raise (TypeError NotAnInstance)
  | Py.IsA post_processor =>
      let name := PostProcessor.name post_processor in
      self <- Method.get ;;
      if existsb (String.eqb name)
                 (map PostProcessor.name (_post_processors self))
      then Method.raise (KeyError (NameInUse name))
      else
        Method.put
          (mkScrubber (_detectors self)
             match index with
             | None => _post_processors self ++ [post_processor]
             | Some i => Py.list_insert i post_processor (_post_processors self)
             end)
  end.

Definition add_post_processor (post_processor : Py.value PostProcessor.t)
    (index : option Z) : method unit :=
  match post_processor with
  | Py.Type_ c =>
      if negb (Py.issubclass c)
      then Method.raise (TypeError NotASubclass)
      else _check_and_add_post_processor (Py.call c) index
  | Py.Instance p => _check_and_add_post_processor (Py.IsA p) index
  | Py.Str s =>
      match dict_get post_processor_configuration s with
      | Some config =>
          _check_and_add_post_processor
            (Py.call (cfg_post_processor config)) index
      | None => Method.raise (ValueError s)
      end
  | Py.Other => Method.ret tt
  end.

(** [[x for x in self._post_processors if x.name != name]], where [name]
    is read once for every [x]: with no post-processor it is not read. *)
Definition _post_processors_without (name : result string) : method unit :=
  self <- Method.get ;;
  match _post_processors self, name with
  | [], _ => Method.put (mkScrubber (_detectors self) [])
  | _ :: _, Raise e => Method.raise e
  | pps, Ok name =>
      Method.put
        (mkScrubber (_detectors self)
           (filter (fun x => negb (String.eqb (PostProcessor.name x) name))
                   pps))
  end.

Definition remove_post_processor (post_processor : Py.value PostProcessor.t)
  : method unit :=
  match post_processor with
  | Py.Type_ c =>
      _post_processors_without (name_of PostProcessor.name (Py.call c))
  | Py.Instance p => _post_processors_without (Ok (PostProcessor.name p))
  | Py.Str s => _post_processors_without (Ok s)
  | Py.Other => Method.ret tt
  end.

(** *** Construction: [Scrubber.__init__] *)

Definition default_detector_list : list (Py.value Detector.t) :=
  map (fun item => Py.Type_ (cfg_detector (snd item)))
      (filter (fun item => cfg_detector_autoload (snd item))
              detector_configuration).

Definition default_post_processor_list : list (Py.value PostProcessor.t) :=
  map (fun config => Py.Type_ (cfg_post_processor config))
      (filter cfg_post_processor_autoload
              (Py.sort cfg_index Z.leb
                       (map snd post_processor_configuration))).

Definition __init__ (detector_list : option (list (Py.value Detector.t)))
    (post_processor_list : option (list (Py.value PostProcessor.t)))
  : method unit :=
  Method.put (mkScrubber [] []) ;;;
  let detector_list :=
    match detector_list with
    | None => default_detector_list
    | Some l => l
    end in
  Method.for_ detector_list add_detector ;;;
  let post_processor_list :=
    match post_processor_list with
    | None => default_post_processor_list
    | Some l => l
    end in
  Method.for_ post_processor_list (fun p => add_post_processor p None).

(** [Scrubber(detector_list, post_processor_list)]: the new scrubber, when
    [__init__] returns. *)
Definition new (detector_list : option (list (Py.value Detector.t)))
    (post_processor_list : option (list (Py.value PostProcessor.t)))
  : result Scrubber :=
  match __init__ detector_list post_processor_list (mkScrubber [] []) with
  | (Ok _, self) => Ok self
  | (Raise e, _) => Raise e
  end.

(** *** The pipeline

    The methods below read the registries and never change them: each is
    a function of the scrubber [self]. *)

Definition _post_process_filth_list (self : Scrubber)
    (filth_list : list Filth) : list Filth :=
  fold_left (fun filth_list post_processor =>
               PostProcessor.process_filth post_processor filth_list)
            (_post_processors self) filth_list.

(** One step of the loop over a detector in [iter_filth]: the check of
    the value yielded, or the exception of the detector, which [iter_filth]
    does not catch. *)
Definition check_filth (y : yielded) : result Filth :=
  match y with
  | YFilth filth => Ok filth
  | YOther => Raise (TypeError NotAFilth)
  | YRaise e => Raise e
  end.

(** The first loop of [iter_filth]: the list [all_filths]. *)
Definition all_filths (self : Scrubber) (text : string)
    (document_name0 : option string) (exclude_detectors : option (list string))
  : result (list Filth) :=
  Exn.bind
    (Exn.for_each
       (fun item : string * Detector.t =>
          let (name, detector) := item in
          if match exclude_detectors with
             | None => true
             | Some excluded => negb (existsb (String.eqb name) excluded)
             end
          then Exn.for_each check_filth
                 (Detector.iter_filth detector text document_name0)
          else Ok [])
       (_detectors self))
    (fun per_detector => Ok (List.concat per_detector)).

Definition iter_filth (self : Scrubber) (text : string)
    (document_name0 : option string) (run_post_processors : bool)
    (exclude_detectors : option (list string)) : result (list Filth) :=
  Exn.bind (all_filths self text document_name0 exclude_detectors)
    (fun all_filths =>
       if run_post_processors
       then Ok (_post_process_filth_list self (_merge_filths all_filths))
       else Ok (_merge_filths all_filths)).

(** The state of the loop of [_replace_text]: [clean_chunks] and the
    running [filth]. *)
Definition replace_step (text : string) (state : list string * Filth)
    (next_filth : Filth) : list string * Filth :=
  let (clean_chunks, filth) := state in
  ((clean_chunks
      ++ [Py.slice text (end_ filth) (beg next_filth)]
      ++ [match replacement_string next_filth with
          | Some replacement => replacement
          | None => replace_with next_filth
          end])%list,
   next_filth).

Definition _replace_text (text : string) (filth_list : list Filth)
    (document_name0 : option string) : string :=
  let filth_list :=
    match document_name0 with
    | Some _ => filter (in_document document_name0) filth_list
    | None => filth_list
    end in
  let filth_list := _sort_filths filth_list in
  let (clean_chunks, filth) :=
    fold_left (replace_step text) filth_list ([], Filth_default) in
  Py.join (clean_chunks ++ [Py.slice_from text (end_ filth)])%list.

(** The calls [self._replace_text(text=text, filth_list=filth_list,
    **kwargs)] of [clean] and [self._replace_text(text=text,
    filth_list=filth_list, document_name=..., **kwargs)] of
    [clean_documents]; [document_name0] is the keyword [document_name]
    that the caller writes, if it writes one.  A keyword of [kwargs] that
    names a parameter given in the call is a [TypeError]; a keyword
    [document_name] of [kwargs], when the call gives none, becomes the
    parameter [document_name] of [_replace_text]. *)
Definition call_replace_text (text : string) (filth_list : list Filth)
    (document_name0 : option (option string)) (kw : kwargs) : result string :=
  if kw_text kw || kw_filth_list kw
  then Raise (TypeError MultipleValues)
  else
    match document_name0, kw_document_name kw with
    | Some _, Some _ => Raise (TypeError MultipleValues)
    | Some given, None => Ok (_replace_text text filth_list given)
    | None, Some given => Ok (_replace_text text filth_list given)
    | None, None => Ok (_replace_text text filth_list None)
    end.

(** [clean] and [clean_documents]; the deprecation warning that they may
    emit changes nothing.  A keyword [text] cannot reach the [kwargs] of
    [clean], whose own parameter it names: the call of [clean] raises. *)
Definition clean (self : Scrubber) (text : string) (kw : kwargs)
  : result string :=
  if kw_text kw
  then Raise (TypeError MultipleValues)
  else
    Exn.bind (iter_filth self text None true None) (fun filth_list =>
    let filth_list := _post_process_filth_list self filth_list in
    call_replace_text text filth_list None kw).

(** What [clean_documents] receives and returns: a [list] of texts, a
    [dict] from names to texts, or, on input, anything else. *)
Inductive documents : Type :=
| DocList (texts : list string)
| DocDict (items : list (string * string))
| DocOther.

Definition clean_documents (self : Scrubber) (docs : documents) (kw : kwargs)
  : result documents :=
  match docs with
  | DocList texts =>
      Exn.bind
        (Exn.for_each
           (fun item : nat * string =>
              let (name, document) := item in
              iter_filth self document (Some (Py.str_nat name)) true None)
           (Py.enumerate texts))
        (fun per_document =>
           let filth_list :=
             _post_process_filth_list self (List.concat per_document) in
           Exn.bind
             (Exn.for_each
                (fun item : nat * string =>
                   let (name, text) := item in
                   call_replace_text text filth_list
                                     (Some (Some (Py.str_nat name))) kw)
                (Py.enumerate texts))
             (fun clean_texts => Ok (DocList clean_texts)))
  | DocDict items =>
      Exn.bind
        (Exn.for_each
           (fun item : string * string =>
              let (name, document) := item in
              iter_filth self document (Some name) true None)
           items)
        (fun per_document =>
           let filth_list :=
             _post_process_filth_list self (List.concat per_document) in
           Exn.bind
             (Exn.for_each
                (fun item : string * string =>
                   let (name, text) := item in
                   Exn.bind
                     (call_replace_text text filth_list (Some (Some name)) kw)
                     (fun clean_text => Ok (name, clean_text)))
                items)
             (fun clean_items => Ok (DocDict clean_items)))
  | DocOther => Raise (TypeError BadDocuments)
  end.

(** The ordered sequences of texts of Python that a caller may give, the
    annotation of [documents] being [Sequence[str]]: a [list] or a
    [tuple]; and what [clean_documents] makes of them, for which
    [isinstance(documents, list)] holds of the first only. *)
Inductive sequence : Type :=
| SeqList (texts : list string)
| SeqTuple (texts : list string).

Definition of_sequence (s : sequence) : documents :=
  match s with
  | SeqList texts => DocList texts
  | SeqTuple _ => DocOther
  end.

End Engine.

(** *** [iter_filth_documents]

    A detector may have a method [iter_filth_documents], which finds
    filths in a whole collection of documents at once.  The method is not
    part of the record of a detector above: [document_iterator] is the
    attribute lookup [getattr(detector, 'iter_filth_documents', None)],
    and a detector has the method when it is not [None]. *)

Section Documents.
Variable document_iterator : Detector.t -> option (documents -> list Filth).

(** The first loop of [iter_filth_documents]: the detectors that have
    the method, with their names. *)
Definition document_detectors (self : Scrubber)
  : list (string * (documents -> list Filth)) :=
  flat_map (fun item : string * Detector.t =>
              let (name, detector) := item in
              match document_iterator detector with
              | Some iterator => [(name, iterator)]
              | None => []
              end)
           (_detectors self).

Definition iter_filth_documents (self : Scrubber) (docs : documents)
    (run_post_processors : bool) : result (list Filth) :=
  match docs with
  | DocOther => Raise (TypeError BadDocuments)
  | _ =>
      let document_detectors_names := map fst (document_detectors self) in
      let filth_list :=
        flat_map (fun item : string * (documents -> list Filth) =>
                    snd item docs)
                 (document_detectors self) in
      Exn.bind
        match docs with
        | DocDict items =>
            Exn.for_each
              (fun item : string * string =>
                 let (name, text) := item in
                 iter_filth self text (Some name) false
                            (Some document_detectors_names))
              items
        | DocList texts =>
            Exn.for_each
              (fun item : nat * string =>
                 let (i_name, text) := item in
                 iter_filth self text (Some (Py.str_nat i_name)) false
                            (Some document_detectors_names))
              (Py.enumerate texts)
        | DocOther => Ok []
        end
        (fun per_document =>
           if run_post_processors
           then Ok (_post_process_filth_list self
                      (filth_list ++ List.concat per_document))
           else Ok (List.concat per_document))
  end.

End Documents.

(** * The vocabulary of the properties *)

(** ** Orders *)

(** The order of a sort, on the elements and on their keys. *)
Definition key_le {A K : Type} (key : A -> K) (leb : K -> K -> bool)
    (x y : A) : Prop :=
  leb (key x) (key y) = true.


(** The lexicographic order of [str]. *)
Definition str_lt (s t : string) : Prop := String.compare s t = Lt.

(** The order of the sort keys on two filths. *)
Definition key_le_filth : Filth -> Filth -> Prop := key_le sort_key key_leb.



(** Within one document the keys are ordered by begin, then by length. *)
Definition begin_then_longest (f g : Filth) : Prop :=
  beg f < beg g \/ (beg f = beg g /\ end_ g <= end_ f).

(** [a] begins no later than [b]. *)
Definition begins_before (a b : Filth) : Prop := beg a <= beg b.

(** The order in which the merge goes through the documents. *)
Definition doc_lt (d1 d2 : option string) : Prop :=
  match d1, d2 with
  | None, Some _ => True
  | Some s, Some t => str_lt s t
  | _, None => False
  end.

(** ** Spans *)

(** The invariant of a span: it begins no later than it ends. *)
Definition well_formed (f : Filth) : Prop := beg f <= end_ f.

(** [a] ends before [b] begins, with a gap between them. *)
Definition gap (a b : Filth) : Prop := end_ a < beg b.

(** Two spans that neither overlap nor touch. *)
Definition separated (a b : Filth) : Prop := gap a b \/ gap b a.

(** ** The specification's algorithms *)

(** The merge rule, following the words of the specification: a running
    [current]; for each [next], merge it into [current] when
    [current.end >= next.begin], otherwise emit [current] and go on from
    [next]; emit the last [current]. *)
Definition spec_merge_step (state : list Filth * Filth) (next : Filth)
  : list Filth * Filth :=
  let (emitted, current) := state in
  if end_ current >=? beg next
  then (emitted, merge current next)
  else ((emitted ++ [current])%list, next).

Definition spec_merge_rule (sorted : list Filth) : list Filth :=
  match sorted with
  | [] => []
  | first :: rest =>
      let (emitted, current) := fold_left spec_merge_step rest ([], first) in
      (emitted ++ [current])%list
  end.

Section Rebuild.
Variable replace_with : Filth -> string.

(** What is put in place of a span. *)
Definition replacement (span : Filth) : string :=
  match replacement_string span with
  | Some fixed => fixed
  | None => replace_with span
  end.

(** Reconstruction, following the words of the specification: walk the
    spans in order, copy [text[cursor:span.begin]], emit the replacement,
    advance the cursor to [span.end]; after the last span append
    [text[cursor:]]. *)
Fixpoint spec_rebuild_from (text : string) (cursor : Z) (spans : list Filth)
  : string :=
  match spans with
  | [] => Py.slice_from text cursor
  | span :: rest =>
      Py.slice text cursor (beg span)
      ++ replacement span
      ++ spec_rebuild_from text (end_ span) rest
  end.

Definition spec_rebuild (text : string) (spans : list Filth) : string :=
  spec_rebuild_from text 0 spans.

End Rebuild.

(** ** Collection *)




(** Every registered detector yields filths only, and raises nothing. *)
Definition well_behaved (self : Scrubber) : Prop :=
  forall name detector text document_name0,
    In (name, detector) (_detectors self) ->
    Forall (fun y => match y with YFilth _ => True | _ => False end)
           (Detector.iter_filth detector text document_name0).

(** A detector that yields nothing and raises [e]. *)
Definition raises (name : string) (e : exn) : Detector.t :=
  Detector.mk name (fun _ _ => [YRaise e]).

(** A detector that reports the span from [b] to [e], of one kind. *)
Definition reports (name kind : string) (b e : Z) : Detector.t :=
  Detector.mk name
    (fun _ document_name0 =>
       [YFilth (mkFilth b e document_name0 None [kind] [name])]).

(** A replacement that names the kinds of the span, in the order in which
    the span holds them. *)
Definition placeholder (f : Filth) : string :=
  "{{" ++ String.concat "+" (kinds f) ++ "}}".

(** ** The registry *)

(** No two entries of the registry have the same key, and the key of an
    entry is the name of its detector. *)
Definition registry_ok (self : Scrubber) : Prop :=
  NoDup (map fst (_detectors self)) /\
  Forall (fun item => fst item = Detector.name (snd item)) (_detectors self).

(** The names of the registered detectors. *)
Definition registered_names (self : Scrubber) : list string :=
  map (fun item => Detector.name (snd item)) (_detectors self).

(** A method keeps the registry in order, however it ends. *)
Definition keeps_registry {A : Type} (m : method A) : Prop :=
  forall self r self', registry_ok self -> m self = (r, self') ->
                       registry_ok self'.

(** The calls that change a scrubber. *)
Inductive operation : Type :=
| Add_detector (detector : Py.value Detector.t)
| Remove_detector (detector : Py.value Detector.t)
| Add_post_processor (post_processor : Py.value PostProcessor.t)
                     (index : option Z)
| Remove_post_processor (post_processor : Py.value PostProcessor.t).

Section Calls.
Variable detector_configuration : list (string * detector_config).
Variable post_processor_configuration : list (string * post_processor_config).

Definition run (c : operation) : method unit :=
  match c with
  | Add_detector d => add_detector detector_configuration d
  | Remove_detector d => remove_detector d
  | Add_post_processor p index =>
      add_post_processor post_processor_configuration p index
  | Remove_post_processor p => remove_post_processor p
  end.

(** The scrubbers that a program can hold: a new one, and one after any
    call on one it holds, whether the call returned or raised. *)
Inductive reachable : Scrubber -> Prop :=
| reachable_new detector_list post_processor_list self :
    new detector_configuration post_processor_configuration
        detector_list post_processor_list = Ok self ->
    reachable self
| reachable_call self c r self' :
    reachable self -> run c self = (r, self') -> reachable self'.

(** The detector that an argument of [add_detector] stands for: the one
    given, the one its class makes, or the one the catalog makes for its
    name. *)
Definition produced (detector : Py.value Detector.t) : option Detector.t :=
  match detector with
  | Py.Type_ (Py.SubclassOf d) => Some d
  | Py.Type_ (Py.OtherClass _) => None
  | Py.Instance d => Some d
  | Py.Str s =>
      match dict_get detector_configuration s with
      | Some config =>
          match cfg_detector config with
          | Py.SubclassOf d => Some d
          | Py.OtherClass _ => None
          end
      | None => None
      end
  | Py.Other => None
  end.

(** What [add_detector] makes of its argument before it registers it: the
    detector given, what the class given makes, or what the catalog entry
    of the name given makes.  Of any other value it makes nothing. *)
Definition made_from (detector : Py.value Detector.t)
  : option (Py.made Detector.t) :=
  match detector with
  | Py.Type_ c => Some (Py.call c)
  | Py.Instance d => Some (Py.IsA d)
  | Py.Str s =>
      match dict_get detector_configuration s with
      | Some config => Some (Py.call (cfg_detector config))
      | None => None
      end
  | Py.Other => None
  end.

End Calls.

(** ** Spans and the text *)

(** The offset [x] is one of those that the span covers. *)
Definition in_span (x : Z) (f : Filth) : Prop := beg f <= x < end_ f.

(** [m] covers all of [f], in the same document. *)
Definition covers (m f : Filth) : Prop :=
  document_name m = document_name f /\ beg m <= beg f /\ end_ f <= end_ m.

(** The span lies within the text. *)
Definition in_bounds (text : string) (f : Filth) : Prop :=
  0 <= beg f /\ beg f <= end_ f /\ end_ f <= Z.of_nat (String.length text).

(** [a] comes before [b] in the text and does not overlap it. *)
Definition precedes (a b : Filth) : Prop :=
  beg a < beg b /\ end_ a <= beg b.

(** The number of characters that the spans cover, when they do not
    overlap, and the number of characters put in their place. *)
Definition covered_length (spans : list Filth) : Z :=
  fold_right (fun f n => (end_ f - beg f) + n) 0 spans.

Definition replaced_length (replace_with : Filth -> string)
    (spans : list Filth) : Z :=
  fold_right
    (fun f n => Z.of_nat (String.length (replacement replace_with f)) + n)
    0 spans.

(** The cursor [c] is not beyond the first span. *)
Definition starts_after (c : Z) (spans : list Filth) : Prop :=
  match spans with
  | [] => True
  | f :: _ => c <= beg f
  end.

(** No detector of the scrubber finds anything in the text, as the
    document given. *)
Definition finds_nothing (self : Scrubber) (text : string)
    (document_name0 : option string) : Prop :=
  forall name detector,
    In (name, detector) (_detectors self) ->
    Detector.iter_filth detector text document_name0 = [].

(** The post-processors make no filth out of none. *)
Definition adds_no_filth (self : Scrubber) : Prop :=
  _post_process_filth_list self [] = [].

(** The order of the merged spans: the documents in the order of the
    merge, and within a document each span before the next with a gap. *)
Definition merged_order (a b : Filth) : Prop :=
  doc_lt (document_name a) (document_name b) \/
  (document_name a = document_name b /\ gap a b).

(** ** The registries, further *)

(** The names of the registered post-processors. *)
Definition post_processor_names (self : Scrubber) : list string :=
  map PostProcessor.name (_post_processors self).

(** The entry of a detector in the registry. *)
Definition entry (d : Detector.t) : string * Detector.t :=
  (Detector.name d, d).

(** A method keeps a property of the scrubber, however it ends. *)
Definition keeps (P : Scrubber -> Prop) {A : Type} (m : method A) : Prop :=
  forall self r self', P self -> m self = (r, self') -> P self'.

(** The position at which [add_post_processor] puts a post-processor. *)
Definition position (index : option Z) (len : nat) : nat :=
  match index with
  | None => len
  | Some i => Z.to_nat (Py.clamp (Z.of_nat len) i)
  end.

Section Made.
Variable detector_configuration : list (string * detector_config).
Variable post_processor_configuration : list (string * post_processor_config).

(** The detectors that the arguments of [add_detector] stand for. *)
Definition produced_all (detector_list : list (Py.value Detector.t))
  : list Detector.t :=
  flat_map (fun v => match produced detector_configuration v with
                     | Some d => [d]
                     | None => []
                     end)
           detector_list.

(** The post-processor that an argument of [add_post_processor] stands
    for. *)
Definition produced_post_processor
    (post_processor : Py.value PostProcessor.t) : option PostProcessor.t :=
  match post_processor with
  | Py.Type_ (Py.SubclassOf p) => Some p
  | Py.Type_ (Py.OtherClass _) => None
  | Py.Instance p => Some p
  | Py.Str s =>
      match dict_get post_processor_configuration s with
      | Some config =>
          match cfg_post_processor config with
          | Py.SubclassOf p => Some p
          | Py.OtherClass _ => None
          end
      | None => None
      end
  | Py.Other => None
  end.

Definition produced_post_processors
    (post_processor_list : list (Py.value PostProcessor.t))
  : list PostProcessor.t :=
  flat_map (fun v => match produced_post_processor v with
                     | Some p => [p]
                     | None => []
                     end)
           post_processor_list.

End Made.

(** ** The pipeline, further *)

(** The scrubber without the detectors of the names given. *)
Definition without_detectors (self : Scrubber) (excluded : list string)
  : Scrubber :=
  mkScrubber
    (filter (fun item : string * Detector.t =>
               negb (existsb (String.eqb (fst item)) excluded))
            (_detectors self))
    (_post_processors self).

(** A list of texts as the dictionary of the same texts, each under the
    name of its position. *)
Definition as_dict (texts : list string) : list (string * string) :=
  map (fun item : nat * string => (Py.str_nat (fst item), snd item))
      (Py.enumerate texts).

(** A post-processor that gives every filth the fixed replacement given. *)
Definition fixes (name fixed : string) : PostProcessor.t :=
  PostProcessor.mk name
    (map (fun f => mkFilth (beg f) (end_ f) (document_name f) (Some fixed)
                           (kinds f) (detector_names f))).

(** ** Reading the range of a span only *)



(** A post-processor that reads the metadata: it drops the spans whose
    first kind is the one given. *)
Definition drops_kind (name kind : string) : PostProcessor.t :=
  PostProcessor.mk name
    (filter (fun f => match kinds f with
                      | first :: _ => negb (String.eqb first kind)
                      | [] => true
                      end)).

(** ** Batches of documents *)

(** A keyword of [kwargs] names a parameter that the call of
    [_replace_text] in [clean_documents] gives. *)
Definition collides (kw : kwargs) : bool :=
  kw_text kw || kw_filth_list kw ||
  match kw_document_name kw with
  | Some _ => true
  | None => false
  end.

(** The filths with which [clean_documents] rebuilds the documents of a
    batch, given with their names: what [iter_filth] finds in each
    document under its name, one document after the other, and all of it
    post-processed together. *)
Definition batch_filths (self : Scrubber) (named_texts : list (string * string))
  : result (list Filth) :=
  Exn.bind
    (Exn.for_each
       (fun item : string * string =>
          iter_filth self (snd item) (Some (fst item)) true None)
       named_texts)
    (fun per_document =>
       Ok (_post_process_filth_list self (List.concat per_document))).

(** Every filth that a detector of the scrubber yields belongs to the
    document in which the detector was asked to look. *)
Definition tags_documents (self : Scrubber) : Prop :=
  forall name detector text document_name0 f,
    In (name, detector) (_detectors self) ->
    In (YFilth f) (Detector.iter_filth detector text document_name0) ->
    document_name f = document_name0.

(** The post-processors treat every document on its own: what they make
    of the spans of a document does not depend on the other spans. *)
Definition document_local (self : Scrubber) : Prop :=
  forall filth_list b,
    filter (in_document (Some b)) (_post_process_filth_list self filth_list) =
    filter (in_document (Some b))
           (_post_process_filth_list self
              (filter (in_document (Some b)) filth_list)).

(** * Properties *)

(** ** Calls with and without keyword arguments *)

Lemma bind_ok {A B : Type} (a : A) (k : A -> result B) :
  Exn.bind (Ok a) k = k a.
Proof. reflexivity. Qed.

Section Keywords.
Variable replace_with : Filth -> string.

Lemma call_replace_text_named (text : string) (filth_list : list Filth)
    (name : string) (kw : kwargs) :
  call_replace_text replace_with text filth_list (Some (Some name)) kw =
  if collides kw
  then Raise (TypeError MultipleValues)
  else Ok (_replace_text replace_with text filth_list (Some name)).
Proof.
  unfold call_replace_text, collides.
  destruct (kw_text kw), (kw_filth_list kw), (kw_document_name kw);
    reflexivity.
Qed.

Lemma rebuild_dict (filth_list : list Filth) (items : list (string * string))
    (kw : kwargs) :
  Exn.for_each
    (fun item : string * string =>
       let (name, text) := item in
       Exn.bind
         (call_replace_text replace_with text filth_list (Some (Some name)) kw)
         (fun clean_text => Ok (name, clean_text)))
    items =
  match items, collides kw with
  | _ :: _, true => Raise (TypeError MultipleValues)
  | _, _ =>
      Ok (map (fun item : string * string =>
                 (fst item,
                  _replace_text replace_with (snd item) filth_list
                                (Some (fst item))))
              items)
  end.
Proof.
  destruct (collides kw) eqn:C.
  - destruct items as [|[name text] r]; [reflexivity|].
    simpl. now rewrite call_replace_text_named, C.
  - assert (E : Exn.for_each
                  (fun item : string * string =>
                     let (name, text) := item in
                     Exn.bind
                       (call_replace_text replace_with text filth_list
                                          (Some (Some name)) kw)
                       (fun clean_text => Ok (name, clean_text)))
                  items =
                Ok (map (fun item : string * string =>
                           (fst item,
                            _replace_text replace_with (snd item) filth_list
                                          (Some (fst item))))
                        items)).
    { induction items as [|[name text] r IH]; [reflexivity|].
      simpl. rewrite call_replace_text_named, C. simpl.
      now rewrite IH. }
    rewrite E. now destruct items.
Qed.

Lemma rebuild_list (filth_list : list Filth) (items : list (nat * string))
    (kw : kwargs) :
  Exn.for_each
    (fun item : nat * string =>
       let (name, text) := item in
       call_replace_text replace_with text filth_list
                         (Some (Some (Py.str_nat name))) kw)
    items =
  match items, collides kw with
  | _ :: _, true => Raise (TypeError MultipleValues)
  | _, _ =>
      Ok (map (fun item : nat * string =>
                 let (name, text) := item in
                 _replace_text replace_with text filth_list
                               (Some (Py.str_nat name)))
              items)
  end.
Proof.
  destruct (collides kw) eqn:C.
  - destruct items as [|[name text] r]; [reflexivity|].
    simpl. now rewrite call_replace_text_named, C.
  - assert (E : Exn.for_each
                  (fun item : nat * string =>
                     let (name, text) := item in
                     call_replace_text replace_with text filth_list
                                       (Some (Some (Py.str_nat name))) kw)
                  items =
                Ok (map (fun item : nat * string =>
                           let (name, text) := item in
                           _replace_text replace_with text filth_list
                                         (Some (Py.str_nat name)))
                        items)).
    { induction items as [|[name text] r IH]; [reflexivity|].
      simpl. rewrite call_replace_text_named, C. simpl.
      now rewrite IH. }
    rewrite E. now destruct items.
Qed.

(** A call of [clean] with no keyword that names a parameter of
    [_replace_text]. *)
Lemma clean_no_kwargs (self : Scrubber) (text : string) :
  clean replace_with self text no_kwargs =
  Exn.bind (iter_filth self text None true None) (fun filth_list =>
  let filth_list := _post_process_filth_list self filth_list in
  Ok (_replace_text replace_with text filth_list None)).
Proof. reflexivity. Qed.

(** The same of [clean_documents]. *)
Lemma clean_documents_no_kwargs (self : Scrubber) (docs : documents) :
  clean_documents replace_with self docs no_kwargs =
  match docs with
  | DocList texts =>
      Exn.bind
        (Exn.for_each
           (fun item : nat * string =>
              let (name, document) := item in
              iter_filth self document (Some (Py.str_nat name)) true None)
           (Py.enumerate texts))
        (fun per_document =>
           let filth_list :=
             _post_process_filth_list self (List.concat per_document) in
           Ok (DocList
                 (map (fun item : nat * string =>
                         let (name, text) := item in
                         _replace_text replace_with text filth_list
                                       (Some (Py.str_nat name)))
                      (Py.enumerate texts))))
  | DocDict items =>
      Exn.bind
        (Exn.for_each
           (fun item : string * string =>
              let (name, document) := item in
              iter_filth self document (Some name) true None)
           items)
        (fun per_document =>
           let filth_list :=
             _post_process_filth_list self (List.concat per_document) in
           Ok (DocDict
                 (map (fun item : string * string =>
                         let (name, text) := item in
                         (name,
                          _replace_text replace_with text filth_list
                                        (Some name)))
                      items)))
  | DocOther => Raise (TypeError BadDocuments)
  end.
Proof.
  destruct docs as [texts|items|]; [| |reflexivity]; unfold clean_documents.
  - destruct (Exn.for_each _ (Py.enumerate texts)) as [per_document|e];
      [|reflexivity].
    unfold Exn.bind at 1. cbv beta iota zeta. rewrite rebuild_list.
    now destruct (Py.enumerate texts).
  - destruct (Exn.for_each _ items) as [per_document|e]; [|reflexivity].
    unfold Exn.bind at 1. cbv beta iota zeta. rewrite rebuild_dict.
    change (collides no_kwargs) with false.
    assert (E : forall filth_list,
               map (fun item : string * string =>
                      (fst item,
                       _replace_text replace_with (snd item) filth_list
                                     (Some (fst item))))
                   items =
               map (fun item : string * string =>
                      let (name, text) := item in
                      (name,
                       _replace_text replace_with text filth_list
                                     (Some name)))
                   items).
    { intros filth_list. apply map_ext. now intros [name text]. }
    rewrite E. now destruct items.
Qed.

End Keywords.

(** ** The stable sort *)

Section SortFacts.
Context {A K : Type} (key : A -> K) (leb : K -> K -> bool).

Hypothesis leb_total : forall k1 k2, leb k1 k2 = true \/ leb k2 k1 = true.

Lemma insert_perm (x : A) (l : list A) :
  Permutation (Py.insert key leb x l) (x :: l).
Proof.
  induction l as [|y r IH]; simpl.
  - apply Permutation_refl.
  - destruct (leb (key x) (key y)).
    + apply Permutation_refl.
    + apply perm_trans with (y :: x :: r).
      * now apply perm_skip.
      * apply perm_swap.
Qed.

Lemma sort_perm (l : list A) : Permutation (Py.sort key leb l) l.
Proof.
  induction l as [|x r IH]; simpl.
  - apply perm_nil.
  - apply perm_trans with (x :: Py.sort key leb r).
    + apply insert_perm.
    + now apply perm_skip.
Qed.

Lemma insert_hd (R : A -> A -> Prop) (a x : A) (l : list A) :
  R a x -> HdRel R a l -> HdRel R a (Py.insert key leb x l).
Proof.
  intros Hax Hal. destruct l as [|y r]; simpl.
  - now constructor.
  - destruct (leb (key x) (key y)); constructor; auto.
    now inversion Hal.
Qed.

Lemma insert_sorted (x : A) (l : list A) :
  Sorted (key_le key leb) l -> Sorted (key_le key leb) (Py.insert key leb x l).
Proof.
  induction 1 as [|y r Hr IH Hy]; simpl.
  - repeat constructor.
  - destruct (leb (key x) (key y)) eqn:E.
    + constructor; [now constructor | now constructor].
    + constructor; [exact IH|].
      apply insert_hd; [|exact Hy].
      unfold key_le. destruct (leb_total (key x) (key y)); congruence.
Qed.

Lemma sort_sorted (l : list A) : Sorted (key_le key leb) (Py.sort key leb l).
Proof.
  induction l as [|x r IH]; simpl.
  - constructor.
  - now apply insert_sorted.
Qed.

(** A sorted list is left as it is. *)
Lemma sort_id (l : list A) : Sorted (key_le key leb) l -> Py.sort key leb l = l.
Proof.
  induction 1 as [|x r Hr IH Hx]; simpl; [reflexivity|].
  rewrite IH. destruct Hx as [|y r' Hxy]; simpl; [reflexivity|].
  unfold key_le in Hxy. now rewrite Hxy.
Qed.

Lemma sort_idempotent (l : list A) :
  Py.sort key leb (Py.sort key leb l) = Py.sort key leb l.
Proof. apply sort_id, sort_sorted. Qed.

Lemma sort_length (l : list A) :
  List.length (Py.sort key leb l) = List.length l.
Proof. apply Permutation_length, sort_perm. Qed.

Lemma sort_In (x : A) (l : list A) : In x (Py.sort key leb l) <-> In x l.
Proof.
  split; apply Permutation_in; [|apply Permutation_sym]; apply sort_perm.
Qed.



Hypothesis leb_trans :
  forall k1 k2 k3, leb k1 k2 = true -> leb k2 k3 = true -> leb k1 k3 = true.
Hypothesis leb_antisym :
  forall k1 k2, leb k1 k2 = true -> leb k2 k1 = true -> k1 = k2.






End SortFacts.

(** ** The order of [str] and of the sort keys *)

Lemma str_compare_refl (s : string) : String.compare s s = Eq.
Proof. now apply String_as_OT.cmp_eq. Qed.

Lemma str_lt_trans (s t u : string) : str_lt s t -> str_lt t u -> str_lt s u.
Proof.
  unfold str_lt. intros H1 H2.
  apply String_as_OT.cmp_lt in H1, H2. apply String_as_OT.cmp_lt.
  exact (String_as_OT.lt_trans _ _ _ H1 H2).
Qed.

Lemma str_lt_irrefl (s : string) : ~ str_lt s s.
Proof. unfold str_lt. now rewrite str_compare_refl. Qed.

Lemma str_compare_Gt (s t : string) :
  String.compare s t = Gt <-> str_lt t s.
Proof.
  unfold str_lt. rewrite (String.compare_antisym t s).
  destruct (String.compare s t); simpl; split; congruence.
Qed.

Lemma str_leb_spec (s t : string) :
  String.leb s t = true <-> str_lt s t \/ s = t.
Proof.
  unfold String.leb, str_lt.
  destruct (String.compare s t) eqn:E; split; intros H; auto; try discriminate.
  - right. now apply String.compare_eq_iff.
  - destruct H as [H|H]; [discriminate|]. subst.
    now rewrite str_compare_refl in E.
Qed.

Lemma str_leb_total (s t : string) :
  String.leb s t = true \/ String.leb t s = true.
Proof. apply String.leb_total. Qed.

Lemma str_leb_trans (s t u : string) :
  String.leb s t = true -> String.leb t u = true -> String.leb s u = true.
Proof.
  rewrite !str_leb_spec. intros [H1| ->] [H2| ->]; auto.
  left. eapply str_lt_trans; eauto.
Qed.

Lemma key_leb_spec (d1 d2 : string) (b1 b2 e1 e2 : Z) :
  key_leb (d1, b1, e1) (d2, b2, e2) = true <->
  str_lt d1 d2 \/ (d1 = d2 /\ (b1 < b2 \/ (b1 = b2 /\ e1 <= e2))).
Proof.
  unfold key_leb, key_compare, str_lt.
  destruct (String.compare d1 d2) eqn:Ed.
  - apply String.compare_eq_iff in Ed. subst.
    destruct (Z.compare_spec b1 b2) as [Eb|Eb|Eb].
    + destruct (Z.compare_spec e1 e2); split; intros G;
        try discriminate; try (right; split; [reflexivity|right]; lia);
        try reflexivity.
      destruct G as [G|[_ G]]; [discriminate|lia].
    + split; [intros _|reflexivity]. right. split; [reflexivity|now left].
    + split; [discriminate|]. intros [G|[_ G]]; [discriminate|lia].
  - split; [intros _; now left|reflexivity].
  - split; [discriminate|].
    intros [H| [-> _]]; [discriminate|].
    now rewrite str_compare_refl in Ed.
Qed.

Lemma key_leb_total (k1 k2 : string * Z * Z) :
  key_leb k1 k2 = true \/ key_leb k2 k1 = true.
Proof.
  destruct k1 as [[d1 b1] e1], k2 as [[d2 b2] e2].
  rewrite !key_leb_spec.
  destruct (String.compare d1 d2) eqn:Ed.
  - apply String.compare_eq_iff in Ed. subst.
    destruct (Z.lt_trichotomy b1 b2) as [H|[H|H]].
    + left. right. split; [reflexivity|now left].
    + destruct (Z.le_ge_cases e1 e2).
      * left. right. split; [reflexivity|right]. lia.
      * right. right. split; [reflexivity|right]. lia.
    + right. right. split; [reflexivity|now left].
  - left. now left.
  - right. left. now apply str_compare_Gt.
Qed.



Lemma key_le_filth_spec (f g : Filth) :
  key_le_filth f g <->
  str_lt (Py.str_opt (document_name f)) (Py.str_opt (document_name g)) \/
  (Py.str_opt (document_name f) = Py.str_opt (document_name g) /\
   (beg f < beg g \/ (beg f = beg g /\ end_ g <= end_ f))).
Proof.
  unfold key_le_filth, key_le, sort_key. rewrite key_leb_spec.
  split; (intros [H|[H1 H2]]; [now left|right; split; [exact H1|lia]]).
Qed.

(** ** [_sort_filths] *)

Lemma _sort_filths_perm (l : list Filth) : Permutation (_sort_filths l) l.
Proof. apply sort_perm. Qed.

Lemma _sort_filths_In (f : Filth) (l : list Filth) :
  In f (_sort_filths l) <-> In f l.
Proof. apply sort_In. Qed.


Lemma _sort_filths_id (l : list Filth) :
  Sorted key_le_filth l -> _sort_filths l = l.
Proof. apply sort_id. Qed.


(** ** The documents of a list of filths *)

Lemma named_In (s : string) (names : list (option string)) :
  In s (named names) <-> In (Some s) names.
Proof.
  unfold named. rewrite in_flat_map. split.
  - intros [[t|] [Hx Hs]]; simpl in Hs; [|contradiction].
    destruct Hs as [->|[]]. exact Hx.
  - intros H. exists (Some s). split; [exact H|now left].
Qed.

Lemma named_NoDup (names : list (option string)) :
  NoDup names -> NoDup (named names).
Proof.
  induction 1 as [|x r Hx Hr IH]; simpl; [constructor|].
  destruct x as [s|]; simpl; [|exact IH].
  constructor; [|exact IH]. now rewrite named_In.
Qed.

Lemma set_of_In (d : option string) (l : list (option string)) :
  In d (Py.set_of l) <-> In d l.
Proof. apply nodup_In. Qed.



Lemma sorted_str_In (s : string) (l : list string) :
  In s (Py.sorted_str l) <-> In s l.
Proof. apply sort_In. Qed.

Lemma sorted_str_ascending (l : list string) :
  NoDup l -> StronglySorted str_lt (Py.sorted_str l).
Proof.
  intros N.
  assert (N' : NoDup (Py.sorted_str l)).
  { apply (Permutation_NoDup (l := l)); [|exact N].
    apply Permutation_sym, sort_perm. }
  assert (S : StronglySorted (fun s t => String.leb s t = true)
                             (Py.sorted_str l)).
  { apply Sorted_StronglySorted.
    - intros s t u. apply str_leb_trans.
    - apply (sort_sorted (fun s : string => s) String.leb), str_leb_total. }
  revert N'. induction S as [|x r Sr IH F]; intros N'; constructor.
  - apply IH. now inversion N'.
  - inversion N' as [|? ? Hx _]; subst.
    rewrite Forall_forall in *. intros y Hy.
    destruct (proj1 (str_leb_spec x y) (F y Hy)) as [H| ->];
      [exact H|contradiction].
Qed.

(** The documents are those of the filths, each once, [None] first and
    the names in ascending order. *)
Lemma document_names_In (d : option string) (l : list Filth) :
  In d (document_names l) <-> exists f, In f l /\ document_name f = d.
Proof.
  assert (E : In d (Py.set_of (map document_name l)) <->
              exists f, In f l /\ document_name f = d).
  { rewrite set_of_In, in_map_iff. split; intros [f [H1 H2]]; eauto. }
  rewrite <- E. unfold document_names.
  destruct (in_dec _ _ _) as [HN|HN]; simpl; rewrite ?in_map_iff.
  - split.
    + intros [<-|[s [<- Hs]]]; [exact HN|].
      now apply named_In, sorted_str_In.
    + destruct d as [s|]; [|now left].
      intros H. right. exists s. split; [reflexivity|].
      now apply sorted_str_In, named_In.
  - split.
    + intros [s [<- Hs]]. now apply named_In, sorted_str_In.
    + destruct d as [s|]; [|contradiction].
      intros H. exists s. split; [reflexivity|].
      now apply sorted_str_In, named_In.
Qed.

Lemma names_sorted (names : list string) :
  StronglySorted str_lt names -> StronglySorted doc_lt (map Some names).
Proof.
  induction 1 as [|x r Sr IH F]; simpl; constructor; auto.
  rewrite Forall_forall in *. intros y Hy.
  apply in_map_iff in Hy. destruct Hy as [t [<- Ht]]. simpl. auto.
Qed.

Lemma document_names_sorted (l : list Filth) :
  StronglySorted doc_lt (document_names l).
Proof.
  assert (S : StronglySorted doc_lt
                (map Some (Py.sorted_str
                             (named (Py.set_of (map document_name l)))))).
  { apply names_sorted, sorted_str_ascending, named_NoDup, NoDup_nodup. }
  unfold document_names. destruct (in_dec _ _ _); [|exact S].
  simpl. constructor; [exact S|].
  rewrite Forall_forall. intros y Hy.
  apply in_map_iff in Hy. now destruct Hy as [t [<- _]].
Qed.


(** ** [_merge_filths] *)

Lemma opt_eqb_eq (x y : option string) : Py.opt_eqb x y = true <-> x = y.
Proof.
  destruct x as [s|], y as [t|]; simpl; try (split; congruence).
  rewrite String.eqb_eq. split; congruence.
Qed.

Lemma in_document_iff (d : option string) (f : Filth) :
  in_document d f = true <-> document_name f = d.
Proof. apply opt_eqb_eq. Qed.

Lemma filter_in_document (d : option string) (l : list Filth) :
  Forall (fun f => document_name f = d) l ->
  filter (in_document d) l = l.
Proof.
  induction 1 as [|f r Hf Hr IH]; simpl; [reflexivity|].
  rewrite (proj2 (in_document_iff d f) Hf). now rewrite IH.
Qed.

Lemma filter_in_document_all (d : option string) (l : list Filth) :
  Forall (fun f => document_name f = d) (filter (in_document d) l).
Proof.
  rewrite Forall_forall. intros f Hf. apply filter_In in Hf.
  now apply in_document_iff.
Qed.

Lemma merge_loop_document (d : option string) (filth : Filth)
    (rest : list Filth) :
  Forall (fun f => document_name f = d) (filth :: rest) ->
  Forall (fun f => document_name f = d) (merge_loop filth rest).
Proof.
  revert filth. induction rest as [|next rest IH]; intros filth H; simpl.
  - exact H.
  - inversion H as [|? ? Hf Hr]; subst. inversion Hr as [|? ? Hn Hr']; subst.
    destruct (end_ filth <? beg next).
    + constructor; [reflexivity|]. now apply IH.
    + apply IH. constructor; [reflexivity|exact Hr'].
Qed.

Lemma _merge_filths_eq (l : list Filth) :
  _merge_filths l = flat_map (merge_document l) (document_names l).
Proof. destruct l; reflexivity. Qed.

(** A list of filths of one document has that one document. *)
Lemma set_of_constant (d : option string) (l : list (option string)) :
  Forall (eq d) l -> l <> [] -> Py.set_of l = [d].
Proof.
  induction 1 as [|x r Hx Hr IH]; intros Hne; [contradiction|].
  subst x. unfold Py.set_of in *. simpl.
  destruct r as [|y r'].
  - reflexivity.
  - destruct (in_dec Py.opt_eq_dec d (y :: r')) as [_|Hn].
    + apply IH. discriminate.
    + exfalso. apply Hn. inversion Hr; subst. now left.
Qed.

Lemma document_names_one (d : option string) (l : list Filth) :
  Forall (fun f => document_name f = d) l -> l <> [] ->
  document_names l = [d].
Proof.
  intros Hd Hne. unfold document_names.
  rewrite (set_of_constant d).
  - destruct d as [s|]; simpl.
    + destruct (Py.opt_eq_dec (Some s) None); [discriminate|reflexivity].
    + destruct (Py.opt_eq_dec None None); [reflexivity|contradiction].
  - rewrite Forall_map. eapply Forall_impl; [|exact Hd]. auto.
  - destruct l; [contradiction|discriminate].
Qed.

Lemma _merge_filths_one (d : option string) (l : list Filth) :
  Forall (fun f => document_name f = d) l ->
  _merge_filths l =
  match _sort_filths l with
  | [] => []
  | filth :: rest => merge_loop filth rest
  end.
Proof.
  intros Hd. destruct l as [|f r]; [reflexivity|].
  rewrite _merge_filths_eq, (document_names_one d) by (auto; discriminate).
  simpl flat_map. rewrite app_nil_r. unfold merge_document.
  now rewrite filter_in_document.
Qed.

Lemma key_le_same_document (f g : Filth) :
  document_name f = document_name g ->
  key_le_filth f g <-> begin_then_longest f g.
Proof.
  intros E. rewrite key_le_filth_spec, E. unfold begin_then_longest.
  split; [|intros H; right; now split].
  intros [H|[_ H]]; [|exact H]. now apply str_lt_irrefl in H.
Qed.

Lemma merge_loop_spec (emitted : list Filth) (filth : Filth)
    (rest : list Filth) :
  (let (emitted', current) :=
     fold_left spec_merge_step rest (emitted, filth) in
   emitted' ++ [current])%list
  = (emitted ++ merge_loop filth rest)%list.
Proof.
  revert emitted filth. induction rest as [|next rest IH]; intros; simpl.
  - reflexivity.
  - rewrite Z.geb_leb.
    destruct (Z.ltb_spec (end_ filth) (beg next)) as [H|H],
             (Z.leb_spec (beg next) (end_ filth)) as [G|G]; try lia.
    + rewrite IH, <- app_assoc. reflexivity.
    + apply IH.
Qed.

Lemma merge_document_spec (l : list Filth) (d : option string) :
  merge_document l d =
  spec_merge_rule (_sort_filths (filter (in_document d) l)).
Proof.
  unfold merge_document, spec_merge_rule.
  destruct (_sort_filths _) as [|f r]; [reflexivity|].
  now rewrite (merge_loop_spec [] f r).
Qed.

(** *** Two spans that overlap or touch *)

Lemma merge_pair_sorted (a b : Filth) :
  document_name a = document_name b ->
  _merge_filths [a; b] =
  if key_leb (sort_key a) (sort_key b)
  then merge_loop a [b]
  else merge_loop b [a].
Proof.
  intros E. rewrite (_merge_filths_one (document_name a)).
  - unfold _sort_filths. simpl. now destruct (key_leb _ _).
  - repeat constructor. now symmetry.
Qed.

(** C1 (as amended).  Two spans [a] and [b] of one document that overlap
    or touch, that is with [a.end >= b.begin] and [b.end >= a.begin], are
    merged into a single span from [min(a.begin, b.begin)] to
    [max(a.end, b.end)], whichever comes first in the list.  The merge of
    a document is the rule of the specification run over its sorted
    spans: a running current span, merged with the next one when
    [current.end >= next.begin] and emitted otherwise. *)
Theorem merge_overlapping_pair (a b : Filth)
    (Hdoc : document_name a = document_name b)
    (Hab : end_ a >= beg b) (Hba : end_ b >= beg a) :
  (exists m,
      _merge_filths [a; b] = [m] /\
      beg m = Z.min (beg a) (beg b) /\
      end_ m = Z.max (end_ a) (end_ b) /\
      document_name m = document_name a) /\
  (exists m,
      _merge_filths [b; a] = [m] /\
      beg m = Z.min (beg a) (beg b) /\
      end_ m = Z.max (end_ a) (end_ b) /\
      document_name m = document_name a) /\
  (forall l, _merge_filths l = flat_map (merge_document l) (document_names l)) /\
  (forall l d,
      merge_document l d =
      spec_merge_rule (_sort_filths (filter (in_document d) l))).
Proof.
  repeat split.
  - rewrite merge_pair_sorted by exact Hdoc. simpl.
    destruct (key_leb _ _).
    + destruct (Z.ltb_spec (end_ a) (beg b)); [lia|].
      exists (merge a b). simpl. repeat split.
    + destruct (Z.ltb_spec (end_ b) (beg a)); [lia|].
      exists (merge b a). simpl. repeat split; try lia. now symmetry.
  - rewrite merge_pair_sorted by (symmetry; exact Hdoc). simpl.
    destruct (key_leb _ _).
    + destruct (Z.ltb_spec (end_ b) (beg a)); [lia|].
      exists (merge b a). simpl. repeat split; try lia. now symmetry.
    + destruct (Z.ltb_spec (end_ a) (beg b)); [lia|].
      exists (merge a b). simpl. repeat split.
  - apply _merge_filths_eq.
  - apply merge_document_spec.
Qed.

(** Scenario 2: spans [0,10) and [5,15) merge into [0,15). *)
Lemma merge_overlapping_pair_witness :
  let a := mkFilth 0 10 None None ["NAME"] ["a"] in
  let b := mkFilth 5 15 None None ["EMAIL"] ["b"] in
  exists m, _merge_filths [a; b] = [m] /\ beg m = 0 /\ end_ m = 15.
Proof.
  intros a b.
  destruct (merge_overlapping_pair a b) as [[m [E [B [F _]]]] _].
  - reflexivity.
  - simpl; lia.
  - simpl; lia.
  - exists m. split; [exact E|]. split.
    + rewrite B. reflexivity.
    + rewrite F. reflexivity.
Defined.

(** With [a.end >= b.begin] alone the two spans need not meet: [a] may
    lie wholly after [b], and both are kept. *)
Lemma merge_pair_counterexample :
  let a := mkFilth 10 20 None None [] [] in
  let b := mkFilth 0 5 None None [] [] in
  document_name a = document_name b /\
  end_ a >= beg b /\
  _merge_filths [a; b] = [b; a].
Proof. simpl. repeat split. lia. Qed.

(** *** Spans that neither overlap nor touch *)

Lemma merge_loop_gaps (filth : Filth) (rest : list Filth) :
  Sorted gap (filth :: rest) -> merge_loop filth rest = filth :: rest.
Proof.
  revert filth. induction rest as [|next rest IH]; intros filth S; simpl.
  - reflexivity.
  - inversion S as [|? ? S' Hd]; subst. inversion Hd as [|? ? G]; subst.
    unfold gap in G. destruct (Z.ltb_spec (end_ filth) (beg next)); [|lia].
    now rewrite IH.
Qed.

Lemma gaps_sorted (d : option string) (l : list Filth) :
  Forall (fun f => document_name f = d) l ->
  Forall well_formed l ->
  Sorted gap l -> Sorted key_le_filth l.
Proof.
  intros Hd Hw S. induction S as [|f r Sr IH Hf]; constructor.
  - apply IH; now inversion Hd; inversion Hw.
  - destruct Hf as [|g r' G]; constructor.
    inversion Hd as [|? ? Df Dr]; subst. inversion Dr; subst.
    inversion Hw as [|? ? Wf _]; subst.
    apply key_le_same_document; [congruence|].
    left. unfold gap, well_formed in *. lia.
Qed.

Lemma insert_gaps (d : option string) (x : Filth) (l : list Filth) :
  document_name x = d -> well_formed x ->
  Forall (fun f => document_name f = d) l ->
  Forall well_formed l ->
  Forall (separated x) l ->
  Sorted gap l ->
  Sorted gap (Py.insert sort_key key_leb x l).
Proof.
  intros Dx Wx Hd Hw Hs S.
  induction S as [|y r Sr IH Hy]; simpl.
  - repeat constructor.
  - inversion Hd as [|? ? Dy Dr]; inversion Hw as [|? ? Wy Wr];
      inversion Hs as [|? ? Sxy Sxr]; subst.
    assert (E : document_name x = document_name y) by congruence.
    unfold well_formed, separated, gap in Wx, Wy, Sxy.
    destruct (key_leb (sort_key x) (sort_key y)) eqn:K.
    + constructor; [now constructor|]. constructor.
      apply (key_le_same_document x y E) in K.
      unfold begin_then_longest in K. unfold gap. lia.
    + constructor; [now apply IH|].
      apply insert_hd; [|exact Hy].
      destruct (key_leb_total (sort_key x) (sort_key y)) as [K'|K'];
        [congruence|].
      apply (key_le_same_document y x (eq_sym E)) in K'.
      unfold begin_then_longest in K'. unfold gap. lia.
Qed.

Lemma sort_gaps (d : option string) (l : list Filth) :
  Forall (fun f => document_name f = d) l ->
  Forall well_formed l ->
  ForallOrdPairs separated l ->
  Sorted gap (_sort_filths l).
Proof.
  intros Hd Hw Hs. induction Hs as [|x r Hx Hr IH]; simpl.
  - constructor.
  - inversion Hd; inversion Hw; subst.
    assert (P : Permutation r (_sort_filths r))
      by apply Permutation_sym, _sort_filths_perm.
    apply (insert_gaps (document_name x)); auto.
    + now apply (Permutation_Forall P).
    + now apply (Permutation_Forall P).
    + now apply (Permutation_Forall P).
Qed.

Lemma merge_well_formed (a b : Filth) :
  well_formed a -> well_formed (merge a b).
Proof. unfold well_formed, merge. simpl. lia. Qed.

(** What the loop yields from spans in ascending order of begin: spans
    with a gap between neighbours, the first of which begins where the
    first span began. *)
Lemma merge_loop_yields (filth : Filth) (rest : list Filth) :
  Sorted begins_before (filth :: rest) ->
  Forall well_formed (filth :: rest) ->
  exists first others,
    merge_loop filth rest = first :: others /\
    beg first = beg filth /\
    Sorted gap (first :: others) /\
    Forall well_formed (first :: others).
Proof.
  revert filth. induction rest as [|next rest IH]; intros filth S W; simpl.
  - exists filth, []. repeat split; [repeat constructor|exact W].
  - inversion S as [|? ? S' Hd]; subst. inversion Hd as [|? ? Hfn]; subst.
    inversion W as [|? ? Wf W']; subst. unfold begins_before in Hfn.
    destruct (Z.ltb_spec (end_ filth) (beg next)) as [G|G].
    + destruct (IH next S' W') as [first [others [E [B [So Wo]]]]].
      exists filth, (first :: others). rewrite E. repeat split.
      * constructor; [exact So|]. constructor. unfold gap. lia.
      * now constructor.
    + destruct (IH (merge filth next)) as [first [others [E [B [So Wo]]]]].
      * inversion S' as [|? ? S'' Hd']; subst. constructor; [exact S''|].
        destruct Hd' as [|g r Hng]; constructor.
        unfold begins_before in *. simpl. lia.
      * inversion W' as [|? ? Wn W'']; subst.
        constructor; [now apply merge_well_formed|exact W''].
      * exists first, others. repeat split; auto.
        rewrite B. simpl. lia.
Qed.

Lemma sorted_begins (d : option string) (l : list Filth) :
  Forall (fun f => document_name f = d) l ->
  Sorted begins_before (_sort_filths l).
Proof.
  intros Hd.
  assert (Hd' : Forall (fun f => document_name f = d) (_sort_filths l))
    by exact (Permutation_Forall (Permutation_sym (_sort_filths_perm l)) Hd).
  generalize (sort_sorted sort_key key_leb key_leb_total l).
  fold (_sort_filths l). fold key_le_filth.
  induction 1 as [|f r Sr IH Hf]; constructor.
  - apply IH. now inversion Hd'.
  - inversion Hd' as [|? ? Df Dr]; subst.
    destruct Hf as [|g r' G]; constructor.
    inversion Dr; subst.
    apply key_le_same_document in G; [|congruence].
    unfold begin_then_longest in G. unfold begins_before. lia.
Qed.

(** The merge of the well-formed spans of one document: spans of that
    document, well-formed, in ascending order with gaps. *)
Lemma _merge_filths_yields (d : option string) (l : list Filth) :
  Forall (fun f => document_name f = d) l ->
  Forall well_formed l ->
  Forall (fun f => document_name f = d) (_merge_filths l) /\
  Forall well_formed (_merge_filths l) /\
  Sorted gap (_merge_filths l).
Proof.
  intros Hd Hw. rewrite (_merge_filths_one d l Hd).
  assert (P := Permutation_sym (_sort_filths_perm l)).
  assert (Hd' := Permutation_Forall P Hd).
  assert (Hw' := Permutation_Forall P Hw).
  assert (S := sorted_begins d l Hd).
  destruct (_sort_filths l) as [|f r]; [repeat split; constructor|].
  split; [now apply merge_loop_document|].
  destruct (merge_loop_yields f r S Hw') as [first [others [E [_ [So Wo]]]]].
  rewrite E. now split.
Qed.

(** C6 (as amended).  On well-formed spans of one document of which no
    two overlap or touch (between any two there is a gap), the merge is
    the sort: every span is kept, the output has the length of the input
    and is in ascending order with a gap between neighbours.  A list
    already in that order is returned unchanged, and so is the output of
    a merge when it is merged again.  The empty list gives the empty
    list. *)
Theorem merge_separated (d : option string) (l : list Filth)
    (Hdoc : Forall (fun f => document_name f = d) l)
    (Hwf : Forall well_formed l) :
  (ForallOrdPairs separated l ->
     _merge_filths l = _sort_filths l /\
     List.length (_merge_filths l) = List.length l /\
     Permutation (_merge_filths l) l /\
     Sorted gap (_merge_filths l)) /\
  (Sorted gap l -> _merge_filths l = l) /\
  _merge_filths (_merge_filths l) = _merge_filths l /\
  _merge_filths [] = [].
Proof.
  assert (G : forall l', Forall (fun f => document_name f = d) l' ->
                         Sorted gap (_sort_filths l') ->
                         _merge_filths l' = _sort_filths l').
  { intros l' Hd S. rewrite (_merge_filths_one d) by exact Hd.
    destruct (_sort_filths l') as [|f r]; [reflexivity|].
    now apply merge_loop_gaps. }
  assert (I : forall l', Forall (fun f => document_name f = d) l' ->
                         Forall well_formed l' ->
                         Sorted gap l' -> _merge_filths l' = l').
  { intros l' Hd Hw S.
    assert (E : _sort_filths l' = l')
      by now apply _sort_filths_id, (gaps_sorted d).
    rewrite G; rewrite ?E; auto. }
  split; [|split; [|split]].
  - intros Hs.
    assert (S : Sorted gap (_sort_filths l)) by now apply (sort_gaps d).
    rewrite (G l Hdoc S). repeat split.
    + apply sort_length.
    + apply _sort_filths_perm.
    + exact S.
  - now apply I.
  - destruct (_merge_filths_yields d l Hdoc Hwf) as [Hd [Hw S]].
    now apply I.
  - reflexivity.
Qed.

Lemma merge_separated_witness :
  let name := mkFilth 8 16 None None ["NAME"] ["name"] in
  let email := mkFilth 20 36 None None ["EMAIL"] ["email"] in
  List.length (_merge_filths [email; name]) = 2%nat /\
  _merge_filths [name; email] = [name; email].
Proof.
  intros name email. split.
  - destruct (merge_separated None [email; name]) as [H _].
    + repeat constructor.
    + repeat constructor; unfold well_formed; simpl; lia.
    + destruct H as [_ [H _]]; [|exact H].
      apply FOP_cons; [|apply FOP_cons; [constructor|apply FOP_nil]].
      constructor; [|constructor]. right. unfold gap. simpl. lia.
  - destruct (merge_separated None [name; email]) as [_ [H _]].
    + repeat constructor.
    + repeat constructor; unfold well_formed; simpl; lia.
    + apply H. repeat constructor.
Defined.

(** Two disjoint spans that touch are merged: [0,2) and [2,4) share no
    offset, and the merge returns one span for the two. *)
Lemma merge_touching_counterexample :
  let a := mkFilth 0 2 None None [] [] in
  let b := mkFilth 2 4 None None [] [] in
  well_formed a /\ well_formed b /\
  document_name a = document_name b /\
  end_ a <= beg b /\
  List.length [a; b] = 2%nat /\
  List.length (_merge_filths [a; b]) = 1%nat.
Proof. unfold well_formed. simpl. repeat split; lia. Qed.

(** *** The order of the sort and of the merge *)








(** ** Reconstruction: [_replace_text] *)

Section Reconstruction.
Variable replace_with : Filth -> string.

Lemma append_nil_r (s : string) : s ++ "" = s.
Proof. induction s as [|c s IH]; simpl; [reflexivity|now rewrite IH]. Qed.

Lemma append_assoc (s t u : string) : (s ++ t) ++ u = s ++ t ++ u.
Proof. induction s as [|c s IH]; simpl; [reflexivity|now rewrite IH]. Qed.

Lemma join_cons (chunk : string) (chunks : list string) :
  Py.join (chunk :: chunks) = chunk ++ Py.join chunks.
Proof.
  unfold Py.join. destruct chunks; simpl; [now rewrite append_nil_r|].
  reflexivity.
Qed.

Lemma join_app (chunks1 chunks2 : list string) :
  Py.join (chunks1 ++ chunks2) = Py.join chunks1 ++ Py.join chunks2.
Proof.
  induction chunks1 as [|c r IH]; [reflexivity|].
  rewrite <- app_comm_cons, !join_cons, IH. now rewrite append_assoc.
Qed.

(** The loop of [_replace_text] from any state. *)
Lemma replace_loop (text : string) (filth_list : list Filth)
    (clean_chunks : list string) (filth : Filth) :
  (let (clean_chunks', filth') :=
     fold_left (replace_step replace_with text) filth_list
               (clean_chunks, filth) in
   Py.join (clean_chunks' ++ [Py.slice_from text (end_ filth')]))
  = Py.join clean_chunks
    ++ spec_rebuild_from replace_with text (end_ filth) filth_list.
Proof.
  revert clean_chunks filth.
  induction filth_list as [|next_filth rest IH]; intros; simpl.
  - rewrite join_app, join_cons. simpl. now rewrite append_nil_r.
  - rewrite IH, !join_app, !join_cons. simpl.
    rewrite !append_nil_r, !append_assoc. reflexivity.
Qed.

(** Whatever the list, the text is rebuilt from its spans of the document
    asked for, sorted. *)
Lemma _replace_text_spec (text : string) (filth_list : list Filth)
    (document_name0 : option string) :
  _replace_text replace_with text filth_list document_name0 =
  spec_rebuild replace_with text
    (_sort_filths
       match document_name0 with
       | Some _ => filter (in_document document_name0) filth_list
       | None => filth_list
       end).
Proof.
  unfold _replace_text, spec_rebuild.
  rewrite (replace_loop text _ [] Filth_default). reflexivity.
Qed.

(** C2 (as amended).  For every text and every list of spans of the
    document being rebuilt that is in the order of the sort, ascending by
    begin and, when two spans begin together, the longer first (so for
    every list with strictly ascending begins), [_replace_text] returns
    the passthrough [text[cursor:span.begin]] and the replacement of each
    span in turn, the fixed one when it is set and the computed one
    otherwise, the cursor moving to [span.end], and then [text[cursor:]]. *)
Theorem replace_text_walk (text : string) (spans : list Filth)
    (document document_name0 : option string)
    (Hdoc : Forall (fun f => document_name f = document) spans)
    (Harg : document_name0 = None \/ document_name0 = document)
    (Hsorted : Sorted begin_then_longest spans) :
  _replace_text replace_with text spans document_name0 =
  spec_rebuild replace_with text spans.
Proof.
  rewrite _replace_text_spec. f_equal.
  assert (S : Sorted key_le_filth spans).
  { clear Harg. induction Hsorted as [|f r Sr IH Hf]; constructor.
    - apply IH. now inversion Hdoc.
    - inversion Hdoc as [|? ? Df Dr]; subst.
      destruct Hf as [|g r' G]; constructor.
      apply key_le_same_document; [|exact G].
      inversion Dr; subst. congruence. }
  destruct document_name0 as [name|].
  - destruct Harg as [H|H]; [discriminate|]. subst document.
    rewrite filter_in_document by exact Hdoc. now apply _sort_filths_id.
  - now apply _sort_filths_id.
Qed.

End Reconstruction.

(** Scenario 1: a name at [8,16) and an address at [20,36). *)
Lemma replace_text_walk_witness :
  let name := mkFilth 8 16 None (Some "{{NAME}}") ["NAME"] ["name"] in
  let email := mkFilth 20 36 None (Some "{{EMAIL}}") ["EMAIL"] ["email"] in
  _replace_text (fun _ => "") "Contact John Doe or john@example.com"
                [name; email] None
  = "Contact {{NAME}} or {{EMAIL}}".
Proof.
  intros name email.
  rewrite (replace_text_walk (fun _ => "") _ [name; email] None None).
  - reflexivity.
  - repeat constructor.
  - now left.
  - repeat constructor.
Defined.

(** An empty span followed by a longer span at the same offset: the list
    is ascending by begin and its spans do not overlap, but the sort puts
    the longer span first, and a part of the text is copied after its
    replacement. *)
Lemma replace_text_counterexample :
  let empty := mkFilth 2 2 None (Some "A") [] [] in
  let longer := mkFilth 2 5 None (Some "B") [] [] in
  beg empty <= beg longer /\
  end_ empty <= beg longer /\
  _replace_text (fun _ => "") "abcdefg" [empty; longer] None = "abBAcdefg" /\
  spec_rebuild (fun _ => "") "abcdefg" [empty; longer] = "abABfg".
Proof. simpl. repeat split; lia. Qed.

(** ** Documents are kept apart *)

Lemma merge_document_document (l : list Filth) (d : option string) :
  Forall (fun f => document_name f = d) (merge_document l d).
Proof.
  unfold merge_document.
  assert (H : Forall (fun f => document_name f = d)
                     (_sort_filths (filter (in_document d) l))).
  { apply (Permutation_Forall
             (Permutation_sym (_sort_filths_perm _))).
    apply filter_in_document_all. }
  destruct (_sort_filths _) as [|f r]; [constructor|].
  now apply merge_loop_document.
Qed.

Lemma filter_other_document (d d' : option string) (l : list Filth) :
  d <> d' -> Forall (fun f => document_name f = d') l ->
  filter (in_document d) l = [].
Proof.
  intros Hne. induction 1 as [|f r Hf Hr IH]; simpl; [reflexivity|].
  destruct (in_document d f) eqn:E; [|exact IH].
  apply in_document_iff in E. congruence.
Qed.

Lemma merge_document_absent (l : list Filth) (d : option string) :
  ~ In d (document_names l) -> merge_document l d = [].
Proof.
  intros Hn. unfold merge_document.
  assert (E : filter (in_document d) l = []).
  { destruct (filter (in_document d) l) as [|f r] eqn:E; [reflexivity|].
    exfalso. apply Hn, document_names_In. exists f.
    assert (Hf : In f (filter (in_document d) l)) by (rewrite E; now left).
    apply filter_In in Hf. destruct Hf as [Hf1 Hf2].
    split; [exact Hf1|now apply in_document_iff]. }
  now rewrite E.
Qed.

Lemma doc_lt_irrefl (d : option string) : ~ doc_lt d d.
Proof. destruct d as [s|]; simpl; [apply str_lt_irrefl|auto]. Qed.

Lemma document_names_NoDup (l : list Filth) : NoDup (document_names l).
Proof.
  generalize (document_names_sorted l).
  induction 1 as [|d r Sr IH F]; constructor; [|exact IH].
  intros Hin. rewrite Forall_forall in F.
  exact (doc_lt_irrefl d (F d Hin)).
Qed.

Lemma filter_merged_documents (l : list Filth) (d : option string)
    (ds : list (option string)) :
  NoDup ds -> In d ds ->
  filter (in_document d) (flat_map (merge_document l) ds) =
  merge_document l d.
Proof.
  induction 1 as [|d' r Hd' Hr IH]; intros Hin; [contradiction|].
  simpl. rewrite filter_app. destruct Hin as [->|Hin].
  - rewrite filter_in_document by apply merge_document_document.
    assert (E : filter (in_document d) (flat_map (merge_document l) r) = []).
    { clear IH Hr. induction r as [|d' r IH]; [reflexivity|].
      simpl. rewrite filter_app, IH.
      - rewrite (filter_other_document d d'); [reflexivity| |].
        + intros ->. apply Hd'. now left.
        + apply merge_document_document.
      - intros H. apply Hd'. now right. }
    rewrite E. apply app_nil_r.
  - rewrite (filter_other_document d d').
    + now apply IH.
    + intros ->. contradiction.
    + apply merge_document_document.
Qed.

(** The merge works document by document. *)
Lemma _merge_filths_document (l : list Filth) (d : option string) :
  filter (in_document d) (_merge_filths l) =
  _merge_filths (filter (in_document d) l).
Proof.
  assert (E : _merge_filths (filter (in_document d) l) = merge_document l d).
  { rewrite (_merge_filths_one d) by apply filter_in_document_all.
    reflexivity. }
  rewrite E, _merge_filths_eq.
  destruct (in_dec Py.opt_eq_dec d (document_names l)) as [Hin|Hn].
  - apply filter_merged_documents; [apply document_names_NoDup|exact Hin].
  - rewrite (merge_document_absent l d Hn).
    induction (document_names l) as [|d' r IH]; [reflexivity|].
    simpl. rewrite filter_app, IH.
    + rewrite (filter_other_document d d'); [reflexivity| |].
      * intros ->. apply Hn. now left.
      * apply merge_document_document.
    + intros H. apply Hn. now right.
Qed.

Lemma for_each_ext {A B : Type} (body1 body2 : A -> result B) (l : list A) :
  (forall x, body1 x = body2 x) ->
  Exn.for_each body1 l = Exn.for_each body2 l.
Proof.
  intros E. induction l as [|x r IH]; simpl; [reflexivity|].
  now rewrite E, IH.
Qed.

Lemma for_each_map {A B C : Type} (g : A -> B) (body : B -> result C)
    (l : list A) :
  Exn.for_each body (map g l) = Exn.for_each (fun x => body (g x)) l.
Proof.
  induction l as [|x r IH]; simpl; [reflexivity|]. now rewrite IH.
Qed.

Lemma for_each_member {A B : Type} (body : A -> result B) (l : list A)
    (ys : list B) (y : B) :
  Exn.for_each body l = Ok ys -> In y ys ->
  exists x, In x l /\ body x = Ok y.
Proof.
  revert ys. induction l as [|x r IH]; intros ys; simpl.
  - intros E. injection E as <-. contradiction.
  - destruct (body x) as [z|e] eqn:Ex; simpl; [|discriminate].
    destruct (Exn.for_each body r) as [zs|e]; simpl; [|discriminate].
    intros E. injection E as <-. intros [<-|Hin].
    + exists x. split; [now left|exact Ex].
    + destruct (IH zs eq_refl Hin) as [x' [Hx' Ex']].
      exists x'. split; [now right|exact Ex'].
Qed.

(** The filths found in a document, by detectors that tag what they
    find, are filths of the document. *)
Lemma all_filths_tagged (self : Scrubber) (text : string)
    (d : option string) (found : list Filth) :
  tags_documents self ->
  all_filths self text d None = Ok found ->
  Forall (fun f => document_name f = d) found.
Proof.
  intros Htags. unfold all_filths.
  destruct (Exn.for_each _ (_detectors self)) as [per_detector|e] eqn:E;
    simpl; [|discriminate].
  intros F. injection F as <-. rewrite Forall_forall. intros f Hf.
  apply in_concat in Hf. destruct Hf as [fs [Hfs Hf]].
  destruct (for_each_member _ _ _ _ E Hfs) as [[name detector] [Hin Eb]].
  destruct (for_each_member _ _ _ _ Eb Hf) as [y [Hy Ey]].
  destruct y as [g| |e]; simpl in Ey; try discriminate.
  injection Ey as ->. exact (Htags name detector text d f Hin Hy).
Qed.

Section Isolation.
Variable replace_with : Filth -> string.

Lemma _replace_text_own_spans (text : string) (l : list Filth) (b : string) :
  _replace_text replace_with text l (Some b) =
  _replace_text replace_with text (filter (in_document (Some b)) l) (Some b).
Proof.
  rewrite !_replace_text_spec.
  now rewrite (filter_in_document (Some b) (filter _ l))
    by apply filter_in_document_all.
Qed.

(** [clean_documents] on a dictionary, whatever the keywords. *)
Lemma clean_documents_dict (self : Scrubber) (items : list (string * string))
    (kw : kwargs) :
  clean_documents replace_with self (DocDict items) kw =
  match batch_filths self items with
  | Raise e => Raise e
  | Ok filth_list =>
      match items, collides kw with
      | _ :: _, true => Raise (TypeError MultipleValues)
      | _, _ =>
          Ok (DocDict
                (map (fun item : string * string =>
                        (fst item,
                         _replace_text replace_with (snd item) filth_list
                                       (Some (fst item))))
                     items))
      end
  end.
Proof.
  unfold clean_documents, batch_filths.
  rewrite (for_each_ext
             (fun item : string * string =>
                let (name, document) := item in
                iter_filth self document (Some name) true None)
             (fun item : string * string =>
                iter_filth self (snd item) (Some (fst item)) true None))
    by now intros [name document].
  destruct (Exn.for_each _ items) as [per_document|e]; [|reflexivity].
  rewrite !bind_ok. cbv beta iota zeta. rewrite rebuild_dict.
  now destruct items, (collides kw).
Qed.

(** [clean_documents] on a list: the texts are the documents named after
    their positions. *)
Lemma clean_documents_list (self : Scrubber) (texts : list string)
    (kw : kwargs) :
  clean_documents replace_with self (DocList texts) kw =
  match batch_filths self (as_dict texts) with
  | Raise e => Raise e
  | Ok filth_list =>
      match texts, collides kw with
      | _ :: _, true => Raise (TypeError MultipleValues)
      | _, _ =>
          Ok (DocList
                (map (fun item : string * string =>
                        _replace_text replace_with (snd item) filth_list
                                      (Some (fst item)))
                     (as_dict texts)))
      end
  end.
Proof.
  unfold clean_documents, batch_filths, as_dict.
  rewrite for_each_map.
  rewrite (for_each_ext
             (fun item : nat * string =>
                let (name, document) := item in
                iter_filth self document (Some (Py.str_nat name)) true None)
             (fun x : nat * string =>
                iter_filth self (snd (Py.str_nat (fst x), snd x))
                           (Some (fst (Py.str_nat (fst x), snd x)))
                           true None))
    by now intros [name document].
  destruct (Exn.for_each _ (Py.enumerate texts)) as [per_document|e];
    [|reflexivity].
  rewrite !bind_ok. cbv beta iota zeta. rewrite rebuild_list.
  rewrite map_map.
  assert (E : forall filth_list,
             map (fun item : nat * string =>
                    let (name, text) := item in
                    _replace_text replace_with text filth_list
                                  (Some (Py.str_nat name)))
                 (Py.enumerate texts) =
             map (fun x : nat * string =>
                    _replace_text replace_with
                      (snd (Py.str_nat (fst x), snd x)) filth_list
                      (Some (fst (Py.str_nat (fst x), snd x))))
                 (Py.enumerate texts)).
  { intros filth_list. apply map_ext. now intros [name text]. }
  rewrite E.
  destruct texts as [|text r]; [reflexivity|].
  unfold Py.enumerate. simpl. now destruct (collides kw).
Qed.

(** What is found in another document leaves no span of [b], when the
    detectors tag what they find and the post-processors treat every
    document on its own. *)
Lemma iter_filth_other (self : Scrubber) (text n b : string)
    (per : list Filth) :
  tags_documents self -> document_local self -> adds_no_filth self ->
  n <> b ->
  iter_filth self text (Some n) true None = Ok per ->
  filter (in_document (Some b)) per = [].
Proof.
  intros Htags Hlocal Hnone Hne. unfold iter_filth.
  destruct (all_filths self text (Some n) None) as [found|e] eqn:E; simpl;
    [|discriminate].
  intros F. injection F as <-.
  rewrite Hlocal, _merge_filths_document.
  rewrite (filter_other_document (Some b) (Some n) found).
  - change (_merge_filths []) with (@nil Filth). now rewrite Hnone.
  - congruence.
  - now apply (all_filths_tagged self text).
Qed.

Lemma batch_others (self : Scrubber) (items : list (string * string))
    (b : string) (per : list (list Filth)) :
  tags_documents self -> document_local self -> adds_no_filth self ->
  ~ In b (map fst items) ->
  Exn.for_each
    (fun item : string * string =>
       iter_filth self (snd item) (Some (fst item)) true None)
    items = Ok per ->
  filter (in_document (Some b)) (List.concat per) = [].
Proof.
  intros Htags Hlocal Hnone. revert per.
  induction items as [|[n t] r IH]; intros per Hb; simpl.
  - intros E. now injection E as <-.
  - destruct (iter_filth self t (Some n) true None) as [p|e] eqn:Ep; simpl;
      [|discriminate].
    destruct (Exn.for_each _ r) as [ps|e]; simpl; [|discriminate].
    intros E. injection E as <-. simpl. rewrite filter_app.
    rewrite (iter_filth_other self t n b p); auto.
    + apply IH; [|reflexivity]. intros H. apply Hb. now right.
    + intros ->. apply Hb. now left.
Qed.

(** Of all that is found in a batch, the spans of [b] are those found in
    the document [b]. *)
Lemma batch_own (self : Scrubber) (items : list (string * string))
    (b text : string) (per : list (list Filth)) :
  tags_documents self -> document_local self -> adds_no_filth self ->
  NoDup (map fst items) -> In (b, text) items ->
  Exn.for_each
    (fun item : string * string =>
       iter_filth self (snd item) (Some (fst item)) true None)
    items = Ok per ->
  exists per_b,
    iter_filth self text (Some b) true None = Ok per_b /\
    filter (in_document (Some b)) (List.concat per) =
    filter (in_document (Some b)) per_b.
Proof.
  intros Htags Hlocal Hnone. revert per.
  induction items as [|[n t] r IH]; intros per Hnd Hin; [contradiction|].
  simpl in Hnd. inversion Hnd as [|? ? Hn Hr]; subst. simpl.
  destruct (iter_filth self t (Some n) true None) as [p|e] eqn:Ep; simpl;
    [|discriminate].
  destruct (Exn.for_each _ r) as [ps|e] eqn:Er; simpl; [|discriminate].
  intros E. injection E as <-. simpl. rewrite filter_app.
  destruct Hin as [Hin|Hin].
  - injection Hin as -> ->. exists p. split; [exact Ep|].
    rewrite (batch_others self r b ps); auto. apply app_nil_r.
  - destruct (IH ps Hr Hin eq_refl) as [per_b [Eb Fb]].
    exists per_b. split; [exact Eb|].
    rewrite (iter_filth_other self t n b p); auto.
    intros ->. apply Hn. apply (in_map fst) in Hin. exact Hin.
Qed.

(** C5.  The text rebuilt for the document [b] is a function of the text
    of [b] and of the spans of [b]: two span lists that agree on the spans
    of [b], whatever spans of other documents they hold, rebuild [b]
    alike.  This is how [clean_documents] rebuilds every document of a
    batch: whatever the keywords, it raises or returns every text rebuilt
    from the spans of its own document among the filths of the batch,
    a dictionary under its keys and a list under the names of the
    positions.  The merge before it works document by document.  And
    when the detectors tag what they find with the document and the
    post-processors treat every document on its own, the clean text of a
    document of a batch is the one that the document gets when it is
    cleaned alone. *)
Theorem document_isolation (b : string) (l1 l2 : list Filth)
    (Hagree : filter (in_document (Some b)) l1 =
              filter (in_document (Some b)) l2) :
  (forall text,
      _replace_text replace_with text l1 (Some b) =
      _replace_text replace_with text l2 (Some b)) /\
  (forall self items kw,
      clean_documents replace_with self (DocDict items) kw =
      match batch_filths self items with
      | Raise e => Raise e
      | Ok filth_list =>
          match items, collides kw with
          | _ :: _, true => Raise (TypeError MultipleValues)
          | _, _ =>
              Ok (DocDict
                    (map (fun item : string * string =>
                            (fst item,
                             _replace_text replace_with (snd item)
                               (filter (in_document (Some (fst item)))
                                       filth_list)
                               (Some (fst item))))
                         items))
          end
      end) /\
  (forall self texts kw,
      clean_documents replace_with self (DocList texts) kw =
      match batch_filths self (as_dict texts) with
      | Raise e => Raise e
      | Ok filth_list =>
          match texts, collides kw with
          | _ :: _, true => Raise (TypeError MultipleValues)
          | _, _ =>
              Ok (DocList
                    (map (fun item : string * string =>
                            _replace_text replace_with (snd item)
                              (filter (in_document (Some (fst item)))
                                      filth_list)
                              (Some (fst item)))
                         (as_dict texts)))
          end
      end) /\
  filter (in_document (Some b)) (_merge_filths l1) =
  filter (in_document (Some b)) (_merge_filths l2) /\
  (forall self items text out,
      tags_documents self -> document_local self -> adds_no_filth self ->
      NoDup (map fst items) -> In (b, text) items ->
      clean_documents replace_with self (DocDict items) no_kwargs
        = Ok (DocDict out) ->
      exists clean_text,
        clean_documents replace_with self (DocDict [(b, text)]) no_kwargs
          = Ok (DocDict [(b, clean_text)]) /\
        In (b, clean_text) out).
Proof.
  split; [|split; [|split; [|split]]].
  - intros text.
    rewrite (_replace_text_own_spans text l1), (_replace_text_own_spans text l2).
    now rewrite Hagree.
  - intros self items kw. rewrite clean_documents_dict.
    destruct (batch_filths self items) as [filth_list|e]; [|reflexivity].
    assert (E : map (fun item : string * string =>
                       (fst item,
                        _replace_text replace_with (snd item) filth_list
                                      (Some (fst item))))
                    items =
                map (fun item : string * string =>
                       (fst item,
                        _replace_text replace_with (snd item)
                          (filter (in_document (Some (fst item))) filth_list)
                          (Some (fst item))))
                    items).
    { apply map_ext. intros [name text]. simpl.
      now rewrite <- _replace_text_own_spans. }
    now rewrite E.
  - intros self texts kw. rewrite clean_documents_list.
    destruct (batch_filths self (as_dict texts)) as [filth_list|e];
      [|reflexivity].
    assert (E : map (fun item : string * string =>
                       _replace_text replace_with (snd item) filth_list
                                     (Some (fst item)))
                    (as_dict texts) =
                map (fun item : string * string =>
                       _replace_text replace_with (snd item)
                         (filter (in_document (Some (fst item))) filth_list)
                         (Some (fst item)))
                    (as_dict texts)).
    { apply map_ext. intros [name text]. simpl.
      now rewrite <- _replace_text_own_spans. }
    now rewrite E.
  - now rewrite !_merge_filths_document, Hagree.
  - intros self items text out Htags Hlocal Hnone Hnd Hin.
    rewrite !clean_documents_dict. unfold batch_filths.
    destruct (Exn.for_each _ items) as [per|e] eqn:E; simpl; [|discriminate].
    intros F.
    assert (Eout : out =
                   map (fun item : string * string =>
                          (fst item,
                           _replace_text replace_with (snd item)
                             (_post_process_filth_list self (List.concat per))
                             (Some (fst item))))
                       items).
    { destruct items; simpl in F; now injection F as <-. }
    destruct (batch_own self items b text per Htags Hlocal Hnone Hnd Hin E)
      as [per_b [Eb Fb]].
    rewrite Eb. simpl.
    eexists. split; [reflexivity|].
    rewrite Eout. apply in_map_iff. exists (b, text). split; [|exact Hin].
    simpl. f_equal.
    rewrite (_replace_text_own_spans text (_post_process_filth_list self _)).
    rewrite (_replace_text_own_spans text
               (_post_process_filth_list self (per_b ++ []))).
    f_equal. rewrite app_nil_r.
    rewrite (Hlocal (List.concat per)), Fb. symmetry. apply Hlocal.
Qed.

End Isolation.

(** A span of the document "a" is added and the document "b" is rebuilt
    as before; and in a batch of two documents, in each of which a
    detector finds its first three characters, each is rebuilt from its
    own span. *)
Lemma document_isolation_witness :
  let in_a := mkFilth 0 3 (Some "a") (Some "X") [] [] in
  let in_b := mkFilth 0 2 (Some "b") (Some "Y") [] [] in
  let self := mkScrubber [("name", reports "name" "NAME" 0 3)] [] in
  _replace_text (fun _ => "") "no filth" [in_a; in_b] (Some "b") =
  _replace_text (fun _ => "") "no filth" [in_b] (Some "b") /\
  clean_documents placeholder self
    (DocDict [("a", "Ann and Bob"); ("b", "Cid or Dan")]) no_kwargs =
  Ok (DocDict [("a", "{{NAME}} and Bob"); ("b", "{{NAME}} or Dan")]) /\
  exists clean_text,
    clean_documents placeholder self (DocDict [("b", "Cid or Dan")])
                    no_kwargs
      = Ok (DocDict [("b", clean_text)]) /\
    In ("b", clean_text) [("a", "{{NAME}} and Bob"); ("b", "{{NAME}} or Dan")].
Proof.
  intros in_a in_b self.
  destruct (document_isolation placeholder "b" [in_a; in_b] [in_b] eq_refl)
    as [_ [H2 [_ [_ H5]]]].
  split; [|split].
  - apply (document_isolation (fun _ => "") "b" [in_a; in_b] [in_b]).
    reflexivity.
  - rewrite H2. reflexivity.
  - apply (H5 self [("a", "Ann and Bob"); ("b", "Cid or Dan")] "Cid or Dan").
    + intros name detector text d f [E|[]]. injection E as <- <-.
      intros [E|[]]. now injection E as <-.
    + intros filth_list b0. unfold _post_process_filth_list. simpl.
      symmetry. apply filter_in_document, filter_in_document_all.
    + reflexivity.
    + simpl. repeat constructor; simpl; intuition discriminate.
    + right. now left.
    + rewrite H2. reflexivity.
Defined.

(** ** The order of registration *)




Lemma sorted_document_all (d : option string) (l : list Filth) :
  Forall (fun f => document_name f = d)
         (_sort_filths (filter (in_document d) l)).
Proof.
  apply (Permutation_Forall (Permutation_sym (_sort_filths_perm _))).
  apply filter_in_document_all.
Qed.





Section Collect.
Context {A : Type} (body : A -> result (list Filth)).


End Collect.



(** *** Spans that are alike *)

Section Alike.
Context {A K : Type} (key : A -> K) (leb : K -> K -> bool).
Variable R : A -> A -> Prop.
Hypothesis R_key : forall x y, R x y -> key x = key y.



End Alike.






Section Registration.
Variable replace_with : Filth -> string.





End Registration.



(** The same two detectors, and a post-processor that drops the spans
    whose first kind is EMAIL: in one order the span is replaced, in the
    other the text is returned as it is. *)
Lemma registration_order_post_processor :
  let name := reports "name" "NAME" 0 4 in
  let email := reports "email" "EMAIL" 0 4 in
  let drops := drops_kind "drops" "EMAIL" in
  clean placeholder (mkScrubber [("name", name); ("email", email)] [drops])
        "abcd efg" no_kwargs = Ok "{{NAME+EMAIL}} efg" /\
  clean placeholder (mkScrubber [("email", email); ("name", name)] [drops])
        "abcd efg" no_kwargs = Ok "abcd efg".
Proof. simpl. split; reflexivity. Qed.

(** Two detectors that raise: each order raises the exception of the
    detector registered first. *)
Lemma registration_order_exceptions :
  let first := raises "first" (ValueError "first") in
  let second := raises "second" AttributeError in
  iter_filth (mkScrubber [("first", first); ("second", second)] [])
             "abcd efg" None false None = Raise (ValueError "first") /\
  iter_filth (mkScrubber [("second", second); ("first", first)] [])
             "abcd efg" None false None = Raise AttributeError.
Proof. simpl. split; reflexivity. Qed.

(** ** [clean_documents]: the shape of the result *)

Lemma str_nat_examples :
  Py.str_nat 0 = "0" /\ Py.str_nat 7 = "7" /\ Py.str_nat 12 = "12".
Proof. repeat split. Qed.

Lemma for_each_ok {A B : Type} (body : A -> result B) (l : list A) :
  (forall x, In x l -> exists y, body x = Ok y) ->
  exists ys, Exn.for_each body l = Ok ys.
Proof.
  induction l as [|x r IH]; intros H; simpl.
  - now exists [].
  - destruct (H x (or_introl eq_refl)) as [y ->].
    destruct IH as [ys ->]; [intros; apply H; now right|].
    now exists (y :: ys).
Qed.

Lemma iter_filth_ok (self : Scrubber) (text : string)
    (d : option string) (run : bool) (excluded : option (list string)) :
  well_behaved self ->
  exists filth_list, iter_filth self text d run excluded = Ok filth_list.
Proof.
  intros Hwb. unfold iter_filth, all_filths.
  destruct (for_each_ok
              (fun item : string * Detector.t =>
                 let (name, detector) := item in
                 if match excluded with
                    | None => true
                    | Some excluded =>
                        negb (existsb (String.eqb name) excluded)
                    end
                 then Exn.for_each check_filth
                        (Detector.iter_filth detector text d)
                 else Ok [])
              (_detectors self)) as [found E].
  - intros [name detector] Hin.
    destruct (match excluded with None => true | Some _ => _ end);
      [|now exists []].
    apply for_each_ok. intros y Hy.
    specialize (Hwb name detector text d Hin).
    rewrite Forall_forall in Hwb. specialize (Hwb y Hy).
    destruct y as [f| |e]; [now exists f|contradiction|contradiction].
  - rewrite E. simpl. destruct run; eauto.
Qed.

Lemma enumerate_nth {A : Type} (l : list A) (i : nat) (x : A) :
  nth_error l i = Some x -> nth_error (Py.enumerate l) i = Some (i, x).
Proof.
  unfold Py.enumerate.
  assert (G : forall s, nth_error l i = Some x ->
                        nth_error (combine (seq s (List.length l)) l) i =
                        Some ((s + i)%nat, x)).
  { revert i. induction l as [|y r IH]; intros [|i] s; simpl;
      try discriminate.
    - intros E. injection E as ->. now rewrite Nat.add_0_r.
    - intros E. rewrite (IH i (S s) E). now rewrite Nat.add_succ_r. }
  apply G.
Qed.

Lemma enumerate_length {A : Type} (l : list A) :
  List.length (Py.enumerate l) = List.length l.
Proof.
  unfold Py.enumerate. rewrite length_combine, length_seq.
  apply Nat.min_id.
Qed.

Lemma as_dict_length (texts : list string) :
  List.length (as_dict texts) = List.length texts.
Proof. unfold as_dict. now rewrite length_map, enumerate_length. Qed.

Lemma as_dict_nth (texts : list string) (i : nat) (text : string) :
  nth_error texts i = Some text ->
  nth_error (as_dict texts) i = Some (Py.str_nat i, text).
Proof.
  intros Hi. unfold as_dict. rewrite nth_error_map.
  now rewrite (enumerate_nth texts i text Hi).
Qed.

Lemma batch_filths_ok (self : Scrubber) (named_texts : list (string * string)) :
  well_behaved self ->
  exists filth_list, batch_filths self named_texts = Ok filth_list.
Proof.
  intros Hwb. unfold batch_filths.
  destruct (for_each_ok
              (fun item : string * string =>
                 iter_filth self (snd item) (Some (fst item)) true None)
              named_texts) as [per_document E].
  - intros item _. now apply iter_filth_ok.
  - rewrite E. simpl. eauto.
Qed.

Section Shape.
Variable replace_with : Filth -> string.

(** C7 (as amended).  Given a list of texts, [clean_documents] returns a
    list of the same length, whose i-th text is the i-th input text
    rebuilt as the document named [str(i)] from the filths of the batch,
    which are found in each text under that name; given a dictionary, it
    returns a dictionary with the same keys in the same order, each text
    rebuilt as the document of its key.  It does return when the
    detectors yield filths only and no keyword collides.  Given anything
    else it raises the [TypeError] that the specification calls
    [InvalidDocumentCollection]: so it does given a tuple, an ordered
    sequence that is not a list. *)
Theorem clean_documents_shape (self : Scrubber) :
  (forall texts,
      (well_behaved self ->
       exists out,
         clean_documents replace_with self (DocList texts) no_kwargs
           = Ok (DocList out)) /\
      (forall kw r,
          clean_documents replace_with self (DocList texts) kw = Ok r ->
          exists out filth_list,
            batch_filths self (as_dict texts) = Ok filth_list /\
            r = DocList out /\
            List.length out = List.length texts /\
            forall i text,
              nth_error texts i = Some text ->
              nth_error out i =
              Some (_replace_text replace_with text filth_list
                                  (Some (Py.str_nat i))))) /\
  (forall items,
      (well_behaved self ->
       exists out,
         clean_documents replace_with self (DocDict items) no_kwargs
           = Ok (DocDict out)) /\
      (forall kw r,
          clean_documents replace_with self (DocDict items) kw = Ok r ->
          exists out filth_list,
            batch_filths self items = Ok filth_list /\
            r = DocDict out /\
            map fst out = map fst items /\
            out = map (fun item : string * string =>
                         (fst item,
                          _replace_text replace_with (snd item) filth_list
                                        (Some (fst item))))
                      items)) /\
  (forall kw,
      clean_documents replace_with self DocOther kw
        = Raise (TypeError BadDocuments)) /\
  (forall s kw,
      clean_documents replace_with self (of_sequence s) kw =
      match s with
      | SeqList texts => clean_documents replace_with self (DocList texts) kw
      | SeqTuple _ => Raise (TypeError BadDocuments)
      end) /\
  taxonomy (TypeError BadDocuments) = Some InvalidDocumentCollection.
Proof.
  split; [|split; [|split; [|split]]].
  - intros texts. split.
    + intros Hwb. rewrite clean_documents_list.
      destruct (batch_filths_ok self (as_dict texts) Hwb) as [filth_list ->].
      change (collides no_kwargs) with false.
      destruct texts; eauto.
    + intros kw r. rewrite clean_documents_list.
      destruct (batch_filths self (as_dict texts)) as [filth_list|e];
        [|discriminate].
      intros E.
      assert (Er : r = DocList
                         (map (fun item : string * string =>
                                 _replace_text replace_with (snd item)
                                               filth_list (Some (fst item)))
                              (as_dict texts))).
      { destruct texts, (collides kw); try discriminate;
          now injection E as <-. }
      eexists. exists filth_list.
      split; [reflexivity|]. split; [exact Er|]. split.
      * now rewrite length_map, as_dict_length.
      * intros i text Hi. rewrite nth_error_map.
        now rewrite (as_dict_nth texts i text Hi).
  - intros items. split.
    + intros Hwb. rewrite clean_documents_dict.
      destruct (batch_filths_ok self items Hwb) as [filth_list ->].
      change (collides no_kwargs) with false.
      destruct items; eauto.
    + intros kw r. rewrite clean_documents_dict.
      destruct (batch_filths self items) as [filth_list|e]; [|discriminate].
      intros E.
      assert (Er : r = DocDict
                         (map (fun item : string * string =>
                                 (fst item,
                                  _replace_text replace_with (snd item)
                                                filth_list (Some (fst item))))
                              items)).
      { destruct items, (collides kw); try discriminate;
          now injection E as <-. }
      eexists. exists filth_list.
      split; [reflexivity|]. split; [exact Er|]. split; [|reflexivity].
      rewrite map_map. reflexivity.
  - reflexivity.
  - intros [texts|texts] kw; reflexivity.
  - reflexivity.
Qed.

End Shape.

(** Scenario 5: two texts in a list, cleaned by a scrubber with one
    detector. *)
Lemma clean_documents_shape_witness :
  exists out,
    clean_documents placeholder
      (mkScrubber [("name", reports "name" "NAME" 0 3)] [])
      (DocList ["doc0"; "doc1"]) no_kwargs = Ok (DocList out).
Proof.
  destruct (clean_documents_shape placeholder
              (mkScrubber [("name", reports "name" "NAME" 0 3)] []))
    as [H _].
  destruct (H ["doc0"; "doc1"]) as [H1 _].
  apply H1. intros name detector text d [E|[]].
  injection E as _ <-. simpl. repeat constructor.
Defined.

(** A tuple of two texts is an ordered sequence, and [clean_documents]
    raises. *)
Lemma clean_documents_tuple_counterexample :
  clean_documents placeholder
    (mkScrubber [("name", reports "name" "NAME" 0 3)] [])
    (of_sequence (SeqTuple ["doc0"; "doc1"])) no_kwargs
  = Raise (TypeError BadDocuments).
Proof. reflexivity. Qed.

(** ** The detector registry *)

Section DictFacts.
Context {V : Type}.

Lemma dict_mem_In (d : list (string * V)) (name : string) :
  dict_mem d name = true <-> In name (map fst d).
Proof.
  unfold dict_mem. induction d as [|[k v] r IH]; simpl.
  - split; [discriminate|contradiction].
  - destruct (String.eqb_spec k name) as [->|Hne].
    + split; auto.
    + rewrite IH. split; [now right|]. intros [H|H]; [contradiction|exact H].
Qed.

Lemma dict_set_new (d : list (string * V)) (name : string) (v : V) :
  dict_mem d name = false -> dict_set d name v = (d ++ [(name, v)])%list.
Proof.
  unfold dict_mem. induction d as [|[k w] r IH]; simpl; [reflexivity|].
  destruct (String.eqb k name); [discriminate|].
  intros H. now rewrite IH.
Qed.

Lemma dict_get_set (d : list (string * V)) (name : string) (v : V) :
  dict_get (dict_set d name v) name = Some v.
Proof.
  induction d as [|[k w] r IH]; simpl.
  - now rewrite String.eqb_refl.
  - destruct (String.eqb k name) eqn:E; simpl; rewrite E; [reflexivity|exact IH].
Qed.

Lemma dict_remove_incl (d : list (string * V)) (name : string)
    (item : string * V) :
  In item (dict_remove d name) -> In item d.
Proof.
  induction d as [|[k w] r IH]; simpl; [auto|].
  destruct (String.eqb k name); [now right|].
  intros [H|H]; [now left|right; now apply IH].
Qed.

Lemma dict_remove_keys (d : list (string * V)) (name k : string) :
  In k (map fst (dict_remove d name)) -> In k (map fst d).
Proof.
  rewrite !in_map_iff. intros [item [E H]].
  exists item. split; [exact E|now apply dict_remove_incl in H].
Qed.

Lemma dict_remove_NoDup (d : list (string * V)) (name : string) :
  NoDup (map fst d) ->
  NoDup (map fst (dict_remove d name)) /\
  ~ In name (map fst (dict_remove d name)).
Proof.
  induction d as [|[k w] r IH]; simpl; intros N.
  - split; [constructor|auto].
  - inversion N as [|? ? Hk Nr]; subst.
    destruct (String.eqb_spec k name) as [->|Hne].
    + split; assumption.
    + destruct (IH Nr) as [N' Hn]. simpl. split.
      * constructor; [|exact N']. intros H. apply Hk.
        now apply dict_remove_keys in H.
      * intros [H|H]; [contradiction|now apply Hn].
Qed.

End DictFacts.

Lemma registry_ok_names (self : Scrubber) :
  registry_ok self -> NoDup (registered_names self).
Proof.
  intros [N F]. unfold registered_names.
  rewrite <- (map_ext_Forall _ _ F). exact N.
Qed.

Lemma keeps_ret {A : Type} (a : A) : keeps_registry (Method.ret a).
Proof. intros self r self' H E. injection E as _ <-. exact H. Qed.

Lemma keeps_raise {A : Type} (e : exn) :
  keeps_registry (Method.raise e : method A).
Proof. intros self r self' H E. injection E as _ <-. exact H. Qed.

Lemma keeps_bind {A B : Type} (m : method A) (k : A -> method B) :
  keeps_registry m -> (forall a, keeps_registry (k a)) ->
  keeps_registry (Method.bind m k).
Proof.
  intros Hm Hk self r self' H. unfold Method.bind.
  destruct (m self) as [[a|e] self1] eqn:E; intros E'.
  - apply (Hk a self1 r self'); [|exact E']. exact (Hm _ _ _ H E).
  - injection E' as _ <-. exact (Hm _ _ _ H E).
Qed.

Lemma keeps_for {A : Type} (l : list A) (body : A -> method unit) :
  (forall x, keeps_registry (body x)) ->
  keeps_registry (Method.for_ l body).
Proof.
  intros Hb. induction l as [|x r IH]; simpl.
  - apply keeps_ret.
  - apply keeps_bind; [apply Hb|]. intros _. exact IH.
Qed.

Lemma keeps_check_and_add_detector (detector : Py.made Detector.t) :
  keeps_registry (_check_and_add_detector detector).
Proof.
  destruct detector as [detector|n]; simpl; [|apply keeps_raise].
  intros self r self' [N F]. unfold Method.bind, Method.get. simpl.
  destruct (dict_mem (_detectors self) (Detector.name detector)) eqn:M.
  - intros E. injection E as _ <-. now split.
  - unfold Method.put. intros E. injection E as _ <-.
    unfold registry_ok. simpl. rewrite (dict_set_new _ _ _ M). split.
    + rewrite map_app. simpl.
      apply (Permutation_NoDup
               (l := Detector.name detector :: map fst (_detectors self))).
      * apply Permutation_cons_append.
      * constructor; [|exact N]. intros Hin.
        apply dict_mem_In in Hin. congruence.
    + apply Forall_app. split; [exact F|]. now constructor.
Qed.

Lemma keeps_detectors_pop (name : string) :
  keeps_registry (_detectors_pop name).
Proof.
  intros self r self' [N F]. unfold _detectors_pop, Method.bind, Method.get.
  simpl. destruct (dict_mem (_detectors self) name).
  - unfold Method.put. intros E. injection E as _ <-.
    unfold registry_ok. simpl. split.
    + now apply dict_remove_NoDup.
    + rewrite Forall_forall in *. intros item H.
      apply F. now apply dict_remove_incl in H.
  - intros E. injection E as _ <-. now split.
Qed.

(** A method that leaves the detectors as they are. *)
Lemma keeps_same_detectors {A : Type} (m : method A) :
  (forall self r self', m self = (r, self') ->
                        _detectors self' = _detectors self) ->
  keeps_registry m.
Proof.
  intros Hm self r self' H E. unfold registry_ok.
  now rewrite (Hm _ _ _ E).
Qed.

Section Registry.
Variable detector_configuration : list (string * detector_config).
Variable post_processor_configuration : list (string * post_processor_config).

Lemma keeps_add_detector (detector : Py.value Detector.t) :
  keeps_registry (add_detector detector_configuration detector).
Proof.
  destruct detector as [c|d|s|]; simpl.
  - destruct (negb (Py.issubclass c)); [apply keeps_raise|].
    apply keeps_check_and_add_detector.
  - apply (keeps_check_and_add_detector (Py.IsA d)).
  - destruct (dict_get detector_configuration s);
      [apply keeps_check_and_add_detector|apply keeps_raise].
  - apply keeps_ret.
Qed.

Lemma keeps_remove_detector (detector : Py.value Detector.t) :
  keeps_registry (remove_detector detector).
Proof.
  destruct detector as [c|d|s|]; simpl.
  - destruct (name_of Detector.name (Py.call c));
      [apply keeps_detectors_pop|apply keeps_raise].
  - apply keeps_detectors_pop.
  - apply keeps_detectors_pop.
  - apply keeps_ret.
Qed.

Lemma keeps_check_and_add_post_processor
    (post_processor : Py.made PostProcessor.t) (index : option Z) :
  keeps_registry (_check_and_add_post_processor post_processor index).
Proof.
  apply keeps_same_detectors. intros self r self'.
  destruct post_processor as [p|n]; simpl.
  - unfold Method.bind, Method.get. simpl.
    destruct (existsb _ _); intros E; injection E as _ <-; reflexivity.
  - intros E. injection E as _ <-. reflexivity.
Qed.

Lemma keeps_add_post_processor (post_processor : Py.value PostProcessor.t)
    (index : option Z) :
  keeps_registry
    (add_post_processor post_processor_configuration post_processor index).
Proof.
  destruct post_processor as [c|p|s|]; simpl.
  - destruct (negb (Py.issubclass c)); [apply keeps_raise|].
    apply keeps_check_and_add_post_processor.
  - apply (keeps_check_and_add_post_processor (Py.IsA p)).
  - destruct (dict_get post_processor_configuration s);
      [apply keeps_check_and_add_post_processor|apply keeps_raise].
  - apply keeps_ret.
Qed.

Lemma keeps_post_processors_without (name : result string) :
  keeps_registry (_post_processors_without name).
Proof.
  apply keeps_same_detectors. intros self r self'.
  unfold _post_processors_without, Method.bind, Method.get. simpl.
  destruct (_post_processors self) as [|p ps], name as [n|e]; simpl;
    intros E; injection E as _ <-; reflexivity.
Qed.

Lemma keeps_remove_post_processor
    (post_processor : Py.value PostProcessor.t) :
  keeps_registry (remove_post_processor post_processor).
Proof.
  destruct post_processor as [c|p|s|]; simpl;
    try apply keeps_post_processors_without.
  apply keeps_ret.
Qed.

Lemma registry_ok_empty : registry_ok (mkScrubber [] []).
Proof. split; constructor. Qed.

Lemma new_registry_ok (detector_list : option (list (Py.value Detector.t)))
    (post_processor_list : option (list (Py.value PostProcessor.t)))
    (self : Scrubber) :
  new detector_configuration post_processor_configuration
      detector_list post_processor_list = Ok self ->
  registry_ok self.
Proof.
  unfold new.
  destruct (__init__ _ _ _ _ _) as [[u|e] self'] eqn:E; [|discriminate].
  intros H. injection H as <-.
  revert E. apply (keeps_bind (Method.put (mkScrubber [] []))).
  - intros s r s' _ H. injection H as _ <-. apply registry_ok_empty.
  - intros _. apply keeps_bind.
    + apply keeps_for, keeps_add_detector.
    + intros _. apply keeps_for. intros p. apply keeps_add_post_processor.
  - apply registry_ok_empty.
Qed.

Lemma reachable_registry_ok (self : Scrubber) :
  reachable detector_configuration post_processor_configuration self ->
  registry_ok self.
Proof.
  induction 1 as [dl pl self E|self c r self' _ IH E].
  - exact (new_registry_ok dl pl self E).
  - revert E. destruct c; simpl.
    + now apply keeps_add_detector.
    + now apply keeps_remove_detector.
    + now apply keeps_add_post_processor.
    + now apply keeps_remove_post_processor.
Qed.

Lemma add_detector_produced (detector : Py.value Detector.t)
    (d : Detector.t) :
  produced detector_configuration detector = Some d ->
  add_detector detector_configuration detector =
  _check_and_add_detector (Py.IsA d).
Proof.
  destruct detector as [[d'|n]|d'|s|]; simpl; try discriminate.
  - now intros [= ->].
  - now intros [= ->].
  - destruct (dict_get detector_configuration s) as [config|];
      [|discriminate].
    destruct (cfg_detector config) as [d'|n]; [|discriminate].
    now intros [= ->].
Qed.

(** C8.  In every scrubber that a program can reach, by construction and
    by calls of [add_detector] and [remove_detector] (and of the two
    methods for post-processors), no two registered detectors have the
    same name.  Adding a detector whose name is registered raises the
    [KeyError] that the specification calls [DuplicateName], and leaves
    the scrubber as it was.  After the name is removed, adding the
    detector returns, and the detector is registered under its name. *)
Theorem unique_names (self : Scrubber)
    (Hreach : reachable detector_configuration post_processor_configuration
                        self) :
  NoDup (registered_names self) /\
  (forall detector d,
      produced detector_configuration detector = Some d ->
      In (Detector.name d) (registered_names self) ->
      add_detector detector_configuration detector self =
        (Raise (KeyError (NameInUse (Detector.name d))), self) /\
      taxonomy (KeyError (NameInUse (Detector.name d))) = Some DuplicateName /\
      exists self1 self2,
        remove_detector (Py.Str (Detector.name d)) self = (Ok tt, self1) /\
        add_detector detector_configuration detector self1 = (Ok tt, self2) /\
        dict_get (_detectors self2) (Detector.name d) = Some d /\
        reachable detector_configuration post_processor_configuration self2).
Proof.
  assert (Hok := reachable_registry_ok self Hreach).
  split; [now apply registry_ok_names|].
  intros detector d Hd Hin.
  assert (M : dict_mem (_detectors self) (Detector.name d) = true).
  { apply dict_mem_In. destruct Hok as [_ F]. unfold registered_names in Hin.
    now rewrite <- (map_ext_Forall _ _ F) in Hin. }
  rewrite (add_detector_produced detector d Hd).
  split; [|split; [reflexivity|]].
  - unfold _check_and_add_detector, Method.bind, Method.get. simpl.
    now rewrite M.
  - set (self1 := mkScrubber (dict_remove (_detectors self) (Detector.name d))
                             (_post_processors self)).
    assert (E1 : remove_detector (Py.Str (Detector.name d)) self
                 = (Ok tt, self1)).
    { simpl. unfold _detectors_pop, Method.bind, Method.get. simpl.
      now rewrite M. }
    assert (M1 : dict_mem (_detectors self1) (Detector.name d) = false).
    { destruct (dict_mem (_detectors self1) (Detector.name d)) eqn:M1;
        [|reflexivity].
      apply dict_mem_In in M1. exfalso. revert M1.
      apply dict_remove_NoDup. now destruct Hok. }
    set (self2 := mkScrubber
                    (dict_set (_detectors self1) (Detector.name d) d)
                    (_post_processors self1)).
    assert (E2 : add_detector detector_configuration detector self1
                 = (Ok tt, self2)).
    { rewrite (add_detector_produced detector d Hd).
      unfold _check_and_add_detector, Method.bind, Method.get.
      cbv beta iota. now rewrite M1. }
    exists self1, self2. repeat split.
    + exact E1.
    + rewrite <- (add_detector_produced detector d Hd). exact E2.
    + apply dict_get_set.
    + apply (reachable_call _ _ self1 (Add_detector detector) (Ok tt));
        [|exact E2].
      now apply (reachable_call _ _ self (Remove_detector
                                        (Py.Str (Detector.name d))) (Ok tt)).
Qed.

(** C9 (as amended).  When what [add_detector] makes of its argument, by
    calling the class given or the catalog entry of the name given, is
    not a detector, the call raises the [TypeError] that the
    specification calls [TypeConstraintViolation], and the scrubber is as
    it was. *)
Theorem add_detector_type_checked (self : Scrubber)
    (detector : Py.value Detector.t) (name_attr : option string)
    (Hmade : made_from detector_configuration detector =
             Some (Py.NotA name_attr)) :
  exists why,
    add_detector detector_configuration detector self =
      (Raise (TypeError why), self) /\
    taxonomy (TypeError why) = Some TypeConstraintViolation.
Proof.
  destruct detector as [[d|n]|d|s|]; simpl in Hmade; try discriminate.
  - exists NotASubclass. split; reflexivity.
  - destruct (dict_get detector_configuration s) as [config|] eqn:E;
      [|discriminate].
    injection Hmade as Hc. exists NotAnInstance. simpl. rewrite E.
    destruct (cfg_detector config); [discriminate|].
    split; reflexivity.
Qed.

End Registry.

(** C10.  Removing, by its name, a detector that is not registered
    raises the [KeyError] of [dict.pop], which is none of the errors of
    the specification; the scrubber is as it was. *)
Theorem remove_detector_absent (self : Scrubber) (name : string)
    (Habsent : ~ In name (map fst (_detectors self))) :
  remove_detector (Py.Str name) self =
    (Raise (KeyError (MissingKey name)), self) /\
  taxonomy (KeyError (MissingKey name)) = None.
Proof.
  split; [|reflexivity].
  simpl. unfold _detectors_pop, Method.bind, Method.get. simpl.
  destruct (dict_mem (_detectors self) name) eqn:M; [|reflexivity].
  now apply dict_mem_In in M.
Qed.

Lemma remove_detector_absent_witness :
  remove_detector (Py.Str "email")
    (mkScrubber [("name", reports "name" "NAME" 0 3)] []) =
  (Raise (KeyError (MissingKey "email")),
   mkScrubber [("name", reports "name" "NAME" 0 3)] []).
Proof.
  apply remove_detector_absent.
  simpl. intros [H|[]]. discriminate.
Defined.

(** Scenario 4: a second detector of the same name is refused; once the
    name is removed it is accepted. *)
Lemma unique_names_witness :
  let first := reports "name" "NAME" 0 3 in
  let second := reports "name" "PERSON" 0 5 in
  exists self,
    new [] [] (Some [Py.Instance first]) (Some []) = Ok self /\
    add_detector [] (Py.Instance second) self =
      (Raise (KeyError (NameInUse "name")), self) /\
    exists self1 self2,
      remove_detector (Py.Str "name") self = (Ok tt, self1) /\
      add_detector [] (Py.Instance second) self1 = (Ok tt, self2).
Proof.
  intros first second.
  exists (mkScrubber [("name", first)] []).
  split; [reflexivity|].
  destruct (unique_names [] [] (mkScrubber [("name", first)] []))
    as [_ H].
  - now apply (reachable_new [] [] (Some [Py.Instance first]) (Some [])).
  - destruct (H (Py.Instance second) second) as [H1 [_ [s1 [s2 [H2 [H3 _]]]]]].
    + reflexivity.
    + simpl. now left.
    + split; [exact H1|]. exists s1, s2. split; [exact H2|exact H3].
Defined.

Lemma add_detector_type_checked_witness :
  add_detector [] (Py.Type_ (Py.OtherClass None)) (mkScrubber [] []) =
    (Raise (TypeError NotASubclass), mkScrubber [] []).
Proof.
  destruct (add_detector_type_checked [] (mkScrubber [] [])
              (Py.Type_ (Py.OtherClass None)) None eq_refl)
    as [why [E _]].
  rewrite E. simpl in E. exact (eq_sym E).
Defined.

(** A value that is none of a class, a detector and a name: the call
    returns, nothing is raised, and the registry is as it was. *)
Lemma add_detector_other_counterexample :
  add_detector [] Py.Other (mkScrubber [] []) = (Ok tt, mkScrubber [] []).
Proof. reflexivity. Qed.

(** * Further properties *)

(** ** Slices *)

Lemma substring_all (s : string) : substring 0 (String.length s) s = s.
Proof. induction s as [|c s IH]; simpl; [reflexivity|now rewrite IH]. Qed.

Lemma substring_split (s : string) (n m k : nat) :
  substring n m s ++ substring (n + m) k s = substring n (m + k) s.
Proof.
  revert n m. induction s as [|c s IH]; intros n m.
  - destruct n, m, k; reflexivity.
  - destruct n as [|n]; simpl.
    + destruct m as [|m]; simpl; [reflexivity|].
      f_equal. exact (IH 0%nat m).
    + exact (IH n m).
Qed.

Lemma substring_length (s : string) (n m : nat) :
  (n + m <= String.length s)%nat -> String.length (substring n m s) = m.
Proof.
  revert n m. induction s as [|c s IH]; intros n m H; simpl in H.
  - destruct n, m; try reflexivity; lia.
  - destruct n as [|n]; simpl.
    + destruct m as [|m]; simpl; [reflexivity|].
      f_equal. apply (IH 0%nat m). lia.
    + apply IH. lia.
Qed.

Lemma append_length (s t : string) :
  String.length (s ++ t) = (String.length s + String.length t)%nat.
Proof. induction s as [|c s IH]; simpl; [reflexivity|now rewrite IH]. Qed.

Lemma clamp_in_range (len i : Z) : 0 <= i <= len -> Py.clamp len i = i.
Proof.
  intros H. unfold Py.clamp. destruct (Z.ltb_spec i 0); lia.
Qed.

(** [text[0:]] is the text. *)
Lemma slice_from_start (text : string) : Py.slice_from text 0 = text.
Proof.
  unfold Py.slice_from. rewrite clamp_in_range by lia.
  rewrite Z.sub_0_r, Nat2Z.id. apply substring_all.
Qed.

(** [text[a:b] + text[b:] = text[a:]] within the text. *)
Lemma slice_slice_from (text : string) (a b : Z) :
  0 <= a -> a <= b -> b <= Z.of_nat (String.length text) ->
  Py.slice text a b ++ Py.slice_from text b = Py.slice_from text a.
Proof.
  intros Ha Hab Hb. unfold Py.slice, Py.slice_from.
  rewrite !clamp_in_range by lia.
  replace (Z.to_nat b) with (Z.to_nat a + Z.to_nat (b - a))%nat by lia.
  rewrite substring_split. f_equal. lia.
Qed.

Lemma slice_length (text : string) (a b : Z) :
  0 <= a -> a <= b -> b <= Z.of_nat (String.length text) ->
  Z.of_nat (String.length (Py.slice text a b)) = b - a.
Proof.
  intros Ha Hab Hb. unfold Py.slice. rewrite !clamp_in_range by lia.
  rewrite substring_length; lia.
Qed.

Lemma slice_from_length (text : string) (a : Z) :
  0 <= a -> a <= Z.of_nat (String.length text) ->
  Z.of_nat (String.length (Py.slice_from text a)) =
  Z.of_nat (String.length text) - a.
Proof.
  intros Ha Hb. unfold Py.slice_from. rewrite !clamp_in_range by lia.
  rewrite substring_length; lia.
Qed.

(** ** Reconstruction keeps the rest of the text *)

Section Text.
Variable replace_with : Filth -> string.

(** A list of spans of one document in the order of the sort is rebuilt
    in that order. *)
Lemma _replace_text_in_order (text : string) (spans : list Filth)
    (document document_name0 : option string) :
  Forall (fun f => document_name f = document) spans ->
  document_name0 = None \/ document_name0 = document ->
  Sorted precedes spans ->
  _replace_text replace_with text spans document_name0 =
  spec_rebuild replace_with text spans.
Proof.
  intros Hdoc Harg Hsorted. rewrite _replace_text_spec. f_equal.
  assert (S : Sorted key_le_filth spans).
  { clear Harg. induction Hsorted as [|f r Sr IH Hf]; constructor.
    - apply IH. now inversion Hdoc.
    - inversion Hdoc as [|? ? Df Dr]; subst.
      destruct Hf as [|g r' [G _]]; constructor.
      apply key_le_same_document; [|now left].
      inversion Dr; subst. congruence. }
  destruct document_name0 as [name|].
  - destruct Harg as [H|H]; [discriminate|]. subst document.
    rewrite filter_in_document by exact Hdoc. now apply _sort_filths_id.
  - now apply _sort_filths_id.
Qed.

Lemma rebuild_round_trip (text : string) (spans : list Filth) (c : Z) :
  0 <= c -> starts_after c spans ->
  Sorted precedes spans ->
  Forall (in_bounds text) spans ->
  Forall (fun f => replacement replace_with f =
                   Py.slice text (beg f) (end_ f)) spans ->
  spec_rebuild_from replace_with text c spans = Py.slice_from text c.
Proof.
  intros Hc Hs S. revert c Hc Hs.
  induction S as [|f r Sr IH Hf]; intros c Hc Hs Hb Hr; simpl.
  - reflexivity.
  - inversion Hb as [|? ? [B1 [B2 B3]] Hb']; subst.
    inversion Hr as [|? ? R Hr']; subst. simpl in Hs.
    rewrite R, IH; auto.
    + rewrite (slice_slice_from text (beg f) (end_ f)) by lia.
      apply slice_slice_from; lia.
    + lia.
    + destruct Hf as [|g r' [_ G]]; simpl; [exact I|exact G].
Qed.

Lemma rebuild_length (text : string) (spans : list Filth) (c : Z) :
  0 <= c -> c <= Z.of_nat (String.length text) ->
  starts_after c spans ->
  Sorted precedes spans ->
  Forall (in_bounds text) spans ->
  Z.of_nat (String.length (spec_rebuild_from replace_with text c spans)) =
  Z.of_nat (String.length text) - c
  - covered_length spans + replaced_length replace_with spans.
Proof.
  intros Hc Hl Hs S. revert c Hc Hl Hs.
  induction S as [|f r Sr IH Hf]; intros c Hc Hl Hs Hb; simpl.
  - rewrite slice_from_length by lia. lia.
  - inversion Hb as [|? ? [B1 [B2 B3]] Hb']; subst. simpl in Hs.
    rewrite !append_length, !Nat2Z.inj_add.
    rewrite slice_length by lia. rewrite IH; auto; try lia.
    destruct Hf as [|g r' [_ G]]; simpl; [exact I|exact G].
Qed.

(** X1.  A text in which nothing is found is returned as it is: a list with
    no span of the document, and the empty list for any document. *)
Theorem replace_text_no_filth (text : string) (b : string)
    (filth_list : list Filth)
    (Hnone : Forall (fun f => document_name f <> Some b) filth_list) :
  _replace_text replace_with text filth_list (Some b) = text /\
  (forall document_name0,
      _replace_text replace_with text [] document_name0 = text).
Proof.
  assert (E : forall d, _replace_text replace_with text [] d = text).
  { intros d. rewrite _replace_text_spec.
    destruct d; simpl; unfold spec_rebuild; simpl; apply slice_from_start. }
  split; [|exact E].
  rewrite _replace_text_spec.
  assert (F : filter (in_document (Some b)) filth_list = []).
  { induction Hnone as [|f r Hf Hr IH]; simpl; [reflexivity|].
    destruct (in_document (Some b) f) eqn:D; [|exact IH].
    apply in_document_iff in D. contradiction. }
  rewrite F. unfold spec_rebuild. simpl. apply slice_from_start.
Qed.

(** X2.  No offset drift: when every span is replaced by the very text that
    it covers, the text comes back. The spans are those of the document,
    within the text, each before the next without overlap. *)
Theorem replace_text_round_trip (text : string) (spans : list Filth)
    (document document_name0 : option string)
    (Hdoc : Forall (fun f => document_name f = document) spans)
    (Harg : document_name0 = None \/ document_name0 = document)
    (Hsorted : Sorted precedes spans)
    (Hbounds : Forall (in_bounds text) spans)
    (Hsame : Forall (fun f => replacement replace_with f =
                              Py.slice text (beg f) (end_ f)) spans) :
  _replace_text replace_with text spans document_name0 = text.
Proof.
  rewrite (_replace_text_in_order text spans document) by assumption.
  unfold spec_rebuild. rewrite rebuild_round_trip; auto; try lia.
  - apply slice_from_start.
  - destruct Hbounds as [|f r [B _] _]; simpl; [exact I|exact B].
Qed.

(** X3.  The length of the clean text: that of the text, less the characters
    that the spans cover, plus the characters of their replacements. *)
Theorem replace_text_length (text : string) (spans : list Filth)
    (document document_name0 : option string)
    (Hdoc : Forall (fun f => document_name f = document) spans)
    (Harg : document_name0 = None \/ document_name0 = document)
    (Hsorted : Sorted precedes spans)
    (Hbounds : Forall (in_bounds text) spans) :
  Z.of_nat (String.length
              (_replace_text replace_with text spans document_name0)) =
  Z.of_nat (String.length text)
  - covered_length spans + replaced_length replace_with spans.
Proof.
  rewrite (_replace_text_in_order text spans document) by assumption.
  unfold spec_rebuild. rewrite rebuild_length; auto; try lia.
  destruct Hbounds as [|f r [B _] _]; simpl; [exact I|exact B].
Qed.

End Text.

(** ** Texts in which nothing is found *)

Lemma for_each_nil {A B : Type} (body : A -> result (list B)) (l : list A) :
  (forall x, In x l -> body x = Ok []) ->
  exists found, Exn.for_each body l = Ok found /\ List.concat found = [].
Proof.
  induction l as [|x r IH]; intros H; simpl.
  - now exists [].
  - rewrite (H x (or_introl eq_refl)). simpl.
    destruct IH as [found [E C]]; [intros; apply H; now right|].
    rewrite E. simpl. exists ([] :: found). now split.
Qed.

Lemma all_filths_nothing (self : Scrubber) (text : string)
    (d : option string) (excluded : option (list string)) :
  finds_nothing self text d -> all_filths self text d excluded = Ok [].
Proof.
  intros H. unfold all_filths.
  match goal with
  | |- Exn.bind (Exn.for_each ?b _) _ = _ =>
      destruct (for_each_nil b (_detectors self)) as [found [E C]]
  end.
  - intros [name detector] Hin.
    destruct (match excluded with None => true | Some _ => _ end);
      [|reflexivity].
    now rewrite (H name detector Hin).
  - rewrite E. simpl. now rewrite C.
Qed.

Section Nothing.
Variable replace_with : Filth -> string.

(** X4.  [clean] returns the text as it is when no detector finds anything
    in it, so also when no detector is registered: with no keyword, and
    with any keywords but [text] and [filth_list], which make the call
    raise. *)
Theorem clean_nothing_found (self : Scrubber) (text : string) (kw : kwargs)
    (Hnothing : finds_nothing self text None)
    (Hpost : adds_no_filth self) :
  clean replace_with self text no_kwargs = Ok text /\
  clean replace_with self text kw =
  if kw_text kw || kw_filth_list kw
  then Raise (TypeError MultipleValues)
  else Ok text.
Proof.
  assert (N : forall d, _replace_text replace_with text [] d = text).
  { intros d. rewrite _replace_text_spec.
    destruct d; simpl; unfold spec_rebuild; simpl; apply slice_from_start. }
  assert (G : forall kw0,
             clean replace_with self text kw0 =
             if kw_text kw0 || kw_filth_list kw0
             then Raise (TypeError MultipleValues)
             else Ok text).
  { intros kw0. unfold clean, iter_filth.
    rewrite all_filths_nothing by exact Hnothing.
    simpl. unfold adds_no_filth in Hpost. rewrite !Hpost.
    unfold call_replace_text.
    destruct (kw_text kw0); [reflexivity|].
    destruct (kw_filth_list kw0); [reflexivity|]. simpl.
    destruct (kw_document_name kw0); now rewrite N. }
  split; [exact (G no_kwargs)|exact (G kw)].
Qed.

(** X5.  [clean_documents] returns a list of texts as it is when no detector
    finds anything in any of them. *)
Theorem clean_documents_nothing_found (self : Scrubber) (texts : list string)
    (Hnothing : forall text name, In text texts ->
                                  finds_nothing self text (Some name))
    (Hpost : adds_no_filth self) :
  clean_documents replace_with self (DocList texts) no_kwargs
  = Ok (DocList texts).
Proof.
  rewrite clean_documents_no_kwargs.
  match goal with
  | |- Exn.bind (Exn.for_each ?b _) _ = _ =>
      destruct (for_each_nil b (Py.enumerate texts)) as [found [E C]]
  end.
  - intros [i text] Hin. unfold iter_filth.
    rewrite all_filths_nothing.
    + simpl. now rewrite Hpost.
    + apply Hnothing. unfold Py.enumerate in Hin.
      now apply in_combine_r in Hin.
  - rewrite E. simpl. rewrite C, Hpost. do 2 f_equal.
    assert (G : forall l : list (nat * string),
               map (fun item : nat * string =>
                      let (name, text) := item in
                      _replace_text replace_with text []
                                    (Some (Py.str_nat name))) l
               = map snd l).
    { intros l. apply map_ext. intros [i text]. simpl.
      rewrite _replace_text_spec. unfold spec_rebuild. simpl.
      apply slice_from_start. }
    rewrite G. unfold Py.enumerate.
    assert (L : forall (a : list nat) (b : list string),
               List.length a = List.length b -> map snd (combine a b) = b).
    { induction a as [|x a IH]; intros [|y b] H; simpl in *;
        try discriminate; [reflexivity|].
      f_equal. apply IH. lia. }
    apply L. now rewrite length_seq.
Qed.

End Nothing.

(** ** What the merge keeps and what it yields *)

Lemma covers_refl (f : Filth) : covers f f.
Proof. unfold covers. repeat split; lia. Qed.

Lemma covers_trans (a b c : Filth) : covers a b -> covers b c -> covers a c.
Proof.
  unfold covers. intros [D1 [B1 E1]] [D2 [B2 E2]].
  repeat split; [congruence|lia|lia].
Qed.

Lemma merge_loop_covers (d : option string) (filth : Filth)
    (rest : list Filth) (f : Filth) :
  Forall (fun g => document_name g = d) (filth :: rest) ->
  covers filth f \/ In f rest ->
  exists m, In m (merge_loop filth rest) /\ covers m f.
Proof.
  revert filth. induction rest as [|next rest IH]; intros filth Hd Hf; simpl.
  - destruct Hf as [Hf|[]]. exists filth. split; [now left|exact Hf].
  - inversion Hd as [|? ? Df Dr]; subst. inversion Dr as [|? ? Dn Dr']; subst.
    destruct (end_ filth <? beg next).
    + destruct Hf as [Hf|[->|Hf]].
      * exists filth. split; [now left|exact Hf].
      * destruct (IH f Dr (or_introl (covers_refl f))) as [m [Hm Hc]].
        exists m. split; [now right|exact Hc].
      * destruct (IH next Dr (or_intror Hf)) as [m [Hm Hc]].
        exists m. split; [now right|exact Hc].
    + apply IH.
      * constructor; [reflexivity|exact Dr'].
      * assert (C1 : covers (merge filth next) filth)
          by (unfold covers, merge; simpl; repeat split; lia).
        assert (C2 : covers (merge filth next) next)
          by (unfold covers, merge; simpl; repeat split;
              [congruence|lia|lia]).
        destruct Hf as [Hf|[->|Hf]].
        -- left. exact (covers_trans _ _ _ C1 Hf).
        -- left. exact C2.
        -- now right.
Qed.

Lemma merge_document_In (l : list Filth) (d : option string) (m : Filth) :
  In m (merge_document l d) -> In m (_merge_filths l).
Proof.
  intros Hm. rewrite _merge_filths_eq. apply in_flat_map.
  exists d. split; [|exact Hm].
  destruct (in_dec Py.opt_eq_dec d (document_names l)) as [H|H];
    [exact H|].
  rewrite (merge_document_absent l d H) in Hm. contradiction.
Qed.

Lemma _merge_filths_In (l : list Filth) (m : Filth) :
  In m (_merge_filths l) ->
  In m (merge_document l (document_name m)).
Proof.
  rewrite _merge_filths_eq. intros Hm. apply in_flat_map in Hm.
  destruct Hm as [d [_ Hm]].
  assert (D := merge_document_document l d).
  rewrite Forall_forall in D. now rewrite (D m Hm).
Qed.

(** X6.  Nothing that was found is lost: every filth given to the merge lies
    within one of the spans that it yields, of the same document. *)
Theorem merge_covers (l : list Filth) (f : Filth) (Hin : In f l) :
  exists m, In m (_merge_filths l) /\ covers m f.
Proof.
  set (d := document_name f).
  assert (Hf : In f (_sort_filths (filter (in_document d) l))).
  { apply _sort_filths_In, filter_In. split; [exact Hin|].
    now apply in_document_iff. }
  assert (D := sorted_document_all d l).
  assert (E : merge_document l d =
              match _sort_filths (filter (in_document d) l) with
              | [] => []
              | filth :: rest => merge_loop filth rest
              end) by reflexivity.
  destruct (_sort_filths (filter (in_document d) l)) as [|x r];
    [contradiction|].
  destruct (merge_loop_covers d x r f D) as [m [Hm Hc]].
  - destruct Hf as [->|Hf]; [left; apply covers_refl|now right].
  - exists m. split; [|exact Hc].
    apply (merge_document_In l d). now rewrite E.
Qed.

Lemma merge_loop_within (filth : Filth) (rest : list Filth)
    (m : Filth) (x : Z) :
  Sorted begins_before (filth :: rest) ->
  In m (merge_loop filth rest) -> in_span x m ->
  in_span x filth \/ exists f, In f rest /\ in_span x f.
Proof.
  revert filth. induction rest as [|next rest IH]; intros filth S Hm Hx;
    simpl in Hm.
  - destruct Hm as [<-|[]]. now left.
  - inversion S as [|? ? S' Hd]; subst. inversion Hd as [|? ? Hfn]; subst.
    unfold begins_before in Hfn.
    destruct (Z.ltb_spec (end_ filth) (beg next)) as [G|G].
    + destruct Hm as [<-|Hm]; [now left|].
      right. destruct (IH next S' Hm Hx) as [H|[f [Hf H]]].
      * exists next. split; [now left|exact H].
      * exists f. split; [now right|exact H].
    + assert (S2 : Sorted begins_before (merge filth next :: rest)).
      { inversion S' as [|? ? S'' Hd']; subst. constructor; [exact S''|].
        destruct Hd' as [|g r Hng]; constructor.
        unfold begins_before in *. simpl. lia. }
      destruct (IH (merge filth next) S2 Hm Hx) as [H|[f [Hf H]]].
      * unfold in_span in H. simpl in H.
        destruct (Z.lt_ge_cases x (end_ filth)) as [L|L].
        -- left. unfold in_span. lia.
        -- right. exists next. split; [now left|]. unfold in_span. lia.
      * right. exists f. split; [now right|exact H].
Qed.

(** X7.  Nothing that was not found is covered: every offset of a span that
    the merge yields is an offset of a filth that it was given, of the same
    document. *)
Theorem merge_within (l : list Filth) (m : Filth) (x : Z)
    (Hm : In m (_merge_filths l)) (Hx : in_span x m) :
  exists f, In f l /\ document_name f = document_name m /\ in_span x f.
Proof.
  set (d := document_name m).
  apply _merge_filths_In in Hm. fold d in Hm.
  assert (D := sorted_document_all d l).
  assert (S := sorted_begins d (filter (in_document d) l)
                             (filter_in_document_all d l)).
  assert (I : forall f, In f (_sort_filths (filter (in_document d) l)) ->
                        In f l /\ document_name f = d).
  { intros f Hf. apply _sort_filths_In, filter_In in Hf.
    destruct Hf as [H1 H2]. split; [exact H1|now apply in_document_iff]. }
  unfold merge_document in Hm.
  destruct (_sort_filths (filter (in_document d) l)) as [|y r];
    [contradiction|].
  destruct (merge_loop_within y r m x S Hm Hx) as [H|[f [Hf H]]].
  - exists y. destruct (I y (or_introl eq_refl)) as [I1 I2].
    split; [exact I1|split; [exact I2|exact H]].
  - exists f. destruct (I f (or_intror Hf)) as [I1 I2].
    split; [exact I1|split; [exact I2|exact H]].
Qed.

Lemma Sorted_app {A : Type} (R : A -> A -> Prop) (l1 l2 : list A) :
  Sorted R l1 -> Sorted R l2 ->
  (forall a b, In a l1 -> In b l2 -> R a b) ->
  Sorted R (l1 ++ l2).
Proof.
  intros S1 S2 H. induction S1 as [|a r Sr IH Ha]; simpl; [exact S2|].
  constructor.
  - apply IH. intros x y Hx. apply H. now right.
  - destruct Ha as [|b r' Hab]; simpl.
    + destruct l2 as [|b l2]; constructor. apply H; now left.
    + now constructor.
Qed.

Lemma merge_document_yields (l : list Filth) (d : option string) :
  Forall well_formed l ->
  Forall well_formed (merge_document l d) /\ Sorted gap (merge_document l d).
Proof.
  intros Hw.
  assert (E : merge_document l d = _merge_filths (filter (in_document d) l)).
  { rewrite (_merge_filths_one d) by apply filter_in_document_all.
    reflexivity. }
  rewrite E.
  apply (_merge_filths_yields d); [apply filter_in_document_all|].
  rewrite Forall_forall in *. intros f Hf. apply filter_In in Hf.
  now apply Hw.
Qed.

(** X8.  The merge yields what the reconstruction needs: well-formed spans,
    the documents one after the other in the order of the merge, and in each
    document every span before the next with a gap between them. *)
Theorem merge_yields_ordered (l : list Filth)
    (Hwf : Forall well_formed l) :
  Forall well_formed (_merge_filths l) /\
  Sorted merged_order (_merge_filths l).
Proof.
  rewrite _merge_filths_eq. split.
  - rewrite Forall_forall. intros m Hm. apply in_flat_map in Hm.
    destruct Hm as [d [_ Hm]].
    destruct (merge_document_yields l d Hwf) as [W _].
    rewrite Forall_forall in W. now apply W.
  - generalize (document_names_sorted l).
    induction 1 as [|d ds Sd IH Fd]; simpl; [constructor|].
    apply Sorted_app.
    + destruct (merge_document_yields l d Hwf) as [_ G].
      assert (D := merge_document_document l d).
      induction G as [|a r Gr IHr Ha]; constructor.
      * apply IHr. now inversion D.
      * inversion D as [|? ? Da Dr]; subst.
        destruct Ha as [|b r' Hab]; constructor.
        right. split; [|exact Hab]. inversion Dr; subst. congruence.
    + exact IH.
    + intros a b Ha Hb. left.
      assert (Da := merge_document_document l d).
      rewrite Forall_forall in Da. rewrite (Da a Ha).
      apply in_flat_map in Hb. destruct Hb as [d' [Hd' Hb]].
      assert (Db := merge_document_document l d').
      rewrite Forall_forall in Db. rewrite (Db b Hb).
      rewrite Forall_forall in Fd. now apply Fd.
Qed.

(** A list of well-formed spans of one document, each before the next
    with a gap, is merged into itself. *)
Lemma merge_gaps_id (d : option string) (l : list Filth) :
  Forall (fun f => document_name f = d) l ->
  Forall well_formed l ->
  Sorted gap l -> _merge_filths l = l.
Proof.
  intros Hd Hw S. rewrite (_merge_filths_one d) by exact Hd.
  rewrite (_sort_filths_id l) by now apply (gaps_sorted d).
  destruct l as [|f r]; [reflexivity|]. now apply merge_loop_gaps.
Qed.

Lemma merge_loop_not_nil (filth : Filth) (rest : list Filth) :
  merge_loop filth rest <> [].
Proof.
  revert filth. induction rest as [|next rest IH]; intros filth; simpl.
  - discriminate.
  - destruct (end_ filth <? beg next); [discriminate|apply IH].
Qed.

Lemma merge_document_nil (l : list Filth) (d : option string) :
  merge_document l d = [] <-> filter (in_document d) l = [].
Proof.
  unfold merge_document. split.
  - intros H. destruct (filter (in_document d) l) as [|f r] eqn:E;
      [reflexivity|].
    assert (P := _sort_filths_perm (f :: r)).
    destruct (_sort_filths (f :: r)) as [|x s].
    + apply Permutation_nil in P. discriminate.
    + now apply merge_loop_not_nil in H.
  - intros ->. reflexivity.
Qed.

Lemma doc_lt_trans (a b c : option string) :
  doc_lt a b -> doc_lt b c -> doc_lt a c.
Proof.
  destruct a, b, c; simpl; try tauto. apply str_lt_trans.
Qed.

Lemma documents_unique (l1 l2 : list (option string)) :
  StronglySorted doc_lt l1 -> StronglySorted doc_lt l2 ->
  (forall d, In d l1 <-> In d l2) -> l1 = l2.
Proof.
  intros S1. revert l2. induction S1 as [|a r1 S1 IH F1]; intros l2 S2 H.
  - destruct l2 as [|b r2]; [reflexivity|].
    exfalso. apply (proj2 (H b)). now left.
  - destruct S2 as [|b r2 S2 F2].
    + exfalso. apply (proj1 (H a)). now left.
    + rewrite Forall_forall in F1, F2.
      assert (a = b) as ->.
      { destruct (proj1 (H a) (or_introl eq_refl)) as [E|Ha]; [now symmetry|].
        destruct (proj2 (H b) (or_introl eq_refl)) as [E|Hb]; [exact E|].
        exfalso. apply (doc_lt_irrefl a).
        apply (doc_lt_trans a b a); [now apply F1|now apply F2]. }
      f_equal. apply IH; [exact S2|]. intros d. split; intros Hd.
      * destruct (proj1 (H d) (or_intror Hd)) as [E|Hd']; [|exact Hd'].
        subst d. exfalso. exact (doc_lt_irrefl b (F1 b Hd)).
      * destruct (proj2 (H d) (or_intror Hd)) as [E|Hd']; [|exact Hd'].
        subst d. exfalso. exact (doc_lt_irrefl b (F2 b Hd)).
Qed.

(** The merge keeps the documents. *)
Lemma document_names_merged (l : list Filth) :
  document_names (_merge_filths l) = document_names l.
Proof.
  apply documents_unique; try apply document_names_sorted.
  intros d. rewrite !document_names_In. split.
  - intros [m [Hm Hd]]. subst d. apply _merge_filths_In in Hm.
    destruct (filter (in_document (document_name m)) l) as [|f r] eqn:E.
    + apply (proj2 (merge_document_nil l _)) in E.
      rewrite E in Hm. contradiction.
    + exists f. assert (Hf : In f (filter (in_document (document_name m)) l))
        by (rewrite E; now left).
      apply filter_In in Hf. destruct Hf as [H1 H2].
      split; [exact H1|now apply in_document_iff].
  - intros [f [Hf Hd]].
    destruct (merge_document l d) as [|m r] eqn:E.
    + apply merge_document_nil in E.
      assert (Hf' : In f (filter (in_document d) l))
        by (apply filter_In; split; [exact Hf|now apply in_document_iff]).
      rewrite E in Hf'. contradiction.
    + exists m. split.
      * apply (merge_document_In l d). rewrite E. now left.
      * assert (D := merge_document_document l d).
        rewrite E in D. now inversion D.
Qed.

(** X9.  Merging twice is merging once, for well-formed spans of any number
    of documents. *)
Theorem merge_idempotent (l : list Filth) (Hwf : Forall well_formed l) :
  _merge_filths (_merge_filths l) = _merge_filths l.
Proof.
  rewrite (_merge_filths_eq (_merge_filths l)), document_names_merged.
  rewrite (_merge_filths_eq l) at 2.
  apply flat_map_ext. intros d.
  assert (E : forall l', merge_document l' d =
                         _merge_filths (filter (in_document d) l')).
  { intros l'. rewrite (_merge_filths_one d) by apply filter_in_document_all.
    reflexivity. }
  rewrite (E (_merge_filths l)), _merge_filths_document, (E l).
  assert (Hw : Forall well_formed (filter (in_document d) l)).
  { rewrite Forall_forall in *. intros f Hf. apply filter_In in Hf.
    now apply Hwf. }
  destruct (_merge_filths_yields d _ (filter_in_document_all d l) Hw)
    as [Y1 [Y2 Y3]].
  now apply (merge_gaps_id d).
Qed.

(** ** Adding and removing detectors *)

Lemma scrubber_eta (self : Scrubber) :
  mkScrubber (_detectors self) (_post_processors self) = self.
Proof. now destruct self. Qed.

Lemma dict_remove_last {V : Type} (d : list (string * V)) (name : string)
    (v : V) :
  ~ In name (map fst d) -> dict_remove (d ++ [(name, v)]) name = d.
Proof.
  induction d as [|[k w] r IH]; simpl; intros H.
  - now rewrite String.eqb_refl.
  - destruct (String.eqb_spec k name) as [->|Hne].
    + exfalso. apply H. now left.
    + f_equal. apply IH. intros Hin. apply H. now right.
Qed.

Lemma dict_get_remove {V : Type} (d : list (string * V)) (name k : string) :
  NoDup (map fst d) ->
  dict_get (dict_remove d name) k =
  if String.eqb k name then None else dict_get d k.
Proof.
  induction d as [|[k' w] r IH]; simpl; intros N.
  - now destruct (String.eqb k name).
  - inversion N as [|? ? Hk Nr]; subst.
    destruct (String.eqb k' name) eqn:E1.
    + apply String.eqb_eq in E1. subst k'.
      destruct (String.eqb k name) eqn:E2.
      * apply String.eqb_eq in E2. subst k.
        destruct (dict_get r name) eqn:G; [|reflexivity].
        exfalso. apply Hk. apply dict_mem_In. unfold dict_mem. now rewrite G.
      * rewrite String.eqb_sym, E2. reflexivity.
    + simpl. destruct (String.eqb k' k) eqn:E3.
      * apply String.eqb_eq in E3. subst k'. now rewrite E1.
      * now apply IH.
Qed.

Lemma dict_get_app_new {V : Type} (d : list (string * V)) (name k : string)
    (v : V) :
  ~ In name (map fst d) ->
  dict_get (d ++ [(name, v)]) k =
  if String.eqb k name then Some v else dict_get d k.
Proof.
  induction d as [|[k' w] r IH]; simpl; intros H.
  - rewrite (String.eqb_sym name k). reflexivity.
  - destruct (String.eqb_spec k' k) as [->|Hkk].
    + destruct (String.eqb_spec k name) as [->|Hkn]; [|reflexivity].
      exfalso. apply H. now left.
    + apply IH. intros Hin. apply H. now right.
Qed.

Section Detectors.
Variable detector_configuration : list (string * detector_config).

Lemma _check_and_add_detector_result (d : Detector.t) (self : Scrubber) :
  _check_and_add_detector (Py.IsA d) self =
  if dict_mem (_detectors self) (Detector.name d)
  then (Raise (KeyError (NameInUse (Detector.name d))), self)
  else (Ok tt, mkScrubber (_detectors self ++ [entry d])
                          (_post_processors self)).
Proof.
  unfold _check_and_add_detector, Method.bind, Method.get, Method.put,
    Method.raise.
  cbv beta iota.
  destruct (dict_mem (_detectors self) (Detector.name d)) eqn:M;
    [reflexivity|].
  now rewrite (dict_set_new _ _ _ M).
Qed.

Lemma add_detector_cases (detector : Py.value Detector.t)
    (self self' : Scrubber) (r : result unit) :
  add_detector detector_configuration detector self = (r, self') ->
  match r with
  | Raise _ => self' = self
  | Ok _ =>
      (detector = Py.Other /\ self' = self) \/
      exists d,
        produced detector_configuration detector = Some d /\
        ~ In (Detector.name d) (map fst (_detectors self)) /\
        self' = mkScrubber (_detectors self ++ [entry d])
                           (_post_processors self)
  end.
Proof.
  assert (G : forall d,
             _check_and_add_detector (Py.IsA d) self = (r, self') ->
             match r with
             | Raise _ => self' = self
             | Ok _ =>
                 ~ In (Detector.name d) (map fst (_detectors self)) /\
                 self' = mkScrubber (_detectors self ++ [entry d])
                                    (_post_processors self)
             end).
  { intros d. rewrite _check_and_add_detector_result.
    destruct (dict_mem (_detectors self) (Detector.name d)) eqn:M;
      intros E; injection E as <- <-; [reflexivity|].
    split; [|reflexivity]. intros Hin. apply dict_mem_In in Hin. congruence. }
  destruct detector as [[d|n]|d|s|]; simpl.
  - intros E. specialize (G d E). destruct r; [|exact G].
    right. exists d. now split.
  - intros E. injection E as <- <-. reflexivity.
  - intros E. specialize (G d E). destruct r; [|exact G].
    right. exists d. now split.
  - destruct (dict_get detector_configuration s) as [config|].
    + destruct (cfg_detector config) as [d|n]; simpl.
      * intros E. specialize (G d E). destruct r; [|exact G].
        right. exists d. now split.
      * intros E. injection E as <- <-. reflexivity.
    + intros E. injection E as <- <-. reflexivity.
  - intros E. injection E as <- <-. left. now split.
Qed.

(** X10.  [add_detector] never removes or replaces a registered detector and
    never touches the post-processors: when it raises, the scrubber is as it
    was; when it returns, either its argument was none of a class, a
    detector and a name and the scrubber is as it was, or the detector that
    the argument stands for, whose name was free, is now the last of the
    registry. *)
Theorem add_detector_outcome (detector : Py.value Detector.t)
    (self self' : Scrubber) (r : result unit) :
  add_detector detector_configuration detector self = (r, self') ->
  match r with
  | Raise _ => self' = self
  | Ok _ =>
      (detector = Py.Other /\ self' = self) \/
      exists d,
        produced detector_configuration detector = Some d /\
        ~ In (Detector.name d) (map fst (_detectors self)) /\
        self' = mkScrubber (_detectors self ++ [entry d])
                           (_post_processors self)
  end.
Proof. apply add_detector_cases. Qed.

(** X11.  Adding a detector whose name is free and removing it again, by its
    name or by the detector itself, gives back the scrubber. *)
Theorem add_remove_detector (detector : Py.value Detector.t)
    (d : Detector.t) (self : Scrubber)
    (Hd : produced detector_configuration detector = Some d)
    (Hfree : ~ In (Detector.name d) (map fst (_detectors self))) :
  exists self1,
    add_detector detector_configuration detector self = (Ok tt, self1) /\
    dict_get (_detectors self1) (Detector.name d) = Some d /\
    remove_detector (Py.Str (Detector.name d)) self1 = (Ok tt, self) /\
    remove_detector (Py.Instance d) self1 = (Ok tt, self).
Proof.
  assert (M : dict_mem (_detectors self) (Detector.name d) = false).
  { destruct (dict_mem _ _) eqn:M; [|reflexivity].
    apply dict_mem_In in M. contradiction. }
  exists (mkScrubber (_detectors self ++ [entry d]) (_post_processors self)).
  rewrite (add_detector_produced detector_configuration detector d Hd).
  rewrite _check_and_add_detector_result, M.
  assert (R : _detectors_pop (Detector.name d)
                (mkScrubber (_detectors self ++ [entry d])
                            (_post_processors self)) = (Ok tt, self)).
  { unfold _detectors_pop, Method.bind, Method.get, Method.put.
    cbv beta iota. cbn [_detectors _post_processors].
    assert (M' : dict_mem (_detectors self ++ [entry d]) (Detector.name d)
                 = true).
    { apply dict_mem_In. rewrite map_app. apply in_or_app. right. now left. }
    rewrite M'. unfold entry. rewrite dict_remove_last by exact Hfree.
    now rewrite scrubber_eta. }
  repeat split.
  - simpl. unfold entry. rewrite dict_get_app_new by exact Hfree.
    now rewrite String.eqb_refl.
  - exact R.
  - exact R.
Qed.

End Detectors.

(** X12.  [remove_detector] takes away, by its name, one detector and leaves
    the others as they were: afterwards the name is free and every other
    name stands for the detector it stood for. A detector and a class are
    removed by the name of the detector, whichever detector is registered
    under it. *)
Theorem remove_detector_lookup (self : Scrubber) (name : string)
    (Hok : registry_ok self)
    (Hin : In name (map fst (_detectors self))) :
  exists self',
    remove_detector (Py.Str name) self = (Ok tt, self') /\
    _post_processors self' = _post_processors self /\
    (forall k, dict_get (_detectors self') k =
               if String.eqb k name then None
               else dict_get (_detectors self) k) /\
    registry_ok self' /\
    (forall d, Detector.name d = name ->
               remove_detector (Py.Instance d) self = (Ok tt, self') /\
               remove_detector (Py.Type_ (Py.SubclassOf d)) self
               = (Ok tt, self')).
Proof.
  exists (mkScrubber (dict_remove (_detectors self) name)
                     (_post_processors self)).
  assert (E : _detectors_pop name self =
              (Ok tt, mkScrubber (dict_remove (_detectors self) name)
                                 (_post_processors self))).
  { unfold _detectors_pop, Method.bind, Method.get, Method.put.
    cbv beta iota. now rewrite (proj2 (dict_mem_In _ _) Hin). }
  split; [exact E|]. split; [reflexivity|]. split; [|split].
  - intros k. apply dict_get_remove. now destruct Hok.
  - exact (keeps_detectors_pop name self _ _ Hok E).
  - intros d <-. split; exact E.
Qed.

(** ** The post-processor registry *)

Lemma keeps_bind_any (P : Scrubber -> Prop) {A B : Type} (m : method A)
    (k : A -> method B) :
  keeps P m -> (forall a, keeps P (k a)) -> keeps P (Method.bind m k).
Proof.
  intros Hm Hk self r self' H. unfold Method.bind.
  destruct (m self) as [[a|e] self1] eqn:E; intros E'.
  - apply (Hk a self1 r self'); [|exact E']. exact (Hm _ _ _ H E).
  - injection E' as _ <-. exact (Hm _ _ _ H E).
Qed.

Lemma keeps_for_any (P : Scrubber -> Prop) {A : Type} (l : list A)
    (body : A -> method unit) :
  (forall x, keeps P (body x)) -> keeps P (Method.for_ l body).
Proof.
  intros Hb. induction l as [|x r IH]; simpl.
  - intros self r' self' H E. injection E as _ <-. exact H.
  - apply keeps_bind_any; [apply Hb|]. intros _. exact IH.
Qed.

Lemma list_insert_perm {A : Type} (index : Z) (x : A) (l : list A) :
  Permutation (Py.list_insert index x l) (x :: l).
Proof.
  unfold Py.list_insert. apply Permutation_sym.
  rewrite <- (firstn_skipn (Z.to_nat (Py.clamp (Z.of_nat (List.length l))
                                               index)) l) at 1.
  apply Permutation_middle.
Qed.

Lemma clamp_range (len i : Z) : 0 <= len -> 0 <= Py.clamp len i <= len.
Proof. intros H. unfold Py.clamp. destruct (Z.ltb_spec i 0); lia. Qed.

Lemma list_insert_nth {A : Type} (index : Z) (x : A) (l : list A) :
  nth_error (Py.list_insert index x l) (position (Some index) (List.length l))
  = Some x.
Proof.
  unfold Py.list_insert, position.
  set (i := Z.to_nat (Py.clamp (Z.of_nat (List.length l)) index)).
  assert (Hi : (i <= List.length l)%nat).
  { unfold i. generalize (clamp_range (Z.of_nat (List.length l)) index). lia. }
  rewrite nth_error_app2 by (rewrite length_firstn; lia).
  rewrite length_firstn. replace (i - Nat.min i (List.length l))%nat with 0%nat
    by lia.
  reflexivity.
Qed.

Lemma names_filter (name : string) (l : list PostProcessor.t) :
  map PostProcessor.name
      (filter (fun x => negb (String.eqb (PostProcessor.name x) name)) l) =
  filter (fun n => negb (String.eqb n name)) (map PostProcessor.name l).
Proof.
  induction l as [|p r IH]; simpl; [reflexivity|].
  destruct (negb (String.eqb (PostProcessor.name p) name)); simpl;
    now rewrite IH.
Qed.

Lemma filter_fresh (name : string) (l : list PostProcessor.t) :
  ~ In name (map PostProcessor.name l) ->
  filter (fun x => negb (String.eqb (PostProcessor.name x) name)) l = l.
Proof.
  induction l as [|p r IH]; simpl; intros H; [reflexivity|].
  destruct (String.eqb_spec (PostProcessor.name p) name) as [E|E]; simpl.
  - exfalso. apply H. now left.
  - f_equal. apply IH. intros Hin. apply H. now right.
Qed.

Lemma existsb_name (name : string) (names : list string) :
  existsb (String.eqb name) names = true <-> In name names.
Proof.
  rewrite existsb_exists. split.
  - intros [x [Hx E]]. apply String.eqb_eq in E. now subst.
  - intros H. exists name. split; [exact H|apply String.eqb_refl].
Qed.

Lemma _check_and_add_post_processor_result (p : PostProcessor.t)
    (index : option Z) (self : Scrubber) :
  _check_and_add_post_processor (Py.IsA p) index self =
  if existsb (String.eqb (PostProcessor.name p)) (post_processor_names self)
  then (Raise (KeyError (NameInUse (PostProcessor.name p))), self)
  else (Ok tt,
        mkScrubber (_detectors self)
          match index with
          | None => (_post_processors self ++ [p])%list
          | Some i => Py.list_insert i p (_post_processors self)
          end).
Proof.
  unfold _check_and_add_post_processor, Method.bind, Method.get, Method.put,
    Method.raise, post_processor_names.
  cbv beta iota. now destruct (existsb _ _).
Qed.

Lemma _post_processors_without_result (name : string) (self : Scrubber) :
  _post_processors_without (Ok name) self =
  (Ok tt,
   mkScrubber (_detectors self)
     (filter (fun x => negb (String.eqb (PostProcessor.name x) name))
             (_post_processors self))).
Proof.
  unfold _post_processors_without, Method.bind, Method.get, Method.put.
  cbv beta iota. now destruct (_post_processors self).
Qed.

Lemma keeps_names_check_and_add (made : Py.made PostProcessor.t)
    (index : option Z) :
  keeps (fun self => NoDup (post_processor_names self))
        (_check_and_add_post_processor made index).
Proof.
  intros self r self' N. destruct made as [p|n].
  - rewrite _check_and_add_post_processor_result.
    destruct (existsb _ _) eqn:X; intros E; injection E as _ <-;
      [exact N|].
    assert (Hp : ~ In (PostProcessor.name p) (post_processor_names self)).
    { intros H. apply existsb_name in H. congruence. }
    unfold post_processor_names in *. simpl.
    apply (Permutation_NoDup
             (l := PostProcessor.name p
                   :: map PostProcessor.name (_post_processors self))).
    + apply Permutation_sym.
      apply (Permutation_map PostProcessor.name
                             (l' := p :: _post_processors self)).
      destruct index as [i|].
      * apply list_insert_perm.
      * apply Permutation_sym, Permutation_cons_append.
    + now constructor.
  - simpl. intros E. injection E as _ <-. exact N.
Qed.

Lemma keeps_names_without (name : result string) :
  keeps (fun self => NoDup (post_processor_names self))
        (_post_processors_without name).
Proof.
  intros self r self' N. destruct name as [name|e].
  - rewrite _post_processors_without_result. intros E. injection E as _ <-.
    unfold post_processor_names in *. simpl. rewrite names_filter.
    now apply NoDup_filter.
  - unfold _post_processors_without, Method.bind, Method.get, Method.put,
      Method.raise. cbv beta iota.
    destruct (_post_processors self) eqn:L; intros E; injection E as _ <-.
    + unfold post_processor_names. simpl. constructor.
    + exact N.
Qed.

Lemma keeps_names_detectors {A : Type} (m : method A) :
  (forall self r self', m self = (r, self') ->
                        _post_processors self' = _post_processors self) ->
  keeps (fun self => NoDup (post_processor_names self)) m.
Proof.
  intros Hm self r self' N E. unfold post_processor_names in *.
  now rewrite (Hm _ _ _ E).
Qed.

Section PostProcessors.
Variable detector_configuration : list (string * detector_config).
Variable post_processor_configuration : list (string * post_processor_config).

Lemma keeps_names_run (c : operation) :
  keeps (fun self => NoDup (post_processor_names self))
        (run detector_configuration post_processor_configuration c).
Proof.
  destruct c as [d|d|p index|p]; simpl.
  - apply keeps_names_detectors. intros self r self' E.
    apply add_detector_cases in E. destruct r.
    + destruct E as [[_ ->]|[d' [_ [_ ->]]]]; reflexivity.
    + now subst.
  - apply keeps_names_detectors. intros self r self'.
    assert (G : forall name, _detectors_pop name self = (r, self') ->
                             _post_processors self' = _post_processors self).
    { intros name. unfold _detectors_pop, Method.bind, Method.get,
        Method.put, Method.raise. cbv beta iota.
      destruct (dict_mem _ _); intros E; injection E as _ <-; reflexivity. }
    destruct d as [c|d|s|]; simpl.
    + destruct (name_of Detector.name (Py.call c)); [apply G|].
      intros E. injection E as _ <-. reflexivity.
    + apply G.
    + apply G.
    + intros E. injection E as _ <-. reflexivity.
  - destruct p as [c|p|s|]; simpl.
    + destruct (negb (Py.issubclass c)).
      * intros self r self' N E. injection E as _ <-. exact N.
      * apply keeps_names_check_and_add.
    + apply (keeps_names_check_and_add (Py.IsA p)).
    + destruct (dict_get post_processor_configuration s).
      * apply keeps_names_check_and_add.
      * intros self r self' N E. injection E as _ <-. exact N.
    + intros self r self' N E. injection E as _ <-. exact N.
  - destruct p as [c|p|s|]; simpl; try apply keeps_names_without.
    intros self r self' N E. injection E as _ <-. exact N.
Qed.

(** X13.  No two registered post-processors have the same name, in any
    scrubber that a program can reach. *)
Theorem unique_post_processor_names (self : Scrubber)
    (Hreach : reachable detector_configuration post_processor_configuration
                        self) :
  NoDup (post_processor_names self).
Proof.
  induction Hreach as [dl pl self E|self c r self' _ IH E].
  - unfold new in E.
    destruct (__init__ _ _ _ _ _) as [[u|e] self'] eqn:I; [|discriminate].
    injection E as <-. revert I.
    apply (keeps_bind_any (fun self => NoDup (post_processor_names self))
                          (Method.put (mkScrubber [] []))).
    + intros s r s' _ H. injection H as _ <-. constructor.
    + intros _. apply keeps_bind_any.
      * apply keeps_for_any. intros d. apply (keeps_names_run (Add_detector d)).
      * intros _. apply keeps_for_any. intros p.
        apply (keeps_names_run (Add_post_processor p None)).
    + constructor.
  - exact (keeps_names_run c self r self' IH E).
Qed.

(** X14.  [add_post_processor] puts a post-processor whose name is free at
    the index given, counted from the end when negative and cut to the ends
    of the list, or last when no index is given; the others keep their
    order. Removing it by its name gives back the scrubber. *)
Theorem add_remove_post_processor
    (post_processor : Py.value PostProcessor.t) (p : PostProcessor.t)
    (index : option Z) (self : Scrubber)
    (Hp : produced_post_processor post_processor_configuration
                                  post_processor = Some p)
    (Hfree : ~ In (PostProcessor.name p) (post_processor_names self)) :
  exists self1,
    add_post_processor post_processor_configuration post_processor index self
      = (Ok tt, self1) /\
    _detectors self1 = _detectors self /\
    nth_error (_post_processors self1)
              (position index (List.length (_post_processors self)))
      = Some p /\
    Permutation (_post_processors self1) (p :: _post_processors self) /\
    remove_post_processor (Py.Str (PostProcessor.name p)) self1
      = (Ok tt, self).
Proof.
  assert (A : add_post_processor post_processor_configuration
                                 post_processor index self =
              _check_and_add_post_processor (Py.IsA p) index self).
  { destruct post_processor as [[p'|n]|p'|s|]; simpl in *;
      try discriminate.
    - now injection Hp as ->.
    - now injection Hp as ->.
    - destruct (dict_get post_processor_configuration s) as [config|];
        [|discriminate].
      destruct (cfg_post_processor config) as [p'|n]; [|discriminate].
      now injection Hp as ->. }
  rewrite A, _check_and_add_post_processor_result.
  assert (X : existsb (String.eqb (PostProcessor.name p))
                      (post_processor_names self) = false).
  { destruct (existsb _ _) eqn:X; [|reflexivity].
    apply existsb_name in X. contradiction. }
  rewrite X. eexists. split; [reflexivity|]. simpl.
  split; [reflexivity|]. split; [|split].
  - destruct index as [i|]; simpl.
    + apply list_insert_nth.
    + rewrite nth_error_app2 by lia. now rewrite Nat.sub_diag.
  - destruct index as [i|].
    + apply list_insert_perm.
    + apply Permutation_sym, Permutation_cons_append.
  - rewrite _post_processors_without_result. simpl. f_equal.
    rewrite <- (scrubber_eta self) at 2. f_equal.
    destruct index as [i|].
    + unfold Py.list_insert. rewrite filter_app. simpl.
      rewrite String.eqb_refl. simpl. rewrite <- filter_app.
      rewrite firstn_skipn. now apply filter_fresh.
    + rewrite filter_app. simpl. rewrite String.eqb_refl. simpl.
      rewrite app_nil_r. now apply filter_fresh.
Qed.

End PostProcessors.

(** X15.  [remove_post_processor] by a name never raises: it returns, no
    post-processor of that name is left and the others keep their order;
    when no post-processor has the name the scrubber is as it was. *)
Theorem remove_post_processor_by_name (self : Scrubber) (name : string) :
  exists self',
    remove_post_processor (Py.Str name) self = (Ok tt, self') /\
    _detectors self' = _detectors self /\
    _post_processors self' =
      filter (fun x => negb (String.eqb (PostProcessor.name x) name))
             (_post_processors self) /\
    ~ In name (post_processor_names self') /\
    (~ In name (post_processor_names self) -> self' = self).
Proof.
  eexists. simpl. rewrite _post_processors_without_result.
  split; [reflexivity|]. simpl. repeat split.
  - unfold post_processor_names. simpl. rewrite names_filter.
    intros H. apply filter_In in H. destruct H as [_ H].
    now rewrite String.eqb_refl in H.
  - intros H. rewrite filter_fresh by exact H. apply scrubber_eta.
Qed.

(** ** Construction *)

Section Construction.
Variable detector_configuration : list (string * detector_config).
Variable post_processor_configuration : list (string * post_processor_config).

Lemma add_detectors_ok (detector_list : list (Py.value Detector.t))
    (self self' : Scrubber) :
  Method.for_ detector_list (add_detector detector_configuration) self
    = (Ok tt, self') ->
  self' = mkScrubber
            (_detectors self
             ++ map entry (produced_all detector_configuration detector_list))
            (_post_processors self).
Proof.
  revert self. induction detector_list as [|v vs IH]; intros self; simpl.
  - intros E. injection E as <-. simpl. rewrite app_nil_r.
    symmetry. apply scrubber_eta.
  - unfold Method.bind.
    destruct (add_detector detector_configuration v self) as [[u|e] self1]
      eqn:A; [|discriminate].
    intros E. apply IH in E. apply add_detector_cases in A.
    destruct A as [[-> ->]|[d [Hd [_ ->]]]].
    + exact E.
    + rewrite Hd. simpl in *. now rewrite <- app_assoc in E.
Qed.

Lemma add_post_processor_cases (v : Py.value PostProcessor.t)
    (self self' : Scrubber) :
  add_post_processor post_processor_configuration v None self
    = (Ok tt, self') ->
  self' = mkScrubber
            (_detectors self)
            (_post_processors self
             ++ match produced_post_processor post_processor_configuration v
                with
                | Some p => [p]
                | None => []
                end).
Proof.
  assert (G : forall p,
             _check_and_add_post_processor (Py.IsA p) None self
             = (Ok tt, self') ->
             self' = mkScrubber (_detectors self)
                                (_post_processors self ++ [p])).
  { intros p. rewrite _check_and_add_post_processor_result.
    destruct (existsb _ _); [discriminate|].
    intros E. now injection E as <-. }
  destruct v as [[p|n]|p|s|]; simpl; try discriminate; try apply G.
  - destruct (dict_get post_processor_configuration s) as [config|];
      [|discriminate].
    destruct (cfg_post_processor config) as [p|n]; simpl;
      [apply G|discriminate].
  - intros E. injection E as <-. rewrite app_nil_r. symmetry.
    apply scrubber_eta.
Qed.

Lemma add_post_processors_ok
    (post_processor_list : list (Py.value PostProcessor.t))
    (self self' : Scrubber) :
  Method.for_ post_processor_list
    (fun p => add_post_processor post_processor_configuration p None) self
    = (Ok tt, self') ->
  self' = mkScrubber
            (_detectors self)
            (_post_processors self
             ++ produced_post_processors post_processor_configuration
                                         post_processor_list).
Proof.
  revert self. induction post_processor_list as [|v vs IH]; intros self;
    simpl.
  - intros E. injection E as <-. simpl. rewrite app_nil_r.
    symmetry. apply scrubber_eta.
  - unfold Method.bind.
    destruct (add_post_processor post_processor_configuration v None self)
      as [[u|e] self1] eqn:A; [|discriminate].
    destruct u. intros E. apply IH in E. apply add_post_processor_cases in A.
    subst self1. simpl in E. now rewrite <- app_assoc in E.
Qed.

Lemma new_cases (detector_list : option (list (Py.value Detector.t)))
    (post_processor_list : option (list (Py.value PostProcessor.t)))
    (self : Scrubber) :
  new detector_configuration post_processor_configuration
      detector_list post_processor_list = Ok self ->
  self =
  mkScrubber
    (map entry
       (produced_all detector_configuration
          match detector_list with
          | None => default_detector_list detector_configuration
          | Some l => l
          end))
    (produced_post_processors post_processor_configuration
       match post_processor_list with
       | None => default_post_processor_list post_processor_configuration
       | Some l => l
       end).
Proof.
  unfold new, __init__, Method.bind at 1, Method.put at 1. cbv beta iota.
  unfold Method.bind.
  match goal with
  | |- context [Method.for_ ?l (add_detector _) ?s] =>
      destruct (Method.for_ l (add_detector detector_configuration) s)
        as [[u|e] self1] eqn:D
  end; [|discriminate].
  destruct u. apply add_detectors_ok in D. simpl in D.
  match goal with
  | |- context [Method.for_ ?l ?b self1] =>
      destruct (Method.for_ l b self1) as [[u'|e] self2] eqn:P
  end; [|discriminate].
  destruct u'. apply add_post_processors_ok in P. intros E.
  injection E as <-.
  subst self1. simpl in P. exact P.
Qed.

(** X16.  A new scrubber holds the detectors and the post-processors that
    the arguments stand for, each list in the order of the arguments and
    nothing else; by default, those of the catalog entries marked autoload,
    the detectors in the order of the catalog and the post-processors in the
    order of their index. The names of its detectors are distinct. *)
Theorem new_holds (detector_list : option (list (Py.value Detector.t)))
    (post_processor_list : option (list (Py.value PostProcessor.t)))
    (self : Scrubber)
    (Hnew : new detector_configuration post_processor_configuration
                detector_list post_processor_list = Ok self) :
  _detectors self =
    map entry
      (produced_all detector_configuration
         match detector_list with
         | None => default_detector_list detector_configuration
         | Some l => l
         end) /\
  _post_processors self =
    produced_post_processors post_processor_configuration
      match post_processor_list with
      | None => default_post_processor_list post_processor_configuration
      | Some l => l
      end /\
  NoDup (registered_names self).
Proof.
  assert (Hok := new_registry_ok _ _ _ _ _ Hnew).
  apply registry_ok_names in Hok.
  apply new_cases in Hnew. rewrite Hnew at 1 2. simpl. now repeat split.
Qed.

Lemma produced_all_instances (ds : list Detector.t) :
  produced_all detector_configuration (map Py.Instance ds) = ds.
Proof.
  unfold produced_all. induction ds as [|d r IH]; simpl; [reflexivity|].
  now rewrite IH.
Qed.

Lemma add_instances (ds : list Detector.t) (self : Scrubber) :
  (exists self',
      Method.for_ (map Py.Instance ds)
                  (add_detector detector_configuration) self
      = (Ok tt, self')) \/
  (exists n self',
      Method.for_ (map Py.Instance ds)
                  (add_detector detector_configuration) self
      = (Raise (KeyError (NameInUse n)), self') /\
      In n (map Detector.name ds)).
Proof.
  revert self. induction ds as [|d r IH]; intros self;
    cbn [map Method.for_].
  - left. now exists self.
  - unfold Method.bind.
    change (add_detector detector_configuration (Py.Instance d) self)
      with (_check_and_add_detector (Py.IsA d) self).
    rewrite _check_and_add_detector_result.
    destruct (dict_mem (_detectors self) (Detector.name d)).
    + right. exists (Detector.name d), self. split; [reflexivity|now left].
    + destruct (IH (mkScrubber (_detectors self ++ [entry d])
                               (_post_processors self)))
        as [[s' E]|[n [s' [E Hn]]]].
      * left. exists s'. exact E.
      * right. exists n, s'. split; [exact E|now right].
Qed.

Lemma new_of_instances (ds : list Detector.t) :
  new detector_configuration post_processor_configuration
      (Some (map Py.Instance ds)) (Some []) =
  match Method.for_ (map Py.Instance ds)
                    (add_detector detector_configuration)
                    (mkScrubber [] []) with
  | (Ok _, self) => Ok self
  | (Raise e, _) => Raise e
  end.
Proof.
  unfold new, __init__, Method.bind, Method.put. cbv beta iota.
  cbn [Method.for_].
  destruct (Method.for_ (map Py.Instance ds) _ _) as [[[]|e] self];
    reflexivity.
Qed.

(** X17.  Given detectors, and no post-processor, the constructor returns
    exactly when their names are distinct, with the detectors in the order
    given; otherwise it raises the [KeyError] of a name in use, for one of
    their names. *)
Theorem new_of_detectors (ds : list Detector.t) :
  (NoDup (map Detector.name ds) <->
   new detector_configuration post_processor_configuration
       (Some (map Py.Instance ds)) (Some [])
   = Ok (mkScrubber (map entry ds) [])) /\
  (~ NoDup (map Detector.name ds) ->
   exists n,
     In n (map Detector.name ds) /\
     new detector_configuration post_processor_configuration
         (Some (map Py.Instance ds)) (Some [])
     = Raise (KeyError (NameInUse n))).
Proof.
  assert (R : forall self,
             new detector_configuration post_processor_configuration
                 (Some (map Py.Instance ds)) (Some []) = Ok self ->
             self = mkScrubber (map entry ds) [] /\
             NoDup (map Detector.name ds)).
  { intros self E. assert (Hok := new_registry_ok _ _ _ _ _ E).
    apply registry_ok_names in Hok. apply new_cases in E.
    rewrite produced_all_instances in E. simpl in E. split; [exact E|].
    subst self. unfold registered_names in Hok. simpl in Hok.
    now rewrite map_map in Hok. }
  assert (C : (exists self,
                 new detector_configuration post_processor_configuration
                     (Some (map Py.Instance ds)) (Some []) = Ok self) \/
              (exists n,
                 In n (map Detector.name ds) /\
                 new detector_configuration post_processor_configuration
                     (Some (map Py.Instance ds)) (Some [])
                 = Raise (KeyError (NameInUse n)))).
  { rewrite new_of_instances.
    destruct (add_instances ds (mkScrubber [] []))
      as [[s' E]|[n [s' [E Hn]]]].
    - left. exists s'. now rewrite E.
    - right. exists n. split; [exact Hn|]. now rewrite E. }
  split; [split|].
  - intros N. destruct C as [[self E]|[n [Hn E]]].
    + destruct (R self E) as [-> _]. exact E.
    + exfalso. clear R. revert E. rewrite new_of_instances.
      assert (G : forall self,
                 Forall (fun d => ~ In (Detector.name d)
                                       (map fst (_detectors self))) ds ->
                 exists self',
                   Method.for_ (map Py.Instance ds)
                               (add_detector detector_configuration) self
                   = (Ok tt, self')).
      { clear Hn. induction ds as [|d r IH]; intros self F;
          cbn [map Method.for_].
        - now exists self.
        - simpl in N.
          inversion N as [|? ? Hd Nr]; inversion F as [|? ? Fd Fr]; subst.
          unfold Method.bind.
          change (add_detector detector_configuration (Py.Instance d) self)
            with (_check_and_add_detector (Py.IsA d) self).
          rewrite _check_and_add_detector_result.
          destruct (dict_mem (_detectors self) (Detector.name d)) eqn:M.
          + apply dict_mem_In in M. contradiction.
          + apply (IH Nr). simpl. rewrite Forall_forall in *.
            intros x Hx. rewrite map_app. intros Hin.
            apply in_app_or in Hin. destruct Hin as [Hin|[Hin|[]]].
            * exact (Fr x Hx Hin).
            * simpl in Hin. apply Hd. rewrite Hin.
              now apply in_map. }
      destruct (G (mkScrubber [] [])) as [s' E].
      * rewrite Forall_forall. intros x _ [].
      * rewrite E. simpl. discriminate.
  - intros E. now destruct (R _ E).
  - intros N. destruct C as [[self E]|H]; [|exact H].
    exfalso. apply N. now destruct (R self E).
Qed.

End Construction.

(** ** Excluded detectors *)

Lemma all_filths_exclude (self : Scrubber) (text : string)
    (document_name0 : option string) (excluded : list string) :
  all_filths self text document_name0 (Some excluded) =
  all_filths (without_detectors self excluded) text document_name0 None.
Proof.
  unfold all_filths, without_detectors. cbn [_detectors].
  induction (_detectors self) as [|[name detector] r IH];
    [reflexivity|].
  cbn [filter fst Exn.for_each].
  destruct (negb (existsb (String.eqb name) excluded)).
  - cbn [Exn.for_each].
    destruct (Exn.for_each check_filth
                (Detector.iter_filth detector text document_name0))
      as [found|e]; [|reflexivity].
    cbn [Exn.bind] in *.
    destruct (Exn.for_each _ r) as [ys|e],
             (Exn.for_each _ (filter _ r)) as [zs|e'];
      cbn [Exn.bind List.concat] in *; congruence.
  - cbn [Exn.bind] in *.
    destruct (Exn.for_each _ r) as [ys|e]; cbn [Exn.bind List.concat] in *;
      exact IH.
Qed.

(** X18.  Excluding detectors by name in [iter_filth] is running the
    scrubber without them: their filths are not found and what they yield is
    not checked. *)
Theorem iter_filth_exclude (self : Scrubber) (text : string)
    (document_name0 : option string) (run_post_processors : bool)
    (excluded : list string) :
  iter_filth self text document_name0 run_post_processors (Some excluded) =
  iter_filth (without_detectors self excluded) text document_name0
             run_post_processors None.
Proof.
  unfold iter_filth. rewrite all_filths_exclude.
  unfold _post_process_filth_list, without_detectors. reflexivity.
Qed.

(** ** The order of the post-processors *)

Section Order.
Variable post_processor_configuration : list (string * post_processor_config).

(** X19.  A post-processor added without an index runs last, on what the
    others return; one added at index 0 runs first, and the others run on
    what it returns. *)
Theorem add_post_processor_runs
    (post_processor : Py.value PostProcessor.t) (p : PostProcessor.t)
    (self : Scrubber)
    (Hp : produced_post_processor post_processor_configuration
                                  post_processor = Some p)
    (Hfree : ~ In (PostProcessor.name p) (post_processor_names self)) :
  (exists last,
      add_post_processor post_processor_configuration post_processor None
                         self = (Ok tt, last) /\
      forall filth_list,
        _post_process_filth_list last filth_list =
        PostProcessor.process_filth p
          (_post_process_filth_list self filth_list)) /\
  (exists first,
      add_post_processor post_processor_configuration post_processor
                         (Some 0) self = (Ok tt, first) /\
      forall filth_list,
        _post_process_filth_list first filth_list =
        _post_process_filth_list self
          (PostProcessor.process_filth p filth_list)).
Proof.
  assert (A : forall index,
             add_post_processor post_processor_configuration
                                post_processor index self =
             _check_and_add_post_processor (Py.IsA p) index self).
  { intros index.
    destruct post_processor as [[p'|n]|p'|s|]; simpl in *;
      try discriminate.
    - now injection Hp as ->.
    - now injection Hp as ->.
    - destruct (dict_get post_processor_configuration s) as [config|];
        [|discriminate].
      destruct (cfg_post_processor config) as [p'|n]; [|discriminate].
      now injection Hp as ->. }
  assert (X : existsb (String.eqb (PostProcessor.name p))
                      (post_processor_names self) = false).
  { destruct (existsb _ _) eqn:X; [|reflexivity].
    apply existsb_name in X. contradiction. }
  split; eexists; rewrite A, _check_and_add_post_processor_result, X;
    (split; [reflexivity|]); intros filth_list;
    unfold _post_process_filth_list; simpl.
  - now rewrite fold_left_app.
  - unfold Py.list_insert.
    rewrite clamp_in_range by lia. reflexivity.
Qed.

End Order.

(** ** After the merge *)

(** X20.  The spans of a document that the merge yields are in the order of
    the sort: sorting them again, as [_replace_text] does, changes nothing.
    *)
Theorem sort_after_merge (l : list Filth) (d : option string)
    (Hwf : Forall well_formed l) :
  _sort_filths (filter (in_document d) (_merge_filths l)) =
  filter (in_document d) (_merge_filths l).
Proof.
  rewrite _merge_filths_document.
  assert (Hw : Forall well_formed (filter (in_document d) l)).
  { rewrite Forall_forall in *. intros f Hf. apply filter_In in Hf.
    now apply Hwf. }
  destruct (_merge_filths_yields d _ (filter_in_document_all d l) Hw)
    as [Y1 [Y2 Y3]].
  now apply _sort_filths_id, (gaps_sorted d).
Qed.

Section Walk.
Variable replace_with : Filth -> string.

(** X21.  With no post-processor, [clean] is the walk of the specification
    over the merged spans: when the detectors find well-formed filths of no
    document, [clean], called with no keyword [document_name] or with
    [document_name=None], returns the text rebuilt from what the merge
    yields of them, in the order in which it yields them.  Called with a
    name as keyword [document_name], it returns the text as it is: the
    keyword becomes the parameter of [_replace_text], which keeps the
    spans of that document, and there is none.  (A keyword [text] or
    [filth_list] makes the call raise.) *)
Theorem clean_walks_merged (self : Scrubber) (text : string)
    (found : list Filth) (kw : kwargs)
    (Hpost : _post_processors self = [])
    (Hfound : all_filths self text None None = Ok found)
    (Hwf : Forall well_formed found)
    (Hdoc : Forall (fun f => document_name f = None) found)
    (Htext : kw_text kw = false)
    (Hlist : kw_filth_list kw = false) :
  clean replace_with self text kw =
  match kw_document_name kw with
  | Some (Some _) => Ok text
  | _ => Ok (spec_rebuild replace_with text (_merge_filths found))
  end.
Proof.
  destruct (_merge_filths_yields None found Hdoc Hwf) as [Y1 [Y2 Y3]].
  assert (W : _replace_text replace_with text (_merge_filths found) None =
              spec_rebuild replace_with text (_merge_filths found)).
  { rewrite _replace_text_spec. f_equal.
    now apply _sort_filths_id, (gaps_sorted None). }
  unfold clean, iter_filth. rewrite Htext, Hfound. simpl.
  unfold _post_process_filth_list. rewrite Hpost. simpl.
  unfold call_replace_text. rewrite Htext, Hlist. simpl.
  destruct (kw_document_name kw) as [[name|]|]; f_equal; try exact W.
  rewrite _replace_text_spec.
  rewrite (filter_other_document (Some name) None) by (congruence || exact Y1).
  unfold spec_rebuild. simpl. apply slice_from_start.
Qed.

(** X22.  [clean_documents] treats a list of texts as the dictionary of the
    same texts under the names "0", "1", ...: whatever the keywords, it
    raises the same exception or returns the same clean texts, as a
    list. *)
Theorem clean_documents_list_as_dict (self : Scrubber)
    (texts : list string) (kw : kwargs) :
  clean_documents replace_with self (DocList texts) kw =
  match clean_documents replace_with self (DocDict (as_dict texts)) kw with
  | Ok (DocDict items) => Ok (DocList (map snd items))
  | Ok other => Ok other
  | Raise e => Raise e
  end.
Proof.
  rewrite clean_documents_list, clean_documents_dict.
  destruct (batch_filths self (as_dict texts)) as [filth_list|e];
    [|reflexivity].
  destruct texts as [|text r]; [reflexivity|].
  destruct (as_dict (text :: r)) as [|item items] eqn:A.
  - apply (f_equal (@List.length _)) in A. rewrite as_dict_length in A.
    discriminate.
  - destruct (collides kw); [reflexivity|].
    cbv beta iota. do 2 f_equal. rewrite map_map. reflexivity.
Qed.

End Walk.

Lemma str_nat_injective (i j : nat) :
  Py.str_nat i = Py.str_nat j -> i = j.
Proof.
  unfold Py.str_nat. intros E.
  assert (U : Nat.to_uint i = Nat.to_uint j).
  { assert (H := NilEmpty.usu (Nat.to_uint i)).
    rewrite E, NilEmpty.usu in H. now injection H. }
  rewrite <- (DecimalNat.Unsigned.of_to i), <- (DecimalNat.Unsigned.of_to j).
  now rewrite U.
Qed.

(** ** [iter_filth_documents] *)

Lemma without_no_detectors (self : Scrubber) :
  without_detectors self [] = self.
Proof.
  unfold without_detectors. simpl.
  assert (E : forall l : list (string * Detector.t),
             filter (fun _ => true) l = l).
  { induction l as [|x r IH]; simpl; [reflexivity|now rewrite IH]. }
  rewrite E. apply scrubber_eta.
Qed.

Lemma all_filths_all_excluded (self : Scrubber) (text : string)
    (d : option string) (excluded : list string) :
  (forall name detector, In (name, detector) (_detectors self) ->
                         In name excluded) ->
  all_filths self text d (Some excluded) = Ok [].
Proof.
  intros H. rewrite all_filths_exclude.
  assert (E : _detectors (without_detectors self excluded) = []).
  { unfold without_detectors. simpl.
    induction (_detectors self) as [|[name detector] r IH]; [reflexivity|].
    simpl. rewrite (proj2 (existsb_name name excluded)).
    - simpl. apply IH. intros n d' Hin. apply (H n d'). now right.
    - apply (H name detector). now left. }
  unfold all_filths. now rewrite E.
Qed.

Section Collections.
Variable document_iterator : Detector.t -> option (documents -> list Filth).

Lemma document_detectors_none (self : Scrubber) :
  (forall name detector, In (name, detector) (_detectors self) ->
                         document_iterator detector = None) ->
  document_detectors document_iterator self = [].
Proof.
  unfold document_detectors.
  induction (_detectors self) as [|[name detector] r IH]; intros H;
    [reflexivity|].
  simpl. rewrite (H name detector (or_introl eq_refl)). simpl.
  apply IH. intros n d Hin. apply (H n d). now right.
Qed.

Lemma document_detectors_all (self : Scrubber) :
  (forall name detector, In (name, detector) (_detectors self) ->
                         document_iterator detector <> None) ->
  forall name detector, In (name, detector) (_detectors self) ->
    In name (map fst (document_detectors document_iterator self)).
Proof.
  unfold document_detectors.
  induction (_detectors self) as [|[n d] r IH]; intros H name detector Hin;
    [contradiction|].
  simpl. rewrite map_app. apply in_or_app. destruct Hin as [E|Hin].
  - injection E as -> ->. left.
    destruct (document_iterator detector) eqn:I; [now left|].
    exfalso. exact (H name detector (or_introl eq_refl) I).
  - right. apply (IH (fun n' d' H' => H n' d' (or_intror H')) name detector).
    exact Hin.
Qed.

(** X23.  When every detector works on whole collections, what the detectors
    find is yielded only when the post-processors run: without them
    [iter_filth_documents] yields nothing, for a list and for a dictionary
    of documents. *)
Theorem iter_filth_documents_drops (self : Scrubber) (docs : documents)
    (Hall : forall name detector,
        In (name, detector) (_detectors self) ->
        document_iterator detector <> None)
    (Hdocs : docs <> DocOther) :
  iter_filth_documents document_iterator self docs false = Ok [] /\
  iter_filth_documents document_iterator self docs true =
  Ok (_post_process_filth_list self
        (flat_map (fun item : string * (documents -> list Filth) =>
                     snd item docs)
                  (document_detectors document_iterator self))).
Proof.
  assert (I : forall text name,
             iter_filth self text (Some name) false
               (Some (map fst (document_detectors document_iterator self)))
             = Ok []).
  { intros text name. unfold iter_filth.
    rewrite all_filths_all_excluded; [reflexivity|].
    now apply document_detectors_all. }
  destruct docs as [texts|items|]; [| |contradiction];
    unfold iter_filth_documents.
  - destruct (for_each_nil
                (fun item : nat * string =>
                   let (i_name, text) := item in
                   iter_filth self text (Some (Py.str_nat i_name)) false
                     (Some (map fst
                              (document_detectors document_iterator self))))
                (Py.enumerate texts)) as [found [E C]].
    + intros [i text] _. apply I.
    + rewrite E. simpl. rewrite C, app_nil_r. now split.
  - destruct (for_each_nil
                (fun item : string * string =>
                   let (name, text) := item in
                   iter_filth self text (Some name) false
                     (Some (map fst
                              (document_detectors document_iterator self))))
                items) as [found [E C]].
    + intros [name text] _. apply I.
    + rewrite E. simpl. rewrite C, app_nil_r. now split.
Qed.

Variable replace_with : Filth -> string.

(** X24.  With no post-processor and no detector that works on whole
    collections, [clean_documents] rebuilds every document from what
    [iter_filth_documents] yields, and raises when it raises. *)
Theorem clean_documents_from_iter_filth_documents (self : Scrubber)
    (items : list (string * string))
    (Hpost : _post_processors self = [])
    (Hnone : forall name detector,
        In (name, detector) (_detectors self) ->
        document_iterator detector = None) :
  clean_documents replace_with self (DocDict items) no_kwargs =
  match iter_filth_documents document_iterator self (DocDict items) true with
  | Ok filth_list =>
      Ok (DocDict
            (map (fun item : string * string =>
                    (fst item,
                     _replace_text replace_with (snd item) filth_list
                                   (Some (fst item))))
                 items))
  | Raise e => Raise e
  end.
Proof.
  rewrite clean_documents_no_kwargs. unfold iter_filth_documents.
  rewrite (document_detectors_none self Hnone). simpl.
  assert (E : forall text name,
             iter_filth self text (Some name) false (Some []) =
             iter_filth self text (Some name) true None).
  { intros text name. unfold iter_filth.
    rewrite all_filths_exclude, without_no_detectors.
    unfold _post_process_filth_list. rewrite Hpost. reflexivity. }
  assert (F : Exn.for_each
                (fun item : string * string =>
                   let (name, text) := item in
                   iter_filth self text (Some name) false (Some []))
                items =
              Exn.for_each
                (fun item : string * string =>
                   let (name, document) := item in
                   iter_filth self document (Some name) true None)
                items).
  { induction items as [|[name text] r IH]; simpl; [reflexivity|].
    now rewrite E, IH. }
  rewrite F. clear F.
  destruct (Exn.for_each _ items) as [per_document|e]; simpl;
    [|reflexivity].
  do 2 f_equal. apply map_ext. now intros [name text].
Qed.

End Collections.

(** ** The documents of a list *)

(** X25.  The texts of a list are different documents: a span of the text at
    one position plays no part in rebuilding the text at another. *)
Theorem positions_are_documents (replace_with : Filth -> string)
    (text : string) (i j : nat) (f : Filth) (filth_list : list Filth)
    (Hij : i <> j)
    (Hf : document_name f = Some (Py.str_nat i)) :
  _replace_text replace_with text (f :: filth_list) (Some (Py.str_nat j)) =
  _replace_text replace_with text filth_list (Some (Py.str_nat j)).
Proof.
  rewrite !_replace_text_spec. simpl.
  destruct (in_document (Some (Py.str_nat j)) f) eqn:D; [|reflexivity].
  apply in_document_iff in D. rewrite Hf in D. injection D as D.
  now apply str_nat_injective in D.
Qed.

(** ** Post-processors that are refused *)

Section Refused.
Variable post_processor_configuration : list (string * post_processor_config).

(** X26.  [add_post_processor] refuses a post-processor whose name is in
    use, at any index, with the [KeyError] of a name in use; and whenever it
    raises, for whatever reason, the scrubber is as it was. *)
Theorem add_post_processor_refuses
    (post_processor : Py.value PostProcessor.t) (index : option Z)
    (self : Scrubber) :
  (forall p,
      produced_post_processor post_processor_configuration post_processor
        = Some p ->
      In (PostProcessor.name p) (post_processor_names self) ->
      add_post_processor post_processor_configuration post_processor index
                         self
      = (Raise (KeyError (NameInUse (PostProcessor.name p))), self)) /\
  (forall e self',
      add_post_processor post_processor_configuration post_processor index
                         self = (Raise e, self') ->
      self' = self).
Proof.
  assert (A : forall p,
             In (PostProcessor.name p) (post_processor_names self) ->
             _check_and_add_post_processor (Py.IsA p) index self
             = (Raise (KeyError (NameInUse (PostProcessor.name p))), self)).
  { intros p Hin. rewrite _check_and_add_post_processor_result.
    apply existsb_name in Hin. now rewrite Hin. }
  assert (B : forall p e self',
             _check_and_add_post_processor (Py.IsA p) index self
             = (Raise e, self') -> self' = self).
  { intros p e self'. rewrite _check_and_add_post_processor_result.
    destruct (existsb _ _); [|discriminate].
    intros E. now injection E as _ <-. }
  assert (C : forall n e self',
             _check_and_add_post_processor (Py.NotA n) index self
             = (Raise e, self') -> self' = self).
  { intros n e self' E. now injection E as _ <-. }
  split.
  - intros p Hp Hin.
    destruct post_processor as [[q|n]|q|s|]; simpl in Hp; try discriminate.
    + injection Hp as ->. simpl. now apply A.
    + injection Hp as ->. simpl. now apply A.
    + simpl.
      destruct (dict_get post_processor_configuration s) as [config|];
        [|discriminate].
      destruct (cfg_post_processor config) as [q|n]; [|discriminate].
      injection Hp as ->. simpl. now apply A.
  - intros e self'.
    destruct post_processor as [[q|n]|q|s|]; simpl.
    + apply B.
    + intros E. now injection E as _ <-.
    + apply B.
    + destruct (dict_get post_processor_configuration s) as [config|].
      * destruct (cfg_post_processor config) as [q|n]; simpl;
          [apply B|apply (C n)].
      * intros E. now injection E as _ <-.
    + discriminate.
Qed.

End Refused.

(** ** Instances of the properties *)

Lemma replace_text_no_filth_witness :
  _replace_text (fun _ => "") "no filth here"
                [mkFilth 0 7 (Some "x") None ["EMAIL"] ["email"]] (Some "y")
  = "no filth here".
Proof.
  apply (replace_text_no_filth (fun _ => "") "no filth here" "y").
  repeat constructor. discriminate.
Defined.

Lemma replace_text_round_trip_witness :
  _replace_text (fun _ => "") "Contact John Doe"
                [mkFilth 8 16 None (Some "John Doe") ["NAME"] ["name"]] None
  = "Contact John Doe".
Proof.
  apply (replace_text_round_trip (fun _ => "") "Contact John Doe" _ None).
  - repeat constructor.
  - now left.
  - repeat constructor.
  - repeat constructor; simpl; lia.
  - repeat constructor.
Defined.

Lemma replace_text_length_witness :
  Z.of_nat (String.length
              (_replace_text (fun _ => "") "Contact John Doe"
                 [mkFilth 8 16 None (Some "{{NAME}}") ["NAME"] ["name"]]
                 None))
  = 16.
Proof.
  rewrite (replace_text_length (fun _ => "") "Contact John Doe" _ None).
  - reflexivity.
  - repeat constructor.
  - now left.
  - repeat constructor.
  - repeat constructor; simpl; lia.
Defined.

Lemma clean_nothing_found_witness :
  clean (fun _ => "") (mkScrubber [] []) "no filth here" no_kwargs
  = Ok "no filth here".
Proof.
  apply (clean_nothing_found (fun _ => "") (mkScrubber [] []) "no filth here"
           no_kwargs).
  - intros name detector [].
  - reflexivity.
Defined.

Lemma clean_documents_nothing_found_witness :
  clean_documents (fun _ => "") (mkScrubber [] [])
                  (DocList ["doc0"; "doc1"]) no_kwargs
  = Ok (DocList ["doc0"; "doc1"]).
Proof.
  apply clean_documents_nothing_found.
  - intros text name _ n detector [].
  - reflexivity.
Defined.

Lemma merge_covers_witness :
  let a := mkFilth 0 10 None None ["NAME"] ["a"] in
  let b := mkFilth 5 15 None None ["EMAIL"] ["b"] in
  exists m, In m (_merge_filths [a; b]) /\ covers m b.
Proof.
  intros a b. apply (merge_covers [a; b] b). right. now left.
Defined.

Lemma merge_within_witness :
  let a := mkFilth 0 10 None None ["NAME"] ["a"] in
  let b := mkFilth 5 15 None None ["EMAIL"] ["b"] in
  exists f, In f [a; b] /\ document_name f = None /\ in_span 12 f.
Proof.
  intros a b. apply (merge_within [a; b] (merge a b) 12).
  - now left.
  - unfold in_span. simpl. lia.
Defined.

Lemma merge_yields_ordered_witness :
  let a := mkFilth 0 10 None None ["NAME"] ["a"] in
  let b := mkFilth 5 15 (Some "x") None ["EMAIL"] ["b"] in
  Sorted merged_order (_merge_filths [b; a]).
Proof.
  intros a b. apply (merge_yields_ordered [b; a]).
  repeat constructor; unfold well_formed; simpl; lia.
Defined.

Lemma merge_idempotent_witness :
  let a := mkFilth 0 10 None None ["NAME"] ["a"] in
  let b := mkFilth 5 15 None None ["EMAIL"] ["b"] in
  _merge_filths (_merge_filths [a; b]) = _merge_filths [a; b].
Proof.
  intros a b. apply merge_idempotent.
  repeat constructor; unfold well_formed; simpl; lia.
Defined.

Lemma sort_after_merge_witness :
  let a := mkFilth 0 10 None None ["NAME"] ["a"] in
  let b := mkFilth 20 25 None None ["EMAIL"] ["b"] in
  _sort_filths (filter (in_document None) (_merge_filths [b; a])) =
  filter (in_document None) (_merge_filths [b; a]).
Proof.
  intros a b. apply sort_after_merge.
  repeat constructor; unfold well_formed; simpl; lia.
Defined.

Lemma add_detector_outcome_witness :
  let name := reports "name" "NAME" 0 3 in
  let self' := mkScrubber [entry name] [] in
  (Py.Instance name = Py.Other /\ self' = mkScrubber [] []) \/
  exists d,
    produced [] (Py.Instance name) = Some d /\
    ~ In (Detector.name d) (map fst (_detectors (mkScrubber [] []))) /\
    self' = mkScrubber (_detectors (mkScrubber [] []) ++ [entry d])
                       (_post_processors (mkScrubber [] [])).
Proof.
  intros name self'.
  exact (add_detector_outcome [] (Py.Instance name) (mkScrubber [] [])
                              self' (Ok tt) eq_refl).
Defined.

Lemma add_remove_detector_witness :
  let name := reports "name" "NAME" 0 3 in
  let email := reports "email" "EMAIL" 0 3 in
  let self := mkScrubber [entry name] [] in
  exists self1,
    add_detector [] (Py.Instance email) self = (Ok tt, self1) /\
    remove_detector (Py.Str "email") self1 = (Ok tt, self).
Proof.
  intros name email self.
  destruct (add_remove_detector [] (Py.Instance email) email self)
    as [self1 [H1 [_ [H2 _]]]].
  - reflexivity.
  - simpl. intros [H|[]]. discriminate.
  - exists self1. split; [exact H1|exact H2].
Defined.

Lemma remove_detector_lookup_witness :
  let name := reports "name" "NAME" 0 3 in
  let email := reports "email" "EMAIL" 0 3 in
  exists self',
    remove_detector (Py.Str "name")
                    (mkScrubber [entry name; entry email] [])
      = (Ok tt, self') /\
    dict_get (_detectors self') "email" = Some email.
Proof.
  intros name email.
  destruct (remove_detector_lookup
              (mkScrubber [entry name; entry email] []) "name")
    as [self' [H1 [_ [H2 _]]]].
  - split.
    + simpl. repeat constructor; simpl; intuition discriminate.
    + repeat constructor.
  - simpl. now left.
  - exists self'. split; [exact H1|]. now rewrite H2.
Defined.

Lemma unique_post_processor_names_witness :
  NoDup (post_processor_names (mkScrubber [] [fixes "a" "X"; fixes "b" "Y"])).
Proof.
  apply (unique_post_processor_names [] []).
  apply (reachable_new [] [] (Some [])
           (Some [Py.Instance (fixes "a" "X"); Py.Instance (fixes "b" "Y")])).
  reflexivity.
Defined.

Lemma add_remove_post_processor_witness :
  let self := mkScrubber [] [fixes "a" "X"; fixes "b" "Y"] in
  exists self1,
    add_post_processor [] (Py.Instance (fixes "c" "Z")) (Some (-1)) self
      = (Ok tt, self1) /\
    nth_error (_post_processors self1) 1 = Some (fixes "c" "Z") /\
    remove_post_processor (Py.Str "c") self1 = (Ok tt, self).
Proof.
  intros self.
  destruct (add_remove_post_processor [] (Py.Instance (fixes "c" "Z"))
              (fixes "c" "Z") (Some (-1)) self)
    as [self1 [H1 [_ [H2 [_ H3]]]]].
  - reflexivity.
  - simpl. intuition discriminate.
  - exists self1. split; [exact H1|]. split; [exact H2|exact H3].
Defined.

Lemma remove_post_processor_by_name_witness :
  exists self',
    remove_post_processor (Py.Str "c") (mkScrubber [] [fixes "a" "X"])
      = (Ok tt, self') /\
    self' = mkScrubber [] [fixes "a" "X"].
Proof.
  destruct (remove_post_processor_by_name
              (mkScrubber [] [fixes "a" "X"]) "c")
    as [self' [H1 [_ [_ [_ H2]]]]].
  exists self'. split; [exact H1|]. apply H2.
  simpl. intuition discriminate.
Defined.

Lemma add_post_processor_runs_witness :
  let self := mkScrubber [] [fixes "a" "X"] in
  exists last,
    add_post_processor [] (Py.Instance (fixes "b" "Y")) None self
      = (Ok tt, last) /\
    forall filth_list,
      _post_process_filth_list last filth_list =
      PostProcessor.process_filth (fixes "b" "Y")
        (_post_process_filth_list self filth_list).
Proof.
  intros self.
  destruct (add_post_processor_runs [] (Py.Instance (fixes "b" "Y"))
              (fixes "b" "Y") self) as [H _].
  - reflexivity.
  - simpl. intuition discriminate.
  - exact H.
Defined.

Lemma new_holds_witness :
  let name := reports "name" "NAME" 0 3 in
  _detectors (mkScrubber [entry name] []) =
  map entry (produced_all [] [Py.Instance name; Py.Other]).
Proof.
  intros name.
  destruct (new_holds [] [] (Some [Py.Instance name; Py.Other]) (Some [])
              (mkScrubber [entry name] []) eq_refl) as [H1 _].
  exact H1.
Defined.

Lemma new_of_detectors_witness :
  let first := reports "name" "NAME" 0 3 in
  let second := reports "name" "PERSON" 0 5 in
  exists n,
    In n ["name"; "name"] /\
    new [] [] (Some [Py.Instance first; Py.Instance second]) (Some [])
    = Raise (KeyError (NameInUse n)).
Proof.
  intros first second.
  destruct (new_of_detectors [] [] [first; second]) as [_ H].
  apply H. simpl. intros N. inversion N as [|? ? Hn _]. apply Hn. now left.
Defined.

Lemma clean_walks_merged_witness :
  let self := mkScrubber [("name", reports "name" "NAME" 8 16)] [] in
  clean placeholder self "Contact John Doe" no_kwargs =
  Ok (spec_rebuild placeholder "Contact John Doe"
        (_merge_filths [mkFilth 8 16 None None ["NAME"] ["name"]])) /\
  clean placeholder self "Contact John Doe"
        (mkKwargs false false (Some (Some "d"))) =
  Ok "Contact John Doe".
Proof.
  intros self. split.
  - apply (clean_walks_merged placeholder self "Contact John Doe"
             [mkFilth 8 16 None None ["NAME"] ["name"]] no_kwargs).
    + reflexivity.
    + reflexivity.
    + repeat constructor; unfold well_formed; simpl; lia.
    + repeat constructor.
    + reflexivity.
    + reflexivity.
  - apply (clean_walks_merged placeholder self "Contact John Doe"
             [mkFilth 8 16 None None ["NAME"] ["name"]]
             (mkKwargs false false (Some (Some "d")))).
    + reflexivity.
    + reflexivity.
    + repeat constructor; unfold well_formed; simpl; lia.
    + repeat constructor.
    + reflexivity.
    + reflexivity.
Defined.

Lemma positions_are_documents_witness :
  let in_0 := mkFilth 0 3 (Some "0") (Some "X") [] [] in
  _replace_text (fun _ => "") "doc1" [in_0] (Some "1") =
  _replace_text (fun _ => "") "doc1" [] (Some "1").
Proof.
  intros in_0.
  apply (positions_are_documents (fun _ => "") "doc1" 0 1 in_0 []).
  - discriminate.
  - reflexivity.
Defined.

Lemma iter_filth_documents_drops_witness :
  let everywhere (docs : documents) :=
    [mkFilth 0 3 (Some "0") None ["NAME"] ["name"]] in
  let self := mkScrubber [("name", reports "name" "NAME" 0 3)] [] in
  iter_filth_documents (fun _ => Some everywhere) self
                       (DocList ["doc0"]) false = Ok [] /\
  iter_filth_documents (fun _ => Some everywhere) self
                       (DocList ["doc0"]) true
  = Ok [mkFilth 0 3 (Some "0") None ["NAME"] ["name"]].
Proof.
  intros everywhere self.
  destruct (iter_filth_documents_drops (fun _ => Some everywhere) self
              (DocList ["doc0"])) as [H1 H2].
  - intros name detector _. discriminate.
  - discriminate.
  - split; [exact H1|]. rewrite H2. reflexivity.
Defined.

Lemma clean_documents_from_iter_filth_documents_witness :
  let self := mkScrubber [("name", reports "name" "NAME" 0 3)] [] in
  clean_documents placeholder self (DocDict [("x", "Ann and Bob")])
                  no_kwargs =
  Ok (DocDict [("x", "{{NAME}} and Bob")]).
Proof.
  intros self.
  rewrite (clean_documents_from_iter_filth_documents (fun _ => None)
             placeholder self).
  - reflexivity.
  - reflexivity.
  - reflexivity.
Defined.

Lemma add_post_processor_refuses_witness :
  let self := mkScrubber [] [fixes "a" "X"; fixes "b" "Y"] in
  add_post_processor [] (Py.Instance (fixes "b" "Z")) (Some 0) self
  = (Raise (KeyError (NameInUse "b")), self).
Proof.
  intros self.
  destruct (add_post_processor_refuses [] (Py.Instance (fixes "b" "Z"))
              (Some 0) self) as [H _].
  apply (H (fixes "b" "Z")).
  - reflexivity.
  - simpl. right. now left.
Defined.
